(** * Ollama model manager: streaming console and proxy

    A shallow embedding of the parts of [server.js], [public/app.js] and the
    legacy single-page console (the inline script of the HTML page) that
    deal with the newline-delimited JSON progress stream, the Express
    middleware stack and the endpoint / bulk-delete handlers, and of what
    the two pages do with the server's answers: the endpoint and delete
    controls, the request wrapper and the connection check, the selection
    and the sort order of the model list.

    Conventions of the embedding.
    - A JavaScript string is a Rocq [string] holding the UTF-8 bytes of
      the text.  A stream is the list of the texts that
      [new TextDecoder().decode(value)] produced, one per [reader.read()]
      that resolved with a value; [Stream.Reads] adds how the last read
      ended.
    - A JavaScript number is a binary64 value ([JS.Num]): NaN, the two
      infinities, a signed zero, or the exact rational value of a finite
      double; literals, quotients and products are rounded to the nearest
      double ([JS.round64]).
    - DOM writes, console output and thrown exceptions are explicit: every
      function returns the list of effects it performed and how it ended. *)

From Stdlib Require Import Bool List ZArith QArith Qround Qabs Qpower Lia Lqa Ascii String.
From Stdlib Require Import Numbers.DecimalString.
Import ListNotations.

Close Scope Q_scope.
Open Scope list_scope.
Open Scope string_scope.

(* ================================================================== *)
(** ** JavaScript text primitives *)
(* ================================================================== *)

Module JS.

(** The line feed, ['\n']. *)
Definition LF : ascii := "010"%char.

(** [s.split(sep)] for a one-character separator: never empty; the last
    element is what follows the last separator. *)
Fixpoint split_on (sep : ascii) (s : string) : list string :=
  match s with
  | EmptyString => [EmptyString]
  | String c s' =>
      if Ascii.eqb c sep then EmptyString :: split_on sep s'
      else match split_on sep s' with
           | l :: ls => String c l :: ls
           | [] => [String c EmptyString]
           end
  end.

(** [s.split('\n')] *)
Definition split_nl (s : string) : list string := split_on LF s.

(** The byte sequences of the code points [String.prototype.trim] removes
    (WhiteSpace and LineTerminator of ECMA-262), in UTF-8. *)
Definition b (n : nat) : ascii := ascii_of_nat n.
Definition seq1 (x : nat) : string := String (b x) EmptyString.
Definition seq2 (x y : nat) : string := String (b x) (seq1 y).
Definition seq3 (x y z : nat) : string := String (b x) (seq2 y z).

Definition white_space : list string :=
  [ seq1 9; seq1 10; seq1 11; seq1 12; seq1 13; seq1 32;
    seq2 194 160;                                  (* U+00A0 *)
    seq3 225 154 128;                              (* U+1680 *)
    seq3 226 128 128; seq3 226 128 129; seq3 226 128 130;
    seq3 226 128 131; seq3 226 128 132; seq3 226 128 133;
    seq3 226 128 134; seq3 226 128 135; seq3 226 128 136;
    seq3 226 128 137; seq3 226 128 138;            (* U+2000..U+200A *)
    seq3 226 128 168; seq3 226 128 169;            (* U+2028, U+2029 *)
    seq3 226 128 175;                              (* U+202F *)
    seq3 226 129 159;                              (* U+205F *)
    seq3 227 128 128;                              (* U+3000 *)
    seq3 239 187 191 ].                            (* U+FEFF *)

(** [strip_prefix p s] is [Some rest] when [s = p ++ rest]. *)
Fixpoint strip_prefix (p s : string) : option string :=
  match p, s with
  | EmptyString, _ => Some s
  | String a p', String c s' =>
      if Ascii.eqb a c then strip_prefix p' s' else None
  | String _ _, EmptyString => None
  end.

Fixpoint strip_any (ps : list string) (s : string) : option string :=
  match ps with
  | [] => None
  | p :: ps' =>
      match strip_prefix p s with
      | Some r => Some r
      | None => strip_any ps' s
      end
  end.

Fixpoint trim_start_fuel (fuel : nat) (ws : list string) (s : string) : string :=
  match fuel with
  | O => s
  | S f =>
      match strip_any ws s with
      | Some r => trim_start_fuel f ws r
      | None => s
      end
  end.

Fixpoint rev_string (s : string) : string :=
  match s with
  | EmptyString => EmptyString
  | String c s' => rev_string s' ++ String c EmptyString
  end.

(** [s.trimStart()], [s.trimEnd()] and [s.trim()]. *)
Definition trimStart (s : string) : string :=
  trim_start_fuel (String.length s) white_space s.

Definition trimEnd (s : string) : string :=
  rev_string (trim_start_fuel (String.length s) (map rev_string white_space)
                              (rev_string s)).

Definition trim (s : string) : string := trimEnd (trimStart s).

(** A byte that begins one of the whitespace sequences, and the last byte
    of a text. *)
Definition ws_start (c : ascii) : bool :=
  existsb (fun p => match p with
                    | String a _ => Ascii.eqb a c
                    | EmptyString => false
                    end) white_space.

Definition last_char (s : string) : option ascii :=
  match rev_string s with
  | String c _ => Some c
  | EmptyString => None
  end.

(** Truthiness of a string: [""] is the only falsy one. *)
Definition nonempty (s : string) : bool :=
  match s with EmptyString => false | _ => true end.

(* ------------------------------------------------------------------ *)
(** *** Numbers *)

(** A Number value: an IEEE 754 binary64.  [Fin q] carries the exact value
    of a finite double other than zero, as a rational in lowest terms; the
    two zeros are [Zero false] (+0) and [Zero true] (-0). *)
Inductive Num : Type :=
| NaN
| Inf (neg : bool)
| Zero (neg : bool)
| Fin (q : Q).

Definition is_neg (x : Num) : bool :=
  match x with
  | NaN => false
  | Inf n => n
  | Zero n => n
  | Fin q => (Qnum q <? 0)%Z
  end.

Definition Num_eqb (x y : Num) : bool :=
  match x, y with
  | NaN, _ | _, NaN => false
  | Inf n, Inf m => Bool.eqb n m
  | Zero _, Zero _ => true
  | Fin p, Fin q => Qeq_bool p q
  | _, _ => false
  end.

(** [2^e] and [10^e] for any integer [e]. *)
Definition pow2 (e : Z) : Q := Qpower 2 e.

Definition pow10 (e : Z) : Q := Qpower 10 e.

(** [floor (log2 q)] for [q > 0]. *)
Definition ilog2 (q : Q) : Z :=
  let l := (Z.log2 (Qnum q) - Z.log2 (Zpos (Qden q)))%Z in
  if Qle_bool (pow2 l) q then l else (l - 1)%Z.

(** The integer nearest to [q]; of two equally near, the even one. *)
Definition nearest_even (q : Q) : Z :=
  let f := Qfloor q in
  match Qcompare (q - inject_Z f) (1 # 2) with
  | Lt => f
  | Gt => (f + 1)%Z
  | Eq => if Z.even f then f else (f + 1)%Z
  end.

(** Rounding to binary64, which every arithmetic operation and every
    numeric literal ends with: the multiple [m * 2^e] of [2^e] nearest to
    [q > 0], a tie going to the even [m], where [e] leaves 53 binary digits
    to [q] and is no less than -1074; what rounds to [2^1024] or beyond is
    an infinity, what rounds to nothing is a zero.  [neg] is the sign of
    the result. *)
Definition round64 (neg : bool) (q : Q) : Num :=
  let e := Z.max (ilog2 q - 52) (-1074) in
  let m := nearest_even (q / pow2 e) in
  if (m =? 0)%Z then Zero neg
  else if Qle_bool (pow2 1024) (inject_Z m * pow2 e) then Inf neg
  else Fin (Qred ((if neg then inject_Z (- m) else inject_Z m) * pow2 e)).

(** The Number for a rational other than zero. *)
Definition round (q : Q) : Num := round64 (Qnum q <? 0)%Z (Qabs q).

(** The Number for an integer. *)
Definition of_Z (z : Z) : Num :=
  if (z =? 0)%Z then Zero false else round (inject_Z z).

(** [x / y] *)
Definition div (x y : Num) : Num :=
  let s := xorb (is_neg x) (is_neg y) in
  match x, y with
  | NaN, _ | _, NaN => NaN
  | Inf _, Inf _ => NaN
  | Inf _, _ => Inf s
  | _, Inf _ => Zero s
  | Zero _, Zero _ => NaN
  | Zero _, Fin _ => Zero s
  | Fin _, Zero _ => Inf s
  | Fin p, Fin q => round (p / q)
  end.

(** [x * y] *)
Definition mul (x y : Num) : Num :=
  let s := xorb (is_neg x) (is_neg y) in
  match x, y with
  | NaN, _ | _, NaN => NaN
  | Inf _, Zero _ | Zero _, Inf _ => NaN
  | Inf _, _ | _, Inf _ => Inf s
  | Zero _, _ | _, Zero _ => Zero s
  | Fin p, Fin q => round (p * q)
  end.

(** [x > 0] and [x >= k] for an integer literal [k]. *)
Definition gt0 (x : Num) : bool :=
  match x with
  | NaN => false
  | Inf n => negb n
  | Zero _ => false
  | Fin q => (0 <? Qnum q)%Z
  end.

Definition geZ (x : Num) (k : Z) : bool :=
  match x with
  | NaN => false
  | Inf n => negb n
  | Zero _ => (k <=? 0)%Z
  | Fin q => Qle_bool (inject_Z k) q
  end.

(** Neither NaN nor an infinity. *)
Definition finite (x : Num) : bool :=
  match x with
  | Zero _ | Fin _ => true
  | NaN | Inf _ => false
  end.

(** The real number a finite Number stands for. *)
Definition exact (x : Num) : option Q :=
  match x with
  | Zero _ => Some 0%Q
  | Fin q => Some q
  | NaN | Inf _ => None
  end.

(** Falsy numbers are the zeros and NaN. *)
Definition Num_truthy (x : Num) : bool :=
  match x with
  | NaN | Zero _ => false
  | _ => true
  end.

(** [Math.round(x)]: [floor(x + 0.5)] of the exact value (an integer that
    is a double again), keeping the sign of a zero result. *)
Definition Math_round (x : Num) : Num :=
  match x with
  | Fin q =>
      let r := Qfloor (q + (1 # 2)) in
      if (r =? 0)%Z then Zero (Qnum q <? 0)%Z else Fin (inject_Z r)
  | _ => x
  end.

(** Decimal digits of a natural number. *)
Definition dec (n : Z) : string :=
  NilZero.string_of_uint (N.to_uint (Z.to_N n)).

Fixpoint zeros (n : nat) : string :=
  match n with
  | O => EmptyString
  | S k => String "0"%char (zeros k)
  end.

Fixpoint take (n : nat) (s : string) : string :=
  match n, s with
  | S k, String c s' => String c (take k s')
  | _, _ => EmptyString
  end.

Fixpoint drop (n : nat) (s : string) : string :=
  match n, s with
  | S k, String _ s' => drop k s'
  | _, _ => s
  end.

Fixpoint drop_zeros (s : string) : string :=
  match s with
  | String "0"%char s' => drop_zeros s'
  | _ => s
  end.

(** Smallest [j] with [num * 10^j] divisible by [den], and the quotient. *)
Fixpoint find_scale (fuel : nat) (num den : Z) (j : nat) : nat * Z :=
  match fuel with
  | O => (j, (num / den)%Z)
  | S f =>
      if (num mod den =? 0)%Z then (j, (num / den)%Z)
      else find_scale f (num * 10)%Z den (S j)
  end.

Definition sign_prefix (neg : bool) : string := if neg then "-" else "".

(** The notation [Number::toString] gives to a positive decimal [a]
    (a rational with a finite decimal expansion): its digits, with the
    point or the exponent placed by where the first digit stands. *)
Definition pos_toString (a : Q) : string :=
  let den := Zpos (Qden a) in
  let '(j, m) := find_scale (S (Z.to_nat (Z.log2 den))) (Qnum a) den 0 in
  let D := dec m in
  let sd := match j with
            | O => rev_string (drop_zeros (rev_string D))
            | S _ => D
            end in
  let k := String.length sd in
  let n := (Z.of_nat (String.length D) - Z.of_nat j)%Z in
  if ((Z.of_nat k <=? n) && (n <=? 21))%Z then
    sd ++ zeros (Z.to_nat n - k)
  else if ((0 <? n) && (n <=? 21))%Z then
    take (Z.to_nat n) sd ++ "." ++ drop (Z.to_nat n) sd
  else if ((-6 <? n) && (n <=? 0))%Z then
    "0." ++ zeros (Z.to_nat (- n)) ++ sd
  else
    let e := (n - 1)%Z in
    let mant := match sd with
                | String c EmptyString => sd
                | String c rest => String c ("." ++ rest)
                | EmptyString => sd
                end in
    mant ++ "e" ++ (if (0 <=? e)%Z then "+" else "-") ++ dec (Z.abs e).

(** The least [j' >= j] with [q * 10^(j' - j) >= 1], for [q > 0]. *)
Fixpoint scale_up (fuel : nat) (q : Q) (j : Z) : Z :=
  match fuel with
  | O => j
  | S f => if Qle_bool 1 q then j else scale_up f (q * 10)%Q (j + 1)%Z
  end.

(** [n] with [10^(n-1) <= q < 10^n], for [q > 0]: the place of the first
    significant digit. *)
Definition magnitude (q : Q) : Z :=
  if Qle_bool 1 q then Z.of_nat (String.length (dec (Qfloor q)))
  else (1 - scale_up (S (Z.to_nat (Z.log2 (Zpos (Qden q))))) q 0)%Z.

(** Of the two decimals of [k] digits around the double [q], those that
    are read back as [q]: the nearer one, and the even one when both are
    equally near. *)
Definition digits_for (q : Q) (k : Z) : option Q :=
  let unit := pow10 (magnitude q - k) in
  let lo := Qfloor (q / unit) in
  let a := (inject_Z lo * unit)%Q in
  let b := (inject_Z (lo + 1) * unit)%Q in
  let back (d : Q) := Num_eqb (round64 false d) (Fin q) in
  match back a, back b with
  | true, true =>
      match Qcompare (q - a) (b - q) with
      | Lt => Some a
      | Gt => Some b
      | Eq => Some (if Z.even lo then a else b)
      end
  | true, false => Some a
  | false, true => Some b
  | false, false => None
  end.

Fixpoint shortest_from (fuel : nat) (q : Q) (k : Z) : Q :=
  match fuel with
  | O => q
  | S f =>
      match digits_for q k with
      | Some d => d
      | None => shortest_from f q (k + 1)%Z
      end
  end.

(** The decimal of fewest significant digits that is read back as the
    double [q > 0]; seventeen digits are always enough. *)
Definition shortest (q : Q) : Q := shortest_from 17 q 1.

(** [String(x)] for a number. *)
Definition Num_toString (x : Num) : string :=
  match x with
  | NaN => "NaN"
  | Inf n => sign_prefix n ++ "Infinity"
  | Zero _ => "0"
  | Fin q => sign_prefix (Qnum q <? 0)%Z ++ pos_toString (shortest (Qabs q))
  end.

(** [x.toFixed(d)]: the integer [n] nearest to [x * 10^d], the larger of
    two equally near, taken on the exact value of the double. *)
Definition toFixed (d : nat) (x : Num) : string :=
  match x with
  | NaN => "NaN"
  | Inf n => sign_prefix n ++ "Infinity"
  | Zero _ => "0" ++ match d with O => "" | S _ => "." ++ zeros d end
  | Fin q =>
      if Qle_bool (inject_Z (10 ^ 21)) (Qabs q) then Num_toString x
      else
        let n := Qfloor (Qabs q * inject_Z (10 ^ Z.of_nat d) + (1 # 2)) in
        let ds := dec n in
        let ds := zeros (S d - String.length ds) ++ ds in
        let ip := String.length ds - d in
        sign_prefix (Qnum q <? 0)%Z ++ take ip ds
          ++ match d with O => "" | S _ => "." ++ drop ip ds end
  end.

End JS.

(* ================================================================== *)
(** ** JSON values, [JSON.parse] and [JSON.stringify] *)
(* ================================================================== *)

Module Json.
Import JS.

#[local] Set Warnings "-register-all".

(** What [JSON.parse] can return, plus [undefined] (the value of a missing
    property).  An object keeps its members in source order. *)
Inductive value : Type :=
| VUndefined
| VNull
| VBool (b : bool)
| VNum (n : Num)
| VStr (s : string)
| VArr (l : list value)
| VObj (m : list (string * value)).

Definition DQUOTE : ascii := "034"%char.
Definition BSLASH : ascii := "092"%char.

(** Test strings are written with ['] where the JSON text has a double
    quote: [json_text "{'a':1}"] is the text [{"a":1}]. *)
Fixpoint json_text (s : string) : string :=
  match s with
  | EmptyString => EmptyString
  | String c s' =>
      String (if Ascii.eqb c "'"%char then DQUOTE else c) (json_text s')
  end.

(* ------------------------------------------------------------------ *)
(** *** Scanning digits *)

Definition is_digit (c : ascii) : bool :=
  let n := nat_of_ascii c in (48 <=? n)%nat && (n <=? 57)%nat.

Definition digit_val (c : ascii) : Z := Z.of_nat (nat_of_ascii c) - 48.

Definition hex_val (c : ascii) : option Z :=
  let n := nat_of_ascii c in
  if (48 <=? n)%nat && (n <=? 57)%nat then Some (Z.of_nat n - 48)%Z
  else if (65 <=? n)%nat && (n <=? 70)%nat then Some (Z.of_nat n - 55)%Z
  else if (97 <=? n)%nat && (n <=? 102)%nat then Some (Z.of_nat n - 87)%Z
  else None.

(** The longest prefix of digits, and what follows it. *)
Fixpoint scan_digits (s : string) : string * string :=
  match s with
  | String c s' =>
      if is_digit c then let '(d, r) := scan_digits s' in (String c d, r)
      else (EmptyString, s)
  | EmptyString => (EmptyString, EmptyString)
  end.

Fixpoint digits_val_from (acc : Z) (s : string) : Z :=
  match s with
  | EmptyString => acc
  | String c s' => digits_val_from (acc * 10 + digit_val c)%Z s'
  end.

Definition digits_val (s : string) : Z := digits_val_from 0 s.

(** The Number for the literal [± mant * 10^e]: the double nearest to it. *)
Definition mk_decimal (neg : bool) (mant e : Z) : Num :=
  if (mant =? 0)%Z then Zero neg
  else round64 neg (inject_Z mant * pow10 e).

(** An optional exponent part [e±ddd]; [None] when the [e] is not followed
    by digits. *)
Definition scan_exp (s : string) : option (Z * string) :=
  match s with
  | String c r =>
      if Ascii.eqb c "e"%char || Ascii.eqb c "E"%char then
        let '(neg, r1) :=
          match r with
          | String sg r' =>
              if Ascii.eqb sg "-"%char then (true, r')
              else if Ascii.eqb sg "+"%char then (false, r')
              else (false, r)
          | EmptyString => (false, r)
          end in
        let '(d, r2) := scan_digits r1 in
        match d with
        | EmptyString => None
        | _ => Some (if neg then (- digits_val d)%Z else digits_val d, r2)
        end
      else Some (0%Z, s)
  | EmptyString => Some (0%Z, s)
  end.

(** A JSON number: an optional minus sign, an integer part without a
    leading zero (unless it is the single digit 0), an optional fraction of
    at least one digit, an optional exponent. *)
Definition parse_number (s : string) : option (Num * string) :=
  let '(neg, s1) :=
    match s with
    | String c r => if Ascii.eqb c "-"%char then (true, r) else (false, s)
    | EmptyString => (false, s)
    end in
  let '(ip, s2) := scan_digits s1 in
  match ip with
  | EmptyString => None
  | String c0 more =>
      if Ascii.eqb c0 "0"%char && nonempty more then None
      else
        let frac :=
          match s2 with
          | String c r =>
              if Ascii.eqb c "."%char then
                let '(fp, r') := scan_digits r in
                match fp with
                | EmptyString => None
                | _ => Some (fp, r')
                end
              else Some (EmptyString, s2)
          | EmptyString => Some (EmptyString, s2)
          end in
        match frac with
        | None => None
        | Some (fp, s3) =>
            match scan_exp s3 with
            | None => None
            | Some (e, s4) =>
                Some (mk_decimal neg (digits_val (ip ++ fp))
                                 (e - Z.of_nat (String.length fp)), s4)
            end
        end
  end.

(* ------------------------------------------------------------------ *)
(** *** String literals *)

(** UTF-8 encoding of a code point (a lone surrogate gets the generalised
    three-byte form). *)
Definition byte_of (z : Z) : ascii := ascii_of_nat (Z.to_nat z).

Definition utf8 (cp : Z) : string :=
  if (cp <? 128)%Z then String (byte_of cp) EmptyString
  else if (cp <? 2048)%Z then
    String (byte_of (192 + cp / 64))
      (String (byte_of (128 + cp mod 64)) EmptyString)
  else if (cp <? 65536)%Z then
    String (byte_of (224 + cp / 4096))
      (String (byte_of (128 + (cp / 64) mod 64))
         (String (byte_of (128 + cp mod 64)) EmptyString))
  else
    String (byte_of (240 + cp / 262144))
      (String (byte_of (128 + (cp / 4096) mod 64))
         (String (byte_of (128 + (cp / 64) mod 64))
            (String (byte_of (128 + cp mod 64)) EmptyString))).

(** Pieces of a string literal: bytes copied from the text, and UTF-16
    code units written as [\uXXXX]. *)
Inductive piece : Type :=
| Raw (c : ascii)
| Unit16 (u : Z).

Definition hex4 (a b c d : ascii) : option Z :=
  match hex_val a, hex_val b, hex_val c, hex_val d with
  | Some x, Some y, Some z, Some w => Some (((x * 16 + y) * 16 + z) * 16 + w)%Z
  | _, _, _, _ => None
  end.

Definition simple_escape (c : ascii) : option ascii :=
  if Ascii.eqb c DQUOTE then Some DQUOTE
  else if Ascii.eqb c BSLASH then Some BSLASH
  else if Ascii.eqb c "/"%char then Some "/"%char
  else if Ascii.eqb c "b"%char then Some "008"%char
  else if Ascii.eqb c "f"%char then Some "012"%char
  else if Ascii.eqb c "n"%char then Some "010"%char
  else if Ascii.eqb c "r"%char then Some "013"%char
  else if Ascii.eqb c "t"%char then Some "009"%char
  else None.

(** The characters after an opening quote, up to the closing one. *)
Fixpoint scan_string (s : string) : option (list piece * string) :=
  match s with
  | EmptyString => None
  | String c r =>
      if Ascii.eqb c DQUOTE then Some ([], r)
      else if Ascii.eqb c BSLASH then
        match r with
        | String e r1 =>
            if Ascii.eqb e "u"%char then
              match r1 with
              | String h1 (String h2 (String h3 (String h4 r2))) =>
                  match hex4 h1 h2 h3 h4, scan_string r2 with
                  | Some u, Some (ps, r3) => Some (Unit16 u :: ps, r3)
                  | _, _ => None
                  end
              | _ => None
              end
            else
              match simple_escape e, scan_string r1 with
              | Some x, Some (ps, r2) => Some (Raw x :: ps, r2)
              | _, _ => None
              end
        | EmptyString => None
        end
      else if (nat_of_ascii c <? 32)%nat then None
      else
        match scan_string r with
        | Some (ps, r1) => Some (Raw c :: ps, r1)
        | None => None
        end
  end.

Definition is_high (u : Z) : bool := ((55296 <=? u) && (u <=? 56319))%Z.
Definition is_low (u : Z) : bool := ((56320 <=? u) && (u <=? 57343))%Z.

Fixpoint encode_pieces (ps : list piece) : string :=
  match ps with
  | [] => EmptyString
  | Raw c :: ps' => String c (encode_pieces ps')
  | Unit16 u :: ps' =>
      match ps' with
      | Unit16 v :: ps'' =>
          if is_high u && is_low v then
            utf8 (65536 + (u - 55296) * 1024 + (v - 56320)) ++ encode_pieces ps''
          else utf8 u ++ encode_pieces ps'
      | _ => utf8 u ++ encode_pieces ps'
      end
  end.

Definition parse_string (s : string) : option (string * string) :=
  match scan_string s with
  | Some (ps, r) => Some (encode_pieces ps, r)
  | None => None
  end.

(* ------------------------------------------------------------------ *)
(** *** [JSON.parse] *)

Definition is_json_ws (c : ascii) : bool :=
  Ascii.eqb c " "%char || Ascii.eqb c "009"%char
  || Ascii.eqb c "010"%char || Ascii.eqb c "013"%char.

Fixpoint skip_ws (s : string) : string :=
  match s with
  | String c s' => if is_json_ws c then skip_ws s' else s
  | EmptyString => s
  end.

Definition starts_with (c : ascii) (s : string) : option string :=
  match s with
  | String c' r => if Ascii.eqb c c' then Some r else None
  | EmptyString => None
  end.

(** Recursive descent.  Every call of [parse_value] consumes at least one
    character and the helpers alternate with it, so [2 * length + 2] units
    of fuel are enough for any text that parses at all
    ([JSON_parse_fuel_enough] below). *)
Fixpoint parse_value (fuel : nat) (s : string) {struct fuel}
  : option (value * string) :=
  match fuel with
  | O => None
  | S f =>
      let s := skip_ws s in
      match s with
      | EmptyString => None
      | String c r =>
          if Ascii.eqb c "{"%char then
            match starts_with "}"%char (skip_ws r) with
            | Some r' => Some (VObj [], r')
            | None => parse_members f r []
            end
          else if Ascii.eqb c "["%char then
            match starts_with "]"%char (skip_ws r) with
            | Some r' => Some (VArr [], r')
            | None => parse_elements f r []
            end
          else if Ascii.eqb c DQUOTE then
            match parse_string r with
            | Some (str, r') => Some (VStr str, r')
            | None => None
            end
          else
            match strip_prefix "true" s, strip_prefix "false" s,
                  strip_prefix "null" s with
            | Some r', _, _ => Some (VBool true, r')
            | _, Some r', _ => Some (VBool false, r')
            | _, _, Some r' => Some (VNull, r')
            | None, None, None =>
                match parse_number s with
                | Some (n, r') => Some (VNum n, r')
                | None => None
                end
            end
      end
  end

with parse_elements (fuel : nat) (s : string) (acc : list value)
       {struct fuel} : option (value * string) :=
  match fuel with
  | O => None
  | S f =>
      match parse_value f s with
      | Some (v, r) =>
          match skip_ws r with
          | String c r' =>
              if Ascii.eqb c ","%char then parse_elements f r' (v :: acc)
              else if Ascii.eqb c "]"%char then Some (VArr (rev (v :: acc)), r')
              else None
          | EmptyString => None
          end
      | None => None
      end
  end

with parse_members (fuel : nat) (s : string) (acc : list (string * value))
       {struct fuel} : option (value * string) :=
  match fuel with
  | O => None
  | S f =>
      match starts_with DQUOTE (skip_ws s) with
      | None => None
      | Some r0 =>
          match parse_string r0 with
          | None => None
          | Some (k, r1) =>
              match starts_with ":"%char (skip_ws r1) with
              | None => None
              | Some r2 =>
                  match parse_value f r2 with
                  | None => None
                  | Some (v, r3) =>
                      match skip_ws r3 with
                      | String c r' =>
                          if Ascii.eqb c ","%char then
                            parse_members f r' ((k, v) :: acc)
                          else if Ascii.eqb c "}"%char then
                            Some (VObj (rev ((k, v) :: acc)), r')
                          else None
                      | EmptyString => None
                      end
                  end
              end
          end
      end
  end.

(** [JSON.parse(text)]; [None] stands for the [SyntaxError] it throws. *)
Definition JSON_parse (text : string) : option value :=
  match parse_value (2 * String.length text + 2) text with
  | Some (v, r) =>
      match skip_ws r with
      | EmptyString => Some v
      | String _ _ => None
      end
  | None => None
  end.

(* ------------------------------------------------------------------ *)
(** *** Property access and conversions *)

(** The last binding of [k] (a repeated member overrides the earlier one). *)
Fixpoint lookup_last (k : string) (m : list (string * value)) : option value :=
  match m with
  | [] => None
  | (k', v) :: m' =>
      match lookup_last k m' with
      | Some w => Some w
      | None => if String.eqb k k' then Some v else None
      end
  end.

(** [v.k] for the property names the console reads ([status], [error],
    [completed], [total]): arrays, strings, numbers and booleans have no
    such property; [null] and [undefined] make the access throw a
    [TypeError], rendered here as [None]. *)
Definition get (v : value) (k : string) : option value :=
  match v with
  | VUndefined | VNull => None
  | VObj m => Some match lookup_last k m with
                   | Some w => w
                   | None => VUndefined
                   end
  | _ => Some VUndefined
  end.

(** ToBoolean *)
Definition truthy (v : value) : bool :=
  match v with
  | VUndefined | VNull => false
  | VBool b => b
  | VNum n => Num_truthy n
  | VStr s => nonempty s
  | VArr _ | VObj _ => true
  end.

Fixpoint join (sep : string) (l : list string) : string :=
  match l with
  | [] => EmptyString
  | [x] => x
  | x :: l' => x ++ sep ++ join sep l'
  end.

(** ToString, for a value that [converts] (below): an array is joined with
    commas, [null] and [undefined] elements giving the empty string. *)
Fixpoint ToString (v : value) : string :=
  match v with
  | VUndefined => "undefined"
  | VNull => "null"
  | VBool true => "true"
  | VBool false => "false"
  | VNum n => Num_toString n
  | VStr s => s
  | VArr l =>
      join "," (map (fun x => match x with
                              | VUndefined | VNull => EmptyString
                              | _ => ToString x
                              end) l)
  | VObj _ => "[object Object]"
  end.

Fixpoint all_hex (s : string) : bool :=
  match s with
  | EmptyString => true
  | String c s' => match hex_val c with Some _ => all_hex s' | None => false end
  end.

Fixpoint radix_val (r : Z) (acc : Z) (s : string) : option Z :=
  match s with
  | EmptyString => Some acc
  | String c s' =>
      match hex_val c with
      | Some d => if (d <? r)%Z then radix_val r (acc * r + d)%Z s' else None
      | None => None
      end
  end.

(** An unsigned StrDecimalLiteral other than [Infinity]: digits with an
    optional fraction, or a fraction alone, then an optional exponent. *)
Definition str_decimal (neg : bool) (s : string) : Num :=
  let '(ip, s1) := scan_digits s in
  let '(fp, s2, dot) :=
    match s1 with
    | String c r =>
        if Ascii.eqb c "."%char then
          let '(fp, r') := scan_digits r in (fp, r', true)
        else (EmptyString, s1, false)
    | EmptyString => (EmptyString, s1, false)
    end in
  if negb (nonempty ip) && negb (nonempty fp) then NaN
  else
    match scan_exp s2 with
    | Some (e, EmptyString) =>
        mk_decimal neg (digits_val (ip ++ fp)) (e - Z.of_nat (String.length fp))
    | _ => NaN
    end.

(** StringToNumber *)
Definition StringToNumber (s : string) : Num :=
  let t := trim s in
  match t with
  | EmptyString => Zero false
  | String c0 (String c1 r) =>
      let radix :=
        if Ascii.eqb c0 "0"%char then
          if Ascii.eqb c1 "x"%char || Ascii.eqb c1 "X"%char then Some 16%Z
          else if Ascii.eqb c1 "o"%char || Ascii.eqb c1 "O"%char then Some 8%Z
          else if Ascii.eqb c1 "b"%char || Ascii.eqb c1 "B"%char then Some 2%Z
          else None
        else None in
      match radix with
      | Some rx =>
          match r with
          | EmptyString => NaN
          | _ => match radix_val rx 0 r with
                 | Some z => of_Z z
                 | None => NaN
                 end
          end
      | None =>
          let '(neg, u) :=
            if Ascii.eqb c0 "-"%char then (true, String c1 r)
            else if Ascii.eqb c0 "+"%char then (false, String c1 r)
            else (false, t) in
          if String.eqb u "Infinity" then Inf neg else str_decimal neg u
      end
  | String _ EmptyString => str_decimal false t
  end.

(** ToNumber, for a value that [converts] (below). *)
Definition ToNumber (v : value) : Num :=
  match v with
  | VUndefined => NaN
  | VNull => Zero false
  | VBool true => of_Z 1
  | VBool false => Zero false
  | VNum n => n
  | VStr s => StringToNumber s
  | VArr _ | VObj _ => StringToNumber (ToString v)
  end.

(** ToPrimitive succeeds on [v].  An object that [JSON.parse] made is
    converted by [Object.prototype.toString] unless it has a member named
    [toString] of its own: no JSON value is callable, so the conversion then
    throws a [TypeError].  An array is converted when its elements are.
    [ToString] and [ToNumber] above are the conversions of such values;
    the statements about a conversion assume it. *)
Fixpoint converts (v : value) : bool :=
  match v with
  | VObj m => negb (existsb (fun kv => String.eqb (fst kv) "toString") m)
  | VArr l => forallb converts l
  | _ => true
  end.

(** [a === b].  Two objects or arrays obtained from different [JSON.parse]
    calls are never the same object. *)
Definition strict_eq (a b : value) : bool :=
  match a, b with
  | VUndefined, VUndefined => true
  | VNull, VNull => true
  | VBool x, VBool y => Bool.eqb x y
  | VNum x, VNum y => Num_eqb x y
  | VStr x, VStr y => String.eqb x y
  | _, _ => false
  end.

(** [v === 'lit'] *)
Definition is_str (v : value) (lit : string) : bool := strict_eq v (VStr lit).

(* ------------------------------------------------------------------ *)
(** *** [JSON.stringify] *)

Definition hex_digit (z : Z) : ascii :=
  if (z <? 10)%Z then byte_of (48 + z) else byte_of (87 + z).

Fixpoint quote_body (s : string) : string :=
  match s with
  | EmptyString => EmptyString
  | String c s' =>
      let n := Z.of_nat (nat_of_ascii c) in
      (if Ascii.eqb c DQUOTE then String BSLASH (String DQUOTE EmptyString)
       else if Ascii.eqb c BSLASH then String BSLASH (String BSLASH EmptyString)
       else if (n =? 8)%Z then String BSLASH "b"
       else if (n =? 9)%Z then String BSLASH "t"
       else if (n =? 10)%Z then String BSLASH "n"
       else if (n =? 12)%Z then String BSLASH "f"
       else if (n =? 13)%Z then String BSLASH "r"
       else if (n <? 32)%Z then
         String BSLASH ("u00" ++ String (hex_digit (n / 16))
                                   (String (hex_digit (n mod 16)) EmptyString))
       else String c EmptyString) ++ quote_body s'
  end.

Definition quote (s : string) : string :=
  String DQUOTE (quote_body s ++ String DQUOTE EmptyString).

Definition is_undefined (v : value) : bool :=
  match v with VUndefined => true | _ => false end.

(** [JSON.stringify(v)] for a defined [v] whose objects have distinct keys:
    members whose value is [undefined] are left out, [undefined] in an array
    and non-finite numbers print as [null]. *)
Fixpoint JSON_stringify (v : value) : string :=
  match v with
  | VUndefined | VNull => "null"
  | VBool true => "true"
  | VBool false => "false"
  | VNum n => match n with
              | NaN | Inf _ => "null"
              | _ => Num_toString n
              end
  | VStr s => quote s
  | VArr l => "[" ++ join "," (map JSON_stringify l) ++ "]"
  | VObj m =>
      "{" ++ join ","
               ((fix members (m : list (string * value)) : list string :=
                   match m with
                   | [] => []
                   | (k, w) :: m' =>
                       if is_undefined w then members m'
                       else (quote k ++ ":" ++ JSON_stringify w) :: members m'
                   end) m)
          ++ "}"
  end.

End Json.

(* ================================================================== *)
(** ** The reader loop shared by the stream consumers *)
(* ================================================================== *)

Module Stream.
Import JS Json.

(** What a [try] block can catch.  [SyntaxError] is what [JSON.parse]
    throws and [TypeError] what the engine throws on a bad property access
    or call; their messages are engine text, never one of the program's
    own literals.  [Error m] is [new Error(m)]. *)
Inductive Exn : Type :=
| SyntaxError
| TypeError
| Error (message : string).

(** [e.message === lit] *)
Definition message_is (e : Exn) (lit : string) : bool :=
  match e with
  | Error m => String.eqb m lit
  | SyntaxError | TypeError => false
  end.

(** How a block of code ended. *)
Inductive result (A : Type) : Type :=
| Ok (a : A)
| Throw (e : Exn).
Arguments Ok {A} a.
Arguments Throw {A} e.

Section Loops.
Context {St Eff : Type}.
(** The body of [for (const line of lines)], from the loop variables
    before the line to those after it. *)
Variable body : St -> string -> list Eff * result St.

(** [for (const line of lines) { ... }]; an exception leaves the loop. *)
Fixpoint for_of (st : St) (lines : list string) : list Eff * result St :=
  match lines with
  | [] => ([], Ok st)
  | line :: rest =>
      match body st line with
      | (es, Ok st') =>
          let '(es', r) := for_of st' rest in ((es ++ es')%list, r)
      | (es, Throw e) => (es, Throw e)
      end
  end.

(** [while (true) { read(); if (done) break; for (line of lines(text)) ... }]
    over the texts the reader delivers, [lines] being how a text is cut. *)
Variable lines_of : string -> list string.

Fixpoint read_loop (st : St) (chunks : list string) : list Eff * result St :=
  match chunks with
  | [] => ([], Ok st)
  | text :: rest =>
      match for_of st (lines_of text) with
      | (es, Ok st') =>
          let '(es', r) := read_loop st' rest in ((es ++ es')%list, r)
      | (es, Throw e) => (es, Throw e)
      end
  end.
End Loops.

(** A response body as the reader delivers it: the texts of the reads
    that resolve with a value, then the last read, which resolves with
    [done] ([failure] is [None]) or rejects with an error.  [await
    reader.read()] stands outside the [try] around a line, so the error of
    a rejected read leaves the loop. *)
Record Reads : Type := {
  texts : list string;
  failure : option Exn
}.

(** The loop result of [read_loop] on the texts, then the last read. *)
Definition last_read {St Eff : Type} (r : Reads)
           (looped : list Eff * result St) : list Eff * result St :=
  match looped with
  | (es, Ok st) =>
      match failure r with
      | Some e => (es, Throw e)
      | None => (es, Ok st)
      end
  | (es, Throw e) => (es, Throw e)
  end.

(** [line.trim()] is truthy. *)
Definition nonblank (line : string) : bool := nonempty (trim line).

(** The lines a consumer acts on: every text is cut at the line feeds on
    its own, and blank pieces are passed over. *)
Definition lines (chunks : list string) : list string :=
  filter nonblank (flat_map split_nl chunks).

(** The records [JSON.parse] yields on those lines, in order. *)
Definition records (chunks : list string) : list value :=
  flat_map (fun line => match JSON_parse line with
                        | Some v => [v]
                        | None => []
                        end) (lines chunks).

(** The text a list of chunks adds up to. *)
Definition payload (chunks : list string) : string := String.concat "" chunks.

Definition nl : string := String LF EmptyString.

Definition starts_lf (s : string) : bool :=
  match s with String c _ => Ascii.eqb c LF | EmptyString => false end.

Fixpoint ends_lf (s : string) : bool :=
  match s with
  | EmptyString => false
  | String c EmptyString => Ascii.eqb c LF
  | String _ s' => ends_lf s'
  end.

Fixpoint has_lf (s : string) : bool :=
  match s with
  | EmptyString => false
  | String c s' => Ascii.eqb c LF || has_lf s'
  end.

(** A cut between the texts [a] and [b] that does not fall inside a line:
    one side is empty or a line feed is next to the cut. *)
Definition cut_ok (a b : string) : bool :=
  negb (nonempty a) || negb (nonempty b) || ends_lf a || starts_lf b.

(** Every cut of the partition [chunks] of a text that starts after [pre]
    is next to a line feed. *)
Fixpoint aligned (pre : string) (chunks : list string) : bool :=
  match chunks with
  | [] => true
  | c :: rest => cut_ok pre c && aligned (pre ++ c) rest
  end.

(** A text made of whole lines: empty or ending in a line feed. *)
Definition whole_lines (s : string) : bool := negb (nonempty s) || ends_lf s.

(** Well-formed newline-delimited JSON: every line is terminated by a line
    feed and parses. *)
Definition well_formed (text : string) : bool :=
  match rev (split_nl text) with
  | last :: others =>
      negb (nonempty last)
      && forallb (fun l => match JSON_parse l with
                           | Some _ => true
                           | None => false
                           end) others
  | [] => false
  end.

End Stream.

(* ================================================================== *)
(** ** The legacy console page (inline script) *)
(* ================================================================== *)

Module Page.
Import JS Json Stream.

(** What a timer callback does when it fires. *)
Inductive Task : Type :=
| ClearStatus                (* statusElement.textContent = '' *)
| ClearStatusAndRefresh      (* ... and refreshModels() *)
| ResetPullAndRefresh.       (* ... and the input is emptied as well *)

(** Observable actions on the page.  [statusElement] and [progressText]
    are the elements the caller looked up; they exist on the page. *)
Inductive Effect : Type :=
| StatusText (v : value)             (* statusElement.textContent = v *)
| StatusError (e : Exn)              (* ... = `Error: ${e.message}` *)
| StatusClass (c : string)           (* statusElement.className = c *)
| ProgressText (s : string)          (* progressText.textContent = s *)
| ProgressDisplay (d : string)       (* progressText.style.display = d *)
| ConsoleError (label : string) (e : Exn)
| SetTimeout (task : Task) (ms : Z).

Definition units : list string := ["B"; "KB"; "MB"; "GB"; "TB"].

(** The [while (size >= 1024 && unitIndex < units.length - 1)] loop;
    [left] counts the units still above [unitIndex]. *)
Fixpoint scale (left : nat) (size : Num) (unitIndex : nat) : Num * nat :=
  match left with
  | O => (size, unitIndex)
  | S k =>
      if geZ size 1024 then scale k (div size (of_Z 1024)) (S unitIndex)
      else (size, unitIndex)
  end.

(** [formatSize(bytes)].  A falsy argument gives ['']; otherwise [size]
    starts as [bytes] itself, becomes a Number at the first division, and
    [size.toFixed] is a [TypeError] when [size] is still a non-Number. *)
Definition formatSize (bytes : value) : result string :=
  if negb (truthy bytes) then Ok ""
  else
    let n := ToNumber bytes in
    if geZ n 1024 then
      let '(size, unitIndex) := scale 3 (div n (of_Z 1024)) 1 in
      Ok (toFixed 2 size ++ " " ++ nth unitIndex units "undefined")
    else
      match bytes with
      | VNum size => Ok (toFixed 2 size ++ " B")
      | _ => Throw TypeError
      end.

(** [updateStatusElement(statusElement, message)] with [isError] left at
    its default. *)
Definition updateStatusElement (message : value) : list Effect :=
  [StatusText message].

(** [x || lit] followed by [new Error(...)], which converts its argument
    to a string; when that conversion throws, its [TypeError] is what the
    [throw] statement ends with. *)
Definition error_or (x : value) (lit : string) : Exn :=
  if truthy x then
    if converts x then Error (ToString x) else TypeError
  else Error lit.

(** [handleUpdateStatus(update, statusElement)] *)
Definition handleUpdateStatus (update : value) : result value :=
  match get update "status", get update "error",
        get update "completed", get update "total" with
  | Some status, Some error, Some completed, Some total =>
      if is_str status "error" then Throw (error_or error "Update failed")
      else if is_str status "downloading" then
        if converts completed && converts total then
          let progress :=
            toFixed 1 (mul (div (ToNumber completed) (ToNumber total))
                           (of_Z 100)) in
          Ok (VStr ("Downloading: " ++ progress ++ "%"))
        else Throw TypeError
      else if is_str status "verifying digest" then
        Ok (VStr "Verifying download...")
      else if is_str status "writing manifest" then
        Ok (VStr "Finalizing update...")
      else Ok status
  | _, _, _, _ => Throw TypeError
  end.

(** The body of the [for] loop of [processUpdateStream]; the loop variable
    is [lastStatus]. *)
Definition update_line (lastStatus : value) (line : string)
  : list Effect * result value :=
  if negb (nonblank line) then ([], Ok lastStatus)
  else
    let attempt :=
      match JSON_parse line with
      | None => Throw SyntaxError
      | Some update => handleUpdateStatus update
      end in
    match attempt with
    | Ok newStatus =>
        if negb (strict_eq newStatus lastStatus)
        then (updateStatusElement newStatus, Ok newStatus)
        else ([], Ok lastStatus)
    | Throw e =>
        if message_is e "Update failed" then ([], Throw e)
        else ([ConsoleError "Error parsing update:" e], Ok lastStatus)
    end.

(** [processUpdateStream(reader, statusElement)] *)
Definition processUpdateStream (chunks : list string)
  : list Effect * result value :=
  read_loop update_line split_nl (VStr "") chunks.

(** [updateModel(modelName)] from the point where the response is known to
    be [ok], on a body whose reads all resolve ([updateModel_reads] below
    takes any body). *)
Definition updateModel (chunks : list string) : list Effect :=
  (updateStatusElement (VStr "Starting update...")
   ++ match processUpdateStream chunks with
      | (es, Ok _) =>
          es ++ updateStatusElement (VStr "Update complete")
             ++ [SetTimeout ClearStatusAndRefresh 2000]
      | (es, Throw error) =>
          es ++ [ConsoleError "Update error:" error; StatusError error;
                 SetTimeout ClearStatus 5000]
      end)%list.

(** The [try] block inside the [for] loop of [pullModel], before its
    [catch]. *)
Definition pull_try (lastStatus : value) (line : string)
  : list Effect * result value :=
  match JSON_parse line with
  | None => ([], Throw SyntaxError)
  | Some update =>
      match get update "status", get update "error",
            get update "completed", get update "total" with
      | Some status, Some error, Some completed, Some total =>
          if is_str status "error" then ([], Throw (error_or error "Pull failed"))
          else if is_str status "downloading" then
            match formatSize completed, formatSize total with
            | Ok c, Ok t =>
                ([ProgressDisplay "block";
                  ProgressText ("Downloading: " ++ c ++ " / " ++ t);
                  StatusText status; StatusClass "success"], Ok lastStatus)
            | Throw e, _ => ([ProgressDisplay "block"], Throw e)
            | Ok _, Throw e => ([ProgressDisplay "block"], Throw e)
            end
          else if negb (strict_eq status lastStatus) then
            ([StatusText status; StatusClass "success"], Ok status)
          else ([], Ok lastStatus)
      | _, _, _, _ => ([], Throw TypeError)
      end
  end.

(** The body of the [for] loop of [pullModel]. *)
Definition pull_line (lastStatus : value) (line : string)
  : list Effect * result value :=
  if nonblank line then
    match pull_try lastStatus line with
    | (es, Ok st) => (es, Ok st)
    | (es, Throw e) =>
        if message_is e "Pull failed" then (es, Throw e)
        else ((es ++ [ConsoleError "Error parsing update:" e])%list, Ok lastStatus)
    end
  else ([], Ok lastStatus).

(** The [while (true)] loop of [pullModel]. *)
Definition pull_loop (chunks : list string) : list Effect * result value :=
  read_loop pull_line split_nl (VStr "") chunks.

(** [pullModel()] for a non-empty model name and a response that is [ok],
    on a body whose reads all resolve ([pullModel_reads] below takes any
    body): the preparation, the reader loop, then the completion or the
    [catch] block. *)
Definition pullModel (chunks : list string) : list Effect :=
  ([StatusClass ""; StatusText (VStr "Starting pull..."); ProgressDisplay "none"]
   ++ match pull_loop chunks with
      | (es, Ok _) =>
          es ++ [ProgressDisplay "none"; StatusText (VStr "Pull complete");
                 StatusClass "success"; SetTimeout ResetPullAndRefresh 2000]
      | (es, Throw error) =>
          es ++ [ConsoleError "Pull error:" error; ProgressDisplay "none";
                 StatusError error; StatusClass "error";
                 SetTimeout ClearStatus 5000]
      end)%list.

(** The same functions on a body whose last read may reject. *)
Definition processUpdateStream_reads (r : Reads) : list Effect * result value :=
  last_read r (processUpdateStream (texts r)).

Definition updateModel_reads (r : Reads) : list Effect :=
  (updateStatusElement (VStr "Starting update...")
   ++ match processUpdateStream_reads r with
      | (es, Ok _) =>
          es ++ updateStatusElement (VStr "Update complete")
             ++ [SetTimeout ClearStatusAndRefresh 2000]
      | (es, Throw error) =>
          es ++ [ConsoleError "Update error:" error; StatusError error;
                 SetTimeout ClearStatus 5000]
      end)%list.

Definition pull_loop_reads (r : Reads) : list Effect * result value :=
  last_read r (pull_loop (texts r)).

Definition pullModel_reads (r : Reads) : list Effect :=
  ([StatusClass ""; StatusText (VStr "Starting pull..."); ProgressDisplay "none"]
   ++ match pull_loop_reads r with
      | (es, Ok _) =>
          es ++ [ProgressDisplay "none"; StatusText (VStr "Pull complete");
                 StatusClass "success"; SetTimeout ResetPullAndRefresh 2000]
      | (es, Throw error) =>
          es ++ [ConsoleError "Pull error:" error; ProgressDisplay "none";
                 StatusError error; StatusClass "error";
                 SetTimeout ClearStatus 5000]
      end)%list.

(** The values written to [statusElement.textContent], in order: the
    repaints of the status label. *)
Fixpoint renders (es : list Effect) : list value :=
  match es with
  | [] => []
  | StatusText v :: es' => v :: renders es'
  | _ :: es' => renders es'
  end.

(** Everything but the console output. *)
Definition is_log (e : Effect) : bool :=
  match e with ConsoleError _ _ => true | _ => false end.

Definition display (es : list Effect) : list Effect :=
  filter (fun e => negb (is_log e)) es.

(** No label equals the one painted just before it, [previous] being what
    the element showed first. *)
Fixpoint adjacent_distinct (previous : value) (labels : list value) : bool :=
  match labels with
  | [] => true
  | v :: rest => negb (strict_eq v previous) && adjacent_distinct v rest
  end.

(** A write of [`Error: ${error.message}`] to the status element. *)
Definition is_status_error (e : Effect) : bool :=
  match e with StatusError _ => true | _ => false end.

End Page.

(* ================================================================== *)
(** ** The application script, [public/app.js] *)
(* ================================================================== *)

Module App.
Import JS Json Stream.

(** Which of the three elements [pullModel] looks up exist. *)
Record Dom : Type := {
  statusElement : bool;      (* #pullStatus *)
  progressElement : bool;    (* #pullProgressText *)
  progressBar : bool         (* #pullProgressBar *)
}.

(** A text shown in [progressElement].  [Downloading percent completed
    total] is the template
    [`Downloading: ${percent}% (${formatSize(completed)} / ${formatSize(total)})`];
    [formatSize] (logarithms, [parseFloat]) is not interpreted; it throws
    when its argument does not convert to a number, and only then. *)
Inductive Text : Type :=
| Lit (s : string)
| Downloading (percent : Num) (completed total : value)
| WithMessage (prefix : string) (e : Exn).   (* `${prefix}${e.message}` *)

Inductive Effect : Type :=
| StatusDisplay (d : string)        (* statusElement.style.display = d *)
| ProgressText (t : Text)           (* progressElement.textContent = t *)
| ProgressClass (c : string)        (* progressElement.className = c *)
| BarWidth (percent : Num)          (* progressBar.style.width = `${percent}%` *)
| ConsoleError (label : string) (e : Exn)
| ShowToast (message : Text) (kind : string)
| RefreshModels
| HideStatusAfter (ms : Z).

Definition when (c : bool) (es : list Effect) : list Effect :=
  if c then es else [].

(** [data.total > 0 ? Math.round((data.completed / data.total) * 100) : 0] *)
Definition percent_of (completed total : value) : Num :=
  if gt0 (ToNumber total)
  then Math_round (mul (div (ToNumber completed) (ToNumber total)) (of_Z 100))
  else Zero false.

(** The body of the [for] loop of [pullModel], with its [try]/[catch]; the
    loop variable is the inner [pullStatus]. *)
Definition pull_line (dom : Dom) (pullStatus : string) (line : string)
  : list Effect * result string :=
  match JSON_parse line with
  | None => ([ConsoleError "Error processing stream data:" SyntaxError],
             Ok pullStatus)
  | Some data =>
      match get data "status", get data "completed", get data "total" with
      | Some status, Some completed, Some total =>
          if is_str status "downloading" then
            (* [data.total > 0], then [data.completed / data.total] *)
            if negb (converts total)
               || (gt0 (ToNumber total) && negb (converts completed))
            then ([ConsoleError "Error processing stream data:" TypeError],
                  Ok pullStatus)
            else
              let percent := percent_of completed total in
              ((when (progressBar dom) [BarWidth percent]
                ++ when (progressElement dom)
                     (* [this.formatSize(data.completed)] comes first *)
                     (if converts completed
                      then [ProgressText (Downloading percent completed total)]
                      else [ConsoleError "Error processing stream data:"
                                         TypeError]))%list,
               Ok pullStatus)
          else if is_str status "verifying" then
            (when (progressElement dom) [ProgressText (Lit "Verifying checksum...")],
             Ok "verifying")
          else if is_str status "success" then
            (when (progressElement dom)
               [ProgressText (Lit "Pull completed successfully")],
             Ok "success")
          else ([], Ok pullStatus)
      | _, _, _ =>
          ([ConsoleError "Error processing stream data:" TypeError],
           Ok pullStatus)
      end
  end.

(** [text.split('\n').filter((line) => line.trim())] *)
Definition lines_of (text : string) : list string :=
  filter nonblank (split_nl text).

(** The [while (!pullComplete)] loop up to the read that reports [done]. *)
Definition pull_loop (dom : Dom) (chunks : list string)
  : list Effect * result string :=
  read_loop (pull_line dom) lines_of "downloading" chunks.

(** [pullModel(modelName)] for a non-empty [modelName] and a response that
    is [ok], when every read resolves and [refreshModels()] returns
    ([pullModel_run] below takes any body and any end of the refresh).  The
    [finally] block tests the outer [pullStatus], which the [let] inside
    the [try] block shadows and which therefore still holds
    ['downloading']. *)
Definition pullModel (dom : Dom) (modelName : string) (chunks : list string)
  : list Effect :=
  let outer_pullStatus := "downloading" in
  (when (statusElement dom) [StatusDisplay "block"]
   ++ when (progressElement dom) [ProgressText (Lit "Initializing...")]
   ++ when (progressBar dom) [BarWidth (Zero false)]
   ++ match pull_loop dom chunks with
      | (es, Ok _) =>
          es ++ [ShowToast (Lit ("Successfully pulled " ++ modelName)) "success";
                 RefreshModels]
      | (es, Throw error) =>
          es ++ [ConsoleError "Pull failed:" error;
                 ShowToast (WithMessage "Pull failed: " error) "error"]
             ++ when (progressElement dom)
                  [ProgressText (WithMessage "Error: " error);
                   ProgressClass "text-danger"]
      end
   ++ when (String.eqb outer_pullStatus "success") [HideStatusAfter 2000])%list.

(** The [catch] block of [pullModel]. *)
Definition caught (dom : Dom) (error : Exn) : list Effect :=
  ([ConsoleError "Pull failed:" error;
    ShowToast (WithMessage "Pull failed: " error) "error"]
   ++ when (progressElement dom)
        [ProgressText (WithMessage "Error: " error);
         ProgressClass "text-danger"])%list.

(** [pullModel(modelName)] for a non-empty [modelName] and a response that
    is [ok].  [r] is what the reader delivers; [refresh] is how
    [await this.refreshModels()] ends, [None] when it returns and the error
    it rethrows otherwise.  The read that reports [done] is followed, inside
    the [try] block, by the success toast and the refresh, so an error of
    the refresh reaches the [catch] block as an error of a read does. *)
Definition pullModel_run (dom : Dom) (modelName : string) (r : Reads)
           (refresh : option Exn) : list Effect :=
  let outer_pullStatus := "downloading" in
  (when (statusElement dom) [StatusDisplay "block"]
   ++ when (progressElement dom) [ProgressText (Lit "Initializing...")]
   ++ when (progressBar dom) [BarWidth (Zero false)]
   ++ match last_read r (pull_loop dom (texts r)) with
      | (es, Ok _) =>
          es ++ [ShowToast (Lit ("Successfully pulled " ++ modelName)) "success";
                 RefreshModels]
             ++ match refresh with
                | Some error => caught dom error
                | None => []
                end
      | (es, Throw error) => es ++ caught dom error
      end
   ++ when (String.eqb outer_pullStatus "success") [HideStatusAfter 2000])%list.

(** The texts written to [progressElement.textContent], in order. *)
Fixpoint labels (es : list Effect) : list Text :=
  match es with
  | [] => []
  | ProgressText t :: es' => t :: labels es'
  | _ :: es' => labels es'
  end.

Definition is_log (e : Effect) : bool :=
  match e with ConsoleError _ _ => true | _ => false end.

Definition display (es : list Effect) : list Effect :=
  filter (fun e => negb (is_log e)) es.

(** The page as served: all three elements are there. *)
Definition full_dom : Dom :=
  {| statusElement := true; progressElement := true; progressBar := true |}.

End App.

(* ================================================================== *)
(** ** The Express application, [server.js] *)
(* ================================================================== *)

Module Server.
Import JS Json.

Inductive Method : Type := GET | POST | DELETE | OPTIONS | HEAD | PUT | PATCH.

Definition Method_eqb (a b : Method) : bool :=
  match a, b with
  | GET, GET | POST, POST | DELETE, DELETE | OPTIONS, OPTIONS
  | HEAD, HEAD | PUT, PUT | PATCH, PATCH => true
  | _, _ => false
  end.

(** What the handlers read of a request.  [path] is [req.path] in the
    spelling the routes are registered with; [body] is [req.body] as the
    body parsers left it. *)
Record Request : Type := {
  method : Method;
  path : string;
  originalUrl : string;
  url : string;
  host : option string;                 (* req.headers.host *)
  x_api_key : option string;            (* req.headers['x-api-key'] *)
  x_forwarded_proto : option string;    (* req.headers['x-forwarded-proto'] *)
  body : value
}.

(** [process.env] *)
Record Env : Type := {
  API_KEY : option string;
  NODE_ENV : option string;
  FORCE_HTTPS : option string;
  ENABLE_SWAGGER : option string;
  OLLAMA_ENDPOINTS : option string
}.

Definition env_is (v : option string) (lit : string) : bool :=
  match v with Some s => String.eqb s lit | None => false end.

(** [process.env.X] is truthy. *)
Definition env_set (v : option string) : bool :=
  match v with Some s => nonempty s | None => false end.

(** An error travelling through [next(err)].  [status] is [None] for an
    error that is not an HTTP error; [fields] are the extra properties
    [createError] copies onto it. *)
Record HttpError : Type := {
  status : option Z;
  message : string;
  fields : list (string * value)
}.

(** [statuses.message[code]] for the codes the program uses. *)
Definition status_message (code : Z) : string :=
  if (code =? 207)%Z then "Multi-Status"
  else if (code =? 400)%Z then "Bad Request"
  else if (code =? 401)%Z then "Unauthorized"
  else if (code =? 404)%Z then "Not Found"
  else "Internal Server Error".

(** [createError(code, msg)] and [createError(code, props)] of http-errors:
    the message is [msg] or the status text, and every property of [props]
    other than [status] and [statusCode] is copied, [message] included. *)
Fixpoint copy_props (props : list (string * value)) (e : HttpError) : HttpError :=
  match props with
  | [] => e
  | (k, v) :: rest =>
      copy_props rest
        (if String.eqb k "status" || String.eqb k "statusCode" then e
         else if String.eqb k "message" then
           {| status := status e; message := ToString v; fields := fields e |}
         else
           {| status := status e; message := message e;
              fields := (fields e ++ [(k, v)])%list |})
  end.

Definition createError (code : Z) (msg : option string)
           (props : list (string * value)) : HttpError :=
  copy_props props
    {| status := Some code;
       message := match msg with Some m => m | None => status_message code end;
       fields := [] |}.

(** An engine [TypeError] caught by [asyncHandler]: it has no status, and
    its message is engine text. *)
Definition engine_error : HttpError :=
  {| status := None; message := "TypeError"; fields := [] |}.

(** A complete response. *)
Inductive Body : Type :=
| Json (v : value)               (* res.json(v) *)
| Redirect (location : string)   (* res.redirect(code, location) *)
| Content (what : string).       (* anything a library middleware sends *)

Record Response : Type := {
  statusCode : Z;
  content : Body
}.

(** The response object of a streamed operation.  Writing a first chunk or
    ending the response sends the headers; nothing is written after the
    end. *)
Inductive Phase : Type :=
| Fresh            (* nothing sent *)
| HeadersSent      (* headers, maybe chunks, sent; still open *)
| Finished.        (* ended *)

Record Res : Type := {
  res_status : Z;
  res_headers : list (string * string);
  phase : Phase;
  written : list string
}.

(** [res.headersSent] *)
Definition headersSent (r : Res) : bool :=
  match phase r with Fresh => false | _ => true end.

Definition finished (r : Res) : bool :=
  match phase r with Finished => true | _ => false end.

Definition fresh_res : Res :=
  {| res_status := 200; res_headers := []; phase := Fresh; written := [] |}.

(** [res.setHeader(name, v)] *)
Definition setHeader (name v : string) (r : Res) : Res :=
  {| res_status := res_status r;
     res_headers := (res_headers r ++ [(name, v)])%list;
     phase := phase r; written := written r |}.

(** [res.write(chunk)], what [pipe] does with every upstream chunk. *)
Definition res_write (chunk : string) (r : Res) : Res :=
  if finished r then r
  else {| res_status := res_status r; res_headers := res_headers r;
          phase := HeadersSent; written := (written r ++ [chunk])%list |}.

(** [res.end(data)] *)
Definition res_end (data : string) (r : Res) : Res :=
  if finished r then r
  else {| res_status := res_status r; res_headers := res_headers r;
          phase := Finished; written := (written r ++ [data])%list |}.

(** [res.end()] *)
Definition res_close (r : Res) : Res :=
  if finished r then r
  else {| res_status := res_status r; res_headers := res_headers r;
          phase := Finished; written := written r |}.

(** [res.status(code).json(v)] on a response whose headers are not sent.
    [res_headers] lists what the file sets with [setHeader]; what
    [res.json] does to the content type is left out. *)
Definition res_status_json (code : Z) (v : value) (r : Res) : Res :=
  res_end (JSON_stringify v)
    {| res_status := code; res_headers := res_headers r;
       phase := phase r; written := written r |}.

(** The relayed operation: [{ model, type }]. *)
Record Operation : Type := {
  op_model : value;
  op_type : value
}.

(** [operation.type || lit] *)
Definition type_or (operation : Operation) (lit : string) : value :=
  if truthy (op_type operation) then op_type operation else VStr lit.

(** The ['end'] and ['error'] listeners of the first [POST /api/pull]
    route. *)
Definition pull_on_end (model : value) (res : Res) : Res :=
  if negb (headersSent res) then
    res_end (JSON_stringify (VObj [("status", VStr "success"); ("model", model)])) res
  else res.

Definition pull_on_error (error_message : string) (res : Res) : Res :=
  if negb (headersSent res) then
    res_status_json 500
      (VObj [("success", VBool false); ("error", VStr "Error during model pull");
             ("details", VStr error_message)]) res
  else res.

(** The ['end'] and ['error'] listeners of [handleModelOperation]. *)
Definition operation_on_end (operation : Operation) (res : Res) : Res :=
  if negb (headersSent res) then
    res_end (JSON_stringify
               (VObj [("status", VStr "success"); ("model", op_model operation);
                      ("operation", type_or operation "pull")])) res
  else res.

Definition operation_on_error (operation : Operation) (error_message : string)
           (res : Res) : Res :=
  if negb (headersSent res) then
    res_status_json 500
      (VObj [("success", VBool false);
             ("error", VStr ("Error during " ++ ToString (type_or operation "operation")));
             ("details", VStr error_message)]) res
  else res.

(** Which pair of listeners a relay carries. *)
Inductive Relay : Type :=
| PullRelay (model : value)
| OperationRelay (operation : Operation).

Definition on_end (k : Relay) : Res -> Res :=
  match k with
  | PullRelay model => pull_on_end model
  | OperationRelay operation => operation_on_end operation
  end.

Definition on_error (k : Relay) : string -> Res -> Res :=
  match k with
  | PullRelay _ => pull_on_error
  | OperationRelay operation => operation_on_error operation
  end.

(** What the upstream stream does once the handler has returned. *)
Inductive Event : Type :=
| Data (chunk : string)
| End
| Failed (error_message : string).

(** [response.data.pipe(res)] is called before the file adds its two
    listeners, and listeners run in the order they were added.  [pipe]
    writes every chunk to [res], and its own ['end'] listener ends [res];
    it adds no listener for ['error'].  So at ['end'] the file's listener
    runs on the response [pipe] has just ended. *)
Definition upstream_event (k : Relay) (ev : Event) (res : Res) : Res :=
  match ev with
  | Data chunk => res_write chunk res
  | End => on_end k (res_close res)
  | Failed error_message => on_error k error_message res
  end.

(** The response after a run of upstream events. *)
Definition relay (k : Relay) (res : Res) (events : list Event) : Res :=
  fold_left (fun r ev => upstream_event k ev r) events res.

(* ------------------------------------------------------------------ *)
(** *** Layers of the application *)

(** Every [app.use], [app.get], [app.post], [app.delete] and [app.options]
    call of the file, in the order of registration. *)
Inductive LayerId : Type :=
| PinoHttp | Helmet | Cors | CorsPreflight | RateLimit | JsonBody
| UrlencodedBody | Compression | HttpsRedirect | ApiKeyAuth | SwaggerUi
| Static | Health | Endpoints | SetEndpoint | ErrorHandler | NotFound
| Models | DeleteModels | Pull | Ps | NotFoundLate | GlobalErrorHandler
| UpdateModel | HealthLate | DeleteModelsLate | PullLate.

Definition LayerId_eq_dec (a b : LayerId) : {a = b} + {a <> b}.
Proof. decide equality. Defined.

(** Process-wide state: [let ollamaEndpoint]. *)
Record State : Type := {
  ollamaEndpoint : value
}.

Definition initial_state : State :=
  {| ollamaEndpoint := VStr "http://localhost:11434" |}.

(** How a handler hands over. *)
Inductive Outcome : Type :=
| Next                                  (* next() *)
| NextErr (e : HttpError)               (* next(err), or a throw under asyncHandler *)
| Send (r : Response)                   (* a complete response was sent *)
| Piped (res : Res) (k : Relay).        (* upstream stream piped into res:
                                           [relay k res] is what follows *)

(** Everything the file takes from outside: the environment, the library
    middleware, express-validator, the upstream daemon as seen through
    axios, and the two proxy handlers whose result no property here depends
    on. *)
Record Platform : Type := {
  env : Env;
  (** a library middleware: passes on, fails or answers *)
  library : LayerId -> Request -> Outcome;
  (** [validationResult(req).array()] for the chain of a route *)
  validation : LayerId -> Request -> list value;
  (** [axios.get(url)]: [None] when it resolves, else the error message *)
  probe : string -> option string;
  (** [axios({method:'POST', url, data:{name}, responseType:'stream'})] *)
  connect : string -> value -> option string;
  (** [axios.delete(url, {data:{name}})] for the model at an index of the
      [models] array: [None] when it resolves, else the error message *)
  upstream_delete : string -> nat -> value -> option string;
  (** the handlers of [GET /api/models] and [GET /api/ps] *)
  proxy : LayerId -> Request -> State -> Outcome;
  (** [err.stack] *)
  stack_of : HttpError -> string
}.

(** [`${ollamaEndpoint}${suffix}`] *)
Definition upstream_url (st : State) (suffix : string) : string :=
  ToString (ollamaEndpoint st) ++ suffix.

(* ------------------------------------------------------------------ *)
(** *** Handlers written in the file *)

(** [apiKeyAuth] *)
Definition apiKeyAuth (e : Env) (req : Request) : Outcome :=
  match API_KEY e with
  | Some key =>
      if nonempty key then
        match x_api_key req with
        | Some apiKey =>
            if nonempty apiKey && String.eqb apiKey key then Next
            else NextErr (createError 401 (Some "Invalid API key") [])
        | None => NextErr (createError 401 (Some "Invalid API key") [])
        end
      else Next
  | None => Next
  end.

(** The redirect installed when [NODE_ENV === 'production'] and
    [FORCE_HTTPS === 'true']. *)
Definition httpsRedirect (req : Request) : Outcome :=
  if env_is (x_forwarded_proto req) "https" then Next
  else Send {| statusCode := 301;
               content := Redirect ("https://"
                                    ++ match host req with
                                       | Some h => h
                                       | None => "undefined"
                                       end ++ url req) |}.

(** [getEndpoints()] *)
Definition getEndpoints (e : Env) (st : State) : value :=
  let endpoints :=
    match OLLAMA_ENDPOINTS e with
    | Some s => if nonempty s then s else "http://localhost:11434"
    | None => "http://localhost:11434"
    end in
  VArr (map (fun endpoint =>
               VObj [("url", VStr (trim endpoint));
                     ("active", VBool (strict_eq (VStr (trim endpoint))
                                                 (ollamaEndpoint st)))])
            (split_on ","%char endpoints)).

(** The handler of [POST /api/set-endpoint]. *)
Definition setEndpoint (P : Platform) (req : Request) (st : State)
  : Outcome * State :=
  match validation P SetEndpoint req with
  | (_ :: _) as errors =>
      (NextErr (createError 400 None [("errors", VArr errors)]), st)
  | [] =>
      match get (body req) "endpoint" with
      | None => (NextErr engine_error, st)
      | Some endpoint =>
          match probe P (ToString endpoint ++ "/api/tags") with
          | None =>
              let st' := {| ollamaEndpoint := endpoint |} in
              (Send {| statusCode := 200;
                       content := Json (VObj [("success", VBool true);
                                              ("message", VStr "Endpoint set successfully");
                                              ("endpoint", ollamaEndpoint st')]) |},
               st')
          | Some error_message =>
              (NextErr (createError 400
                          (Some ("Failed to connect to endpoint: " ++ error_message))
                          []), st)
          end
      end
  end.

(** How the deletes of [Promise.allSettled(models.map(...))] settled, in
    the order of [models], the first being the one at index [i]: [None]
    for a fulfilled one, the message of its reason for a rejected one. *)
Fixpoint delete_results (P : Platform) (st : State) (i : nat)
         (models : list value) : list (option string) :=
  match models with
  | [] => []
  | model :: rest =>
      upstream_delete P (upstream_url st "/api/delete") i model
      :: delete_results P st (S i) rest
  end.

(** [item.error] is truthy: the delete was rejected, with a message that
    is not empty. *)
Definition reported (result : option string) : bool :=
  match result with
  | Some reason => nonempty reason
  | None => false
  end.

(** [results.map((result, index) => ({ model: models[index], error }))
    .filter((item) => item.error)] *)
Fixpoint failed_items (models : list value) (results : list (option string))
  : list value :=
  match models, results with
  | model :: models', result :: results' =>
      match result with
      | Some reason =>
          if nonempty reason
          then VObj [("model", model); ("error", VStr reason)]
               :: failed_items models' results'
          else failed_items models' results'
      | None => failed_items models' results'
      end
  | _, _ => []
  end.

Definition failed_of (P : Platform) (st : State) (models : list value)
  : list value :=
  failed_items models (delete_results P st 0 models).

Definition count (l : list value) : value := VNum (of_Z (Z.of_nat (List.length l))).

Definition deleted_count (models failed : list value) : value :=
  VNum (of_Z (Z.of_nat (List.length models) - Z.of_nat (List.length failed))).

(** What both [DELETE /api/models] handlers do before they look at the
    upstream results: the validation result, then the [models] array. *)
Definition delete_targets (P : Platform) (id : LayerId) (req : Request)
  : HttpError + list value :=
  match validation P id req with
  | (_ :: _) as errors => inl (createError 400 None [("errors", VArr errors)])
  | [] =>
      match get (body req) "models" with
      | None => inl engine_error
      | Some (VArr (m :: ms)) => inr (m :: ms)
      | Some _ => inl (createError 400 (Some "No models specified for deletion") [])
      end
  end.

(** The first [DELETE /api/models] handler. *)
Definition deleteModels (P : Platform) (req : Request) (st : State) : Outcome :=
  match delete_targets P DeleteModels req with
  | inl e => NextErr e
  | inr models =>
      match failed_of P st models with
      | (_ :: _) as failed =>
          NextErr (createError 207 None
                     [("success", VBool true);
                      ("message", VStr "Some models could not be deleted");
                      ("failed", VArr failed);
                      ("deleted", deleted_count models failed)])
      | [] =>
          Send {| statusCode := 200;
                  content := Json (VObj [("success", VBool true);
                                         ("message", VStr "Models deleted successfully");
                                         ("count", count models)]) |}
      end
  end.

(** The second [DELETE /api/models] handler. *)
Definition deleteModelsLate (P : Platform) (req : Request) (st : State) : Outcome :=
  match delete_targets P DeleteModelsLate req with
  | inl e => NextErr e
  | inr models =>
      match failed_of P st models with
      | (_ :: _) as failed =>
          if (List.length failed =? List.length models)%nat then
            NextErr (createError 500 None
                       [("success", VBool false);
                        ("message", VStr "Failed to delete all models");
                        ("failed", VArr failed)])
          else
            Send {| statusCode := 207;
                    content := Json (VObj [("success", VBool true);
                                           ("message", VStr "Some models could not be deleted");
                                           ("failed", VArr failed);
                                           ("deleted", deleted_count models failed)]) |}
      | [] =>
          Send {| statusCode := 200;
                  content := Json (VObj [("success", VBool true);
                                         ("message", VStr "Models deleted successfully");
                                         ("count", count models)]) |}
      end
  end.

(** What the chain [body(name).isString().trim().notEmpty()] leaves in
    [req.body] for a value it accepts: the string, trimmed. *)
Definition sanitized (v : value) : value :=
  match v with
  | VStr s => VStr (trim s)
  | _ => v
  end.

(** The handler of the first [POST /api/pull] route. *)
Definition pull (P : Platform) (req : Request) (st : State) : Outcome :=
  match validation P Pull req with
  | (_ :: _) as errors => NextErr (createError 400 None [("errors", VArr errors)])
  | [] =>
      match option_map sanitized (get (body req) "model") with
      | None => NextErr engine_error
      | Some model =>
          let res :=
            setHeader "Connection" "keep-alive"
              (setHeader "Cache-Control" "no-cache"
                 (setHeader "Transfer-Encoding" "chunked"
                    (setHeader "Content-Type" "application/octet-stream"
                       fresh_res))) in
          match connect P (upstream_url st "/api/pull") model with
          | None => Piped res (PullRelay model)
          | Some error_message =>
              NextErr (createError 500
                         (Some ("Failed to pull model: " ++ error_message)) [])
          end
      end
  end.

(** [handleModelOperation(req, res, operation)] *)
Definition handleModelOperation (P : Platform) (st : State)
           (operation : Operation) : Outcome :=
  match connect P (upstream_url st ("/api/" ++ ToString (type_or operation "pull")))
                (op_model operation) with
  | None => Piped fresh_res (OperationRelay operation)
  | Some error_message =>
      NextErr (createError 500
                 (Some ("Failed to "
                        ++ ToString (type_or operation "process operation")
                        ++ ": " ++ error_message)) [])
  end.

(** The handlers of [POST /api/update-model] and of the second
    [POST /api/pull] route. *)
Definition updateModel (P : Platform) (req : Request) (st : State) : Outcome :=
  match validation P UpdateModel req with
  | (_ :: _) as errors => NextErr (createError 400 None [("errors", VArr errors)])
  | [] =>
      match option_map sanitized (get (body req) "modelName") with
      | None => NextErr engine_error
      | Some modelName =>
          handleModelOperation P st
            {| op_model := modelName; op_type := VStr "update" |}
      end
  end.

Definition pullLate (P : Platform) (req : Request) (st : State) : Outcome :=
  match validation P PullLate req with
  | (_ :: _) as errors => NextErr (createError 400 None [("errors", VArr errors)])
  | [] =>
      match option_map sanitized (get (body req) "model") with
      | None => NextErr engine_error
      | Some model =>
          handleModelOperation P st {| op_model := model; op_type := VStr "pull" |}
      end
  end.

(** [err.status || 500] and [err.message || 'Internal Server Error'] *)
Definition status_or_500 (e : HttpError) : Z :=
  match status e with
  | Some c => if (c =? 0)%Z then 500%Z else c
  | None => 500%Z
  end.

Definition message_or_default (e : HttpError) : string :=
  if nonempty (message e) then message e else "Internal Server Error".

(** The centralized error handler, registered after the endpoint routes. *)
Definition errorHandler (P : Platform) (err : HttpError) (req : Request)
  : Response :=
  {| statusCode := status_or_500 err;
     content :=
       Json (VObj ([("success", VBool false);
                    ("error", VStr (message_or_default err))]
                   ++ (if env_is (NODE_ENV (env P)) "development"
                       then [("stack", VStr (stack_of P err))] else []))%list) |}.

(** The global error handler, registered after the second not-found
    middleware. *)
Definition globalErrorHandler (P : Platform) (err : HttpError) (req : Request)
  : Response :=
  {| statusCode := status_or_500 err;
     content :=
       Json (VObj ([("success", VBool false);
                    ("message", VStr (message_or_default err))]
                   ++ (if negb (env_is (NODE_ENV (env P)) "production")
                       then ("error", VStr (message err))
                            :: (if nonempty (stack_of P err)
                                then [("stack", VStr (stack_of P err))] else [])
                       else [])
                   ++ match lookup_last "errors" (fields err) with
                      | Some errors =>
                          if truthy errors then [("errors", errors)] else []
                      | None => []
                      end)%list) |}.

(** Both not-found middlewares. *)
Definition notFound (req : Request) : Outcome :=
  NextErr (createError 404 (Some ("Not Found - " ++ originalUrl req)) []).

(* ------------------------------------------------------------------ *)
(** *** The stack and its dispatch *)

Inductive Kind : Type :=
| Use (mount : option string)      (* app.use([mount,] fn), fn of three arguments *)
| ErrorUse                         (* app.use(fn), fn of four arguments *)
| Route (m : Method) (p : string)  (* app.get / app.post / app.delete *)
| RouteAny (m : Method).           (* app.options('*', fn) *)

Definition Layer : Type := (LayerId * Kind)%type.

(** The layers up to the centralized error handler. *)
Definition front (e : Env) : list Layer :=
  ([(PinoHttp, Use None); (Helmet, Use None); (Cors, Use None);
    (CorsPreflight, RouteAny OPTIONS); (RateLimit, Use None);
    (JsonBody, Use None); (UrlencodedBody, Use None);
    (Compression, Use None)]
   ++ (if env_is (NODE_ENV e) "production" && env_is (FORCE_HTTPS e) "true"
       then [(HttpsRedirect, Use None)] else [])
   ++ [(ApiKeyAuth, Use (Some "/api"))]
   ++ (if negb (env_is (ENABLE_SWAGGER e) "false")
       then [(SwaggerUi, Use (Some "/api-docs"))] else [])
   ++ [(Static, Use None); (Health, Route GET "/health");
       (Endpoints, Route GET "/api/endpoints");
       (SetEndpoint, Route POST "/api/set-endpoint");
       (ErrorHandler, ErrorUse)])%list.

(** The layers from the first not-found middleware on. *)
Definition back : list Layer :=
  [(NotFound, Use None);
   (Models, Route GET "/api/models");
   (DeleteModels, Route DELETE "/api/models");
   (Pull, Route POST "/api/pull");
   (Ps, Route GET "/api/ps");
   (NotFoundLate, Use None);
   (GlobalErrorHandler, ErrorUse);
   (UpdateModel, Route POST "/api/update-model");
   (HealthLate, Route GET "/health");
   (DeleteModelsLate, Route DELETE "/api/models");
   (PullLate, Route POST "/api/pull")].

Definition app (e : Env) : list Layer := (front e ++ back)%list.

(** A mount path matches itself and everything below it. *)
Definition mounted (mount : option string) (p : string) : bool :=
  match mount with
  | None => true
  | Some m =>
      String.eqb p m
      || match strip_prefix (m ++ "/") p with Some _ => true | None => false end
  end.

(** A [GET] route also serves [HEAD]. *)
Definition method_matches (route req : Method) : bool :=
  Method_eqb route req
  || (Method_eqb route GET && Method_eqb req HEAD).

Definition matches (k : Kind) (req : Request) : bool :=
  match k with
  | Use mount => mounted mount (path req)
  | ErrorUse => false
  | Route m p => method_matches m (method req) && String.eqb (path req) p
  | RouteAny m => method_matches m (method req)
  end.

(** What a layer does with a request that has no error pending. *)
Definition run (P : Platform) (id : LayerId) (req : Request) (st : State)
  : Outcome * State :=
  match id with
  | ApiKeyAuth => (apiKeyAuth (env P) req, st)
  | HttpsRedirect => (httpsRedirect req, st)
  | Health | HealthLate =>
      (Send {| statusCode := 200;
               content := Json (VObj [("status", VStr "ok")]) |}, st)
  | Endpoints =>
      (Send {| statusCode := 200; content := Json (getEndpoints (env P) st) |}, st)
  | SetEndpoint => setEndpoint P req st
  | NotFound | NotFoundLate => (notFound req, st)
  | Models | Ps => (proxy P id req st, st)
  | DeleteModels => (deleteModels P req st, st)
  | DeleteModelsLate => (deleteModelsLate P req st, st)
  | Pull => (pull P req st, st)
  | PullLate => (pullLate P req st, st)
  | UpdateModel => (updateModel P req st, st)
  | ErrorHandler | GlobalErrorHandler => (Next, st)
  | _ => (library P id req, st)
  end.

(** What an error-handling layer answers. *)
Definition run_error (P : Platform) (id : LayerId) (err : HttpError)
           (req : Request) : Response :=
  match id with
  | GlobalErrorHandler => globalErrorHandler P err req
  | _ => errorHandler P err req
  end.

(** How a request ended. *)
Inductive Reply : Type :=
| Replied (r : Response)
| Streaming (res : Res) (k : Relay)
| Unhandled (err : option HttpError).   (* left to Express's final handler *)

Record Served : Type := {
  visited : list LayerId;          (* the layers whose function ran, in order *)
  handled_by : option LayerId;     (* the one that answered *)
  reply : Reply;
  final : State
}.

Definition visit (id : LayerId) (s : Served) : Served :=
  {| visited := id :: visited s; handled_by := handled_by s;
     reply := reply s; final := final s |}.

Definition answer (id : LayerId) (r : Reply) (st : State) : Served :=
  {| visited := [id]; handled_by := Some id; reply := r; final := st |}.

(** Express's router: layers are tried in order; with an error pending only
    error-handling layers run, without one only the others. *)
Fixpoint dispatch (P : Platform) (layers : list Layer) (err : option HttpError)
         (req : Request) (st : State) : Served :=
  match layers with
  | [] => {| visited := []; handled_by := None; reply := Unhandled err;
             final := st |}
  | (id, kind) :: rest =>
      match err, kind with
      | Some e, ErrorUse => answer id (Replied (run_error P id e req)) st
      | Some _, _ => dispatch P rest err req st
      | None, ErrorUse => dispatch P rest None req st
      | None, _ =>
          if matches kind req then
            match run P id req st with
            | (Next, st') => visit id (dispatch P rest None req st')
            | (NextErr e, st') => visit id (dispatch P rest (Some e) req st')
            | (Send r, st') => answer id (Replied r) st'
            | (Piped res k, st') => answer id (Streaming res k) st'
            end
          else dispatch P rest None req st
      end
  end.

(** The application serving one request. *)
Definition serve (P : Platform) (req : Request) (st : State) : Served :=
  dispatch P (app (env P)) None req st.

(** The request [req] switched the active endpoint: validation passed, the
    probe of the new endpoint succeeded, and the endpoint handler answered
    200 and left the new endpoint in the state. *)
Definition switched (P : Platform) (req : Request) (s : Served) : Prop :=
  exists endpoint,
    validation P SetEndpoint req = []
    /\ get (body req) "endpoint" = Some endpoint
    /\ probe P (ToString endpoint ++ "/api/tags") = None
    /\ final s = {| ollamaEndpoint := endpoint |}
    /\ handled_by s = Some SetEndpoint
    /\ exists v, reply s = Replied {| statusCode := 200; content := Json v |}.

(** The five proxied routes registered after the first not-found
    middleware, and the handlers registered for them. *)
Definition targets_api_route (req : Request) : bool :=
  let at_ m p := Method_eqb (method req) m && String.eqb (path req) p in
  at_ GET "/api/models" || at_ DELETE "/api/models" || at_ POST "/api/pull"
  || at_ GET "/api/ps" || at_ POST "/api/update-model".

Definition route_handlers : list LayerId :=
  [Models; DeleteModels; Pull; Ps; UpdateModel; DeleteModelsLate; PullLate].

(** A platform whose library middleware all pass the request on, whose
    validators accept, and whose upstream accepts every call except the
    deletion of the models listed in [failing]. *)
Definition quiet_platform (e : Env) (failing : list (string * string)) : Platform :=
  {| env := e;
     library := fun _ _ => Next;
     validation := fun _ _ => [];
     probe := fun _ => None;
     connect := fun _ _ => None;
     upstream_delete := fun _ _ m =>
       match m with
       | VStr name =>
           match find (fun kv => String.eqb (fst kv) name) failing with
           | Some kv => Some (snd kv)
           | None => None
           end
       | _ => None
       end;
     proxy := fun _ _ _ => Send {| statusCode := 200; content := Json (VArr []) |};
     stack_of := fun _ => "" |}.

Definition plain_env : Env :=
  {| API_KEY := None; NODE_ENV := Some "production"; FORCE_HTTPS := None;
     ENABLE_SWAGGER := None; OLLAMA_ENDPOINTS := Some "http://localhost:11434" |}.

Definition request (m : Method) (p : string) (b : value) : Request :=
  {| method := m; path := p; originalUrl := p; url := p;
     host := Some "localhost:3000"; x_api_key := None;
     x_forwarded_proto := None; body := b |}.

(* ------------------------------------------------------------------ *)
(** *** Stretches of the stack, and what the handlers look at *)

(** The library middleware registered ahead of everything else. *)
Definition library_layers : list Layer :=
  [(PinoHttp, Use None); (Helmet, Use None); (Cors, Use None);
   (CorsPreflight, RouteAny OPTIONS); (RateLimit, Use None);
   (JsonBody, Use None); (UrlencodedBody, Use None);
   (Compression, Use None)].

(** The redirect to HTTPS, installed in production when asked for. *)
Definition redirect_layers (e : Env) : list Layer :=
  if env_is (NODE_ENV e) "production" && env_is (FORCE_HTTPS e) "true"
  then [(HttpsRedirect, Use None)] else [].

(** The layers of [front] registered after the API-key check. *)
Definition behind_key (e : Env) : list Layer :=
  ((if negb (env_is (ENABLE_SWAGGER e) "false")
    then [(SwaggerUi, Use (Some "/api-docs"))] else [])
   ++ [(Static, Use None); (Health, Route GET "/health");
       (Endpoints, Route GET "/api/endpoints");
       (SetEndpoint, Route POST "/api/set-endpoint");
       (ErrorHandler, ErrorUse)])%list.

(** The layers registered ahead of the routes let the request through:
    every library middleware calls [next()], the redirect to HTTPS is not
    installed or the request came over HTTPS, and the path is outside [/api]
    or the API-key check accepts. *)
Definition let_through (P : Platform) (req : Request) : Prop :=
  (forall id, library P id req = Next)
  /\ (redirect_layers (env P) = []
      \/ env_is (x_forwarded_proto req) "https" = true)
  /\ (mounted (Some "/api") (path req) = false
      \/ apiKeyAuth (env P) req = Next).

(** The routes registered ahead of the first not-found middleware. *)
Definition served_route (req : Request) : bool :=
  (method_matches GET (method req) && String.eqb (path req) "/health")
  || (method_matches GET (method req) && String.eqb (path req) "/api/endpoints")
  || (method_matches POST (method req)
      && String.eqb (path req) "/api/set-endpoint").

End Server.

(* ================================================================== *)
(** ** The legacy page's endpoint and delete controls *)
(* ================================================================== *)

Module Controls.
Import JS Json Stream Server.

(** How [await fetch(...)] followed by [await response.json()] ends: with
    an exception (the request failed, or the body is not JSON) or with the
    parsed body. *)
Inductive Fetched : Type :=
| Rejected (e : Exn)
| Answered (data : value).

(** [await response.json()] on a reply the server sent with [res.json(v)]. *)
Definition response_json (v : value) : Fetched :=
  match JSON_parse (JSON_stringify v) with
  | Some data => Answered data
  | None => Rejected SyntaxError
  end.

Inductive Text : Type :=
| Lit (s : string)
| WithMessage (prefix : string) (e : Exn).   (* `${prefix}${e.message}` *)

Inductive Effect : Type :=
| EndpointStatusClass (c : string)    (* statusDiv.className = c *)
| EndpointStatusText (t : Text)       (* statusDiv.textContent = t *)
| StoreLastEndpoint (endpoint : string)
| RefreshModels
| FetchRunningModels
| Alert (message : value)             (* alert(message) *)
| ConsoleError (label : string) (e : Exn)
| EndpointSelectHTML (html : string)  (* select.innerHTML = html *)
| SetEndpointCalled.                  (* setEndpoint() *)

(** [new Error(message)]: an [undefined] message leaves the empty default. *)
Definition new_Error (message : value) : Exn :=
  Error match message with
        | VUndefined => ""
        | _ => ToString message
        end.

(** [setEndpoint()] of the legacy page, from the point where the request
    for [endpoint] has been sent. *)
Definition setEndpoint (endpoint : string) (fetched : Fetched) : list Effect :=
  let failed (error : Exn) :=
    [EndpointStatusClass "error";
     EndpointStatusText (WithMessage "Connection failed: " error)] in
  match fetched with
  | Rejected error => failed error
  | Answered data =>
      match get data "success", get data "message" with
      | Some success, Some message =>
          if truthy success then
            [EndpointStatusClass "success";
             EndpointStatusText (Lit "Connected successfully!");
             StoreLastEndpoint endpoint; RefreshModels; FetchRunningModels]
          else failed (new_Error message)
      | _, _ => failed TypeError
      end
  end.

(** [deleteModel(modelName)]; [confirmed] is what [confirm] returned. *)
Definition deleteModel (confirmed : bool) (fetched : Fetched) : list Effect :=
  if negb confirmed then []
  else
    match fetched with
    | Rejected _ => [Alert (VStr "Failed to connect to server")]
    | Answered data =>
        match get data "success", get data "message" with
        | Some success, Some message =>
            if truthy success then [RefreshModels] else [Alert message]
        | _, _ => [Alert (VStr "Failed to connect to server")]
        end
    end.

(** [deleteSelectedModels()]; [selected] is [selectedModels.size]. *)
Definition deleteSelectedModels (selected : nat) (confirmed : bool)
           (fetched : Fetched) : list Effect :=
  if (selected =? 0)%nat then []
  else if negb confirmed then []
  else
    match fetched with
    | Rejected _ => [Alert (VStr "Failed to connect to server")]
    | Answered data =>
        match get data "success", get data "message" with
        | Some success, Some message =>
            if truthy success
            then [Alert (VStr "Models deleted successfully"); RefreshModels]
            else [Alert message]
        | _, _ => [Alert (VStr "Failed to connect to server")]
        end
    end.

Fixpoint spaces (n : nat) : string :=
  match n with
  | O => EmptyString
  | S k => String " "%char (spaces k)
  end.

(** One [<option>] of the template in [loadEndpoints], with the line breaks
    and the indentation of the source. *)
Definition option_html (endpoint : value) (selected : bool) : string :=
  "<option value=" ++ String DQUOTE (ToString endpoint)
  ++ String DQUOTE " " ++ (if selected then "selected" else "") ++ ">"
  ++ nl ++ spaces 24 ++ ToString endpoint
  ++ nl ++ spaces 20 ++ "</option>".

(** [endpoint === lastEndpoint] for the element at [index], where
    [lastEndpoint] is the stored text or else [endpoints[0]] itself: an
    object or an array is only identical to itself. *)
Definition is_last (stored : option string) (first : value) (index : nat)
           (endpoint : value) : bool :=
  match stored with
  | Some s => strict_eq endpoint (VStr s)
  | None =>
      match first with
      | VObj _ | VArr _ => (index =? 0)%nat
      | _ => strict_eq endpoint first
      end
  end.

Fixpoint options_from (stored : option string) (first : value) (index : nat)
         (endpoints : list value) : list string :=
  match endpoints with
  | [] => []
  | endpoint :: rest =>
      option_html endpoint (is_last stored first index endpoint)
      :: options_from stored first (S index) rest
  end.

(** [loadEndpoints()] of the legacy page; [stored] is
    [localStorage.getItem('lastEndpoint')].  A body that is not an array
    ends in a [TypeError]: at [endpoints[0]] for [null], at
    [endpoints.map] otherwise. *)
Definition loadEndpoints (stored : option string) (fetched : Fetched)
  : list Effect :=
  let failed (error : Exn) :=
    [ConsoleError "Failed to load endpoints:" error;
     EndpointSelectHTML
       ("<option value=" ++ String DQUOTE (String DQUOTE
          ">Failed to load endpoints</option>"))] in
  match fetched with
  | Rejected error => failed error
  | Answered (VArr l) =>
      let kept := match stored with
                  | Some s => if nonempty s then Some s else None
                  | None => None
                  end in
      let lastEndpoint := match kept, l with
                          | Some s, _ => VStr s
                          | None, first :: _ => first
                          | None, [] => VUndefined
                          end in
      (EndpointSelectHTML
         (String.concat EmptyString (options_from kept lastEndpoint 0 l))
       :: (if truthy lastEndpoint then [SetEndpointCalled] else []))%list
  | Answered _ => failed TypeError
  end.

End Controls.

(* ================================================================== *)
(** ** The request wrapper and the connection check of [public/app.js] *)
(* ================================================================== *)

Module AppApi.
Import JS Json Stream Server.

(** What [fetch] resolves with, as far as [apiRequest] looks at it. *)
Record Fetch : Type := {
  ok : bool;                       (* response.ok *)
  contentType : option string;     (* response.headers.get('content-type') *)
  json : option value              (* response.json(); [None] when it rejects *)
}.

(** The response the browser gets for a reply sent with [res.json(v)]. *)
Definition fetch_of (r : Response) (v : value) : Fetch :=
  {| ok := ((200 <=? statusCode r) && (statusCode r <=? 299))%Z;
     contentType := Some "application/json; charset=utf-8";
     json := JSON_parse (JSON_stringify v) |}.

(** [hay.includes(needle)] *)
Fixpoint includes (needle hay : string) : bool :=
  match strip_prefix needle hay with
  | Some _ => true
  | None =>
      match hay with
      | String _ hay' => includes needle hay'
      | EmptyString => false
      end
  end.


Record Dom : Type := {
  statusEl : bool;        (* #connectionStatus *)
  indicatorEl : bool;     (* #connectionIndicator *)
  statusTextEl : bool     (* #connectionStatusText *)
}.

Inductive Effect : Type :=
| ConsoleError (label : string) (e : Exn)
| SetConnected (connected : bool)      (* this.isConnected = connected *)
| StatusHidden (hidden : bool)         (* statusEl.hidden = hidden *)
| StatusBarClass (c : string)          (* statusEl.className = c *)
| IndicatorClass (c : string)          (* indicatorEl.className = c *)
| StatusText (s : string).             (* statusTextEl.textContent = s *)

(** [apiRequest(endpoint, options)] from the point where [fetch] has
    settled: [inl e] when it rejected with [e]. *)
Definition apiRequest (endpoint : string) (fetched : Exn + Fetch)
  : list Effect * result value :=
  let failed (e : Exn) :=
    ([ConsoleError ("API request to " ++ endpoint ++ " failed:") e], Throw e) in
  match fetched with
  | inl e => failed e
  | inr response =>
      if negb (ok response) then
        let error := match json response with
                     | Some v => v
                     | None => VObj []
                     end in
        match get error "message" with
        | Some message =>
            failed (Error (if truthy message then ToString message
                           else "Request failed"))
        | None => failed TypeError
        end
      else
        match contentType response with
        | Some ct =>
            if nonempty ct && includes "application/json" ct then
              match json response with
              | Some v => ([], Ok v)
              | None => failed SyntaxError
              end
            else ([], Ok (VObj [("success", VBool true)]))
        | None => ([], Ok (VObj [("success", VBool true)]))
        end
  end.



End AppApi.

(* ================================================================== *)
(** ** Updating and pulling a model, from the request on *)
(* ================================================================== *)

Module Operations.
Import JS Json Stream.

(** [throw new Error(error.message || lit)] on a response that is not
    [ok], [error] being [await response.json()]; [lenient] is whether a
    body that is not JSON is replaced by [{}], as [.catch(() => ({}))]
    does. *)
Definition refusal (response : AppApi.Fetch) (lit : string) (lenient : bool)
  : Exn :=
  match AppApi.json response with
  | Some error =>
      match get error "message" with
      | Some message => Error (if truthy message then ToString message else lit)
      | None => TypeError
      end
  | None => if lenient then Error lit else SyntaxError
  end.

(** [updateModel(modelName)] of the legacy page from the request on:
    [fetched] is how [fetch] settled ([inl e] when it rejected), [chunks]
    what the body delivers when the response is [ok]. *)
Definition updateModel (fetched : Exn + AppApi.Fetch) (chunks : list string)
  : list Page.Effect :=
  let failed (error : Exn) :=
    (Page.updateStatusElement (VStr "Starting update...")
     ++ [Page.ConsoleError "Update error:" error; Page.StatusError error;
         Page.SetTimeout Page.ClearStatus 5000])%list in
  match fetched with
  | inl error => failed error
  | inr response =>
      if AppApi.ok response then Page.updateModel chunks
      else failed (refusal response "Failed to start update" false)
  end.

(** [pullModel()] of the legacy page, for a non-empty model name. *)
Definition pullModel (fetched : Exn + AppApi.Fetch) (chunks : list string)
  : list Page.Effect :=
  let failed (error : Exn) :=
    [Page.StatusClass ""; Page.StatusText (VStr "Starting pull...");
     Page.ProgressDisplay "none";
     Page.ConsoleError "Pull error:" error; Page.ProgressDisplay "none";
     Page.StatusError error; Page.StatusClass "error";
     Page.SetTimeout Page.ClearStatus 5000] in
  match fetched with
  | inl error => failed error
  | inr response =>
      if AppApi.ok response then Page.pullModel chunks
      else failed (refusal response "Failed to start pull" false)
  end.

(** [pullModel(modelName)] of [app.js], for a non-empty model name. *)
Definition app_pullModel (dom : App.Dom) (modelName : string)
           (fetched : Exn + AppApi.Fetch) (chunks : list string)
  : list App.Effect :=
  let failed (error : Exn) :=
    (App.when (App.statusElement dom) [App.StatusDisplay "block"]
     ++ App.when (App.progressElement dom)
          [App.ProgressText (App.Lit "Initializing...")]
     ++ App.when (App.progressBar dom) [App.BarWidth (Zero false)]
     ++ [App.ConsoleError "Pull failed:" error;
         App.ShowToast (App.WithMessage "Pull failed: " error) "error"]
     ++ App.when (App.progressElement dom)
          [App.ProgressText (App.WithMessage "Error: " error);
           App.ProgressClass "text-danger"])%list in
  match fetched with
  | inl error => failed error
  | inr response =>
      if AppApi.ok response then App.pullModel dom modelName chunks
      else failed (refusal response "Failed to start pull" true)
  end.

End Operations.

(* ================================================================== *)
(** ** Selection and sort order of the model list, in both pages *)
(* ================================================================== *)

Module Listing.

(** A [Set] of names, in insertion order. *)
Definition has (s : list string) (x : string) : bool :=
  existsb (String.eqb x) s.

Definition add (s : list string) (x : string) : list string :=
  if has s x then s else (s ++ [x])%list.

Definition delete (s : list string) (x : string) : list string :=
  filter (fun y => negb (String.eqb y x)) s.

(** [selectedModels], and [model.name] for each of [currentModels]. *)
Record State : Type := {
  selectedModels : list string;
  currentModels : list string
}.

(** [currentSort] *)
Record Sort : Type := {
  field : string;
  direction : string
}.

(** Which of the elements the functions look up exist. *)
Record Dom : Type := {
  selectAllCheckbox : bool;     (* #selectAllCheckbox *)
  updateSelectedBtn : bool      (* #updateSelectedBtn *)
}.

Inductive Effect : Type :=
| SelectAllChecked (checked : bool)
| SelectAllIndeterminate (indeterminate : bool)
| UpdateSelectedDisabled (disabled : bool)
| ModelChecked (modelName : string) (checked : bool).

(** [updateBulkActionButtons()] of the legacy page. *)
Definition updateBulkActionButtons (dom : Dom) (selected : list string)
  : list Effect :=
  if updateSelectedBtn dom
  then [UpdateSelectedDisabled (List.length selected =? 0)%nat]
  else [].


(** The [forEach] of [toggleAllModels(checkbox)]; [rendered] tells which
    models have a checkbox on the page. *)
Fixpoint toggle_each (isChecked : bool) (rendered : string -> bool)
         (models : list string) (selected : list string)
  : list string * list Effect :=
  match models with
  | [] => (selected, [])
  | name :: rest =>
      if rendered name then
        let '(selected', es) :=
          toggle_each isChecked rendered rest
            (if isChecked then add selected name else delete selected name) in
        (selected', ModelChecked name isChecked :: es)
      else toggle_each isChecked rendered rest selected
  end.

(** [toggleAllModels(checkbox)] of the legacy page. *)
Definition toggleAllModels (dom : Dom) (isChecked : bool)
           (rendered : string -> bool) (st : State) : State * list Effect :=
  let '(selected, es) :=
    toggle_each isChecked rendered (currentModels st) (selectedModels st) in
  ({| selectedModels := selected; currentModels := currentModels st |},
   (es ++ updateBulkActionButtons dom selected)%list).





(** What [sortModels(field)] leaves in [currentSort], the same in both
    pages. *)
Definition next_sort (clicked : string) (s : Sort) : Sort :=
  if String.eqb (field s) clicked then
    {| field := field s;
       direction := if String.eqb (direction s) "asc" then "desc" else "asc" |}
  else {| field := clicked; direction := "asc" |}.

Inductive SortEffect : Type :=
| SortClassesCleared                          (* every header loses sort-asc, sort-desc *)
| SortClassAdded (column : string) (c : string)   (* header.classList.add(c) *)
| DisplayModels                               (* displayModels(currentModels) *)
| RenderModels.                               (* this.renderModels() *)

(** [sortModels(field)] of the legacy page; [header] is whether the page
    has an element of class [<field>-col]. *)
Definition sortModels (header : bool) (clicked : string) (s : Sort)
  : Sort * list SortEffect :=
  let s' := next_sort clicked s in
  (s', ([SortClassesCleared]
        ++ (if header then [SortClassAdded clicked ("sort-" ++ direction s')]
            else [])
        ++ [DisplayModels])%list).

(** [sortModels(field)] of [app.js]. *)
Definition app_sortModels (clicked : string) (s : Sort)
  : Sort * list SortEffect :=
  (next_sort clicked s, [RenderModels]).

(** The arrows of [getSortIcon]. *)
Inductive Icon : Type :=
| UpDown     (* U+2195 *)
| Up         (* U+2191 *)
| Down.      (* U+2193 *)

(** [getSortIcon(field)] of [app.js]. *)
Definition getSortIcon (asked : string) (s : Sort) : Icon :=
  if negb (String.eqb (field s) asked) then UpDown
  else if String.eqb (direction s) "asc" then Up else Down.

(** [let currentSort = { field: 'name', direction: 'asc' }] *)
Definition initial_sort : Sort := {| field := "name"; direction := "asc" |}.

End Listing.

(* ================================================================== *)
(** ** Sample streams and requests *)
(* ================================================================== *)

Module Samples.
Import JS Json Stream.

(** A stream of two records: one chunk per line, and with the line feed
    leading the second chunk. *)
Definition two_records_by_line : list string :=
  [json_text "{'status':'writing manifest'}" ++ nl;
   json_text "{'status':'success'}" ++ nl].

Definition two_records_lf_first : list string :=
  [json_text "{'status':'writing manifest'}";
   nl ++ json_text "{'status':'success'}" ++ nl].

(** A one-record payload, whole and cut inside the line. *)
Definition one_record : string := json_text "{'status':'success'}" ++ nl.

Definition one_record_cut : list string :=
  [json_text "{'status':"; json_text "'success'}" ++ nl].

(** The stream of the skipped-line example: a download record, a line that
    is not JSON, a success record. *)
Definition with_invalid_line : string :=
  json_text "{'status':'downloading','completed':1,'total':2}" ++ nl
  ++ "NOT JSON" ++ nl
  ++ json_text "{'status':'success'}" ++ nl.

(** An operation error with a message of its own, followed by a success
    record; and one without a message. *)
Definition disk_full_stream : list string :=
  [json_text "{'status':'error','error':'disk full'}" ++ nl
   ++ json_text "{'status':'success'}" ++ nl].

Definition bare_error_stream : list string :=
  [json_text "{'status':'error'}" ++ nl
   ++ json_text "{'status':'success'}" ++ nl].

(** A download record with nothing to download. *)
Definition part_done_record : value :=
  VObj [("status", VStr "downloading");
        ("completed", VNum (Fin 23)); ("total", VNum (Fin 80))].

Definition zero_total_line : string :=
  json_text "{'status':'downloading','completed':0,'total':0}".

Definition zero_total_record : value :=
  VObj [("status", VStr "downloading");
        ("completed", VNum (Zero false)); ("total", VNum (Zero false))].

(** A download record half way. *)
Definition half_done_record : value :=
  VObj [("status", VStr "downloading");
        ("completed", VNum (Fin 1)); ("total", VNum (Fin 2))].



(** An environment with an API key, and a request that carries none. *)
Definition keyed_env : Server.Env :=
  {| Server.API_KEY := Some "secret";
     Server.NODE_ENV := Some "production";
     Server.FORCE_HTTPS := None;
     Server.ENABLE_SWAGGER := None;
     Server.OLLAMA_ENDPOINTS := Some "http://localhost:11434" |}.

Definition list_models : Server.Request :=
  Server.request Server.GET "/api/models" (VObj []).

(** Bulk delete of two models, the second of which the daemon refuses. *)
Definition refusing_b : Server.Platform :=
  Server.quiet_platform Server.plain_env
    [("b", "Request failed with status code 404")].

(** Bulk delete naming one model twice, on a daemon that rejects the
    first delete with an empty message and the second with a reason. *)
Definition silent_then_refusing : Server.Platform :=
  {| Server.env := Server.plain_env;
     Server.library := fun _ _ => Server.Next;
     Server.validation := fun _ _ => [];
     Server.probe := fun _ => None;
     Server.connect := fun _ _ => None;
     Server.upstream_delete := fun _ i _ =>
       match i with
       | O => Some ""
       | S _ => Some "Request failed with status code 404"
       end;
     Server.proxy := fun _ _ _ =>
       Server.Send {| Server.statusCode := 200;
                      Server.content := Server.Json (VArr []) |};
     Server.stack_of := fun _ => "" |}.

Definition delete_a_a : Server.Request :=
  Server.request Server.DELETE "/api/models"
    (VObj [("models", VArr [VStr "a"; VStr "a"])]).

Definition delete_a_b : Server.Request :=
  Server.request Server.DELETE "/api/models"
    (VObj [("models", VArr [VStr "a"; VStr "b"])]).

(** A request to switch to another daemon. *)
Definition switch_endpoint : Server.Request :=
  Server.request Server.POST "/api/set-endpoint"
    (VObj [("endpoint", VStr "http://10.0.0.2:11434")]).

(** A platform whose probe of any endpoint fails. *)
Definition unreachable_daemon : Server.Platform :=
  {| Server.env := Server.plain_env;
     Server.library := fun _ _ => Server.Next;
     Server.validation := fun _ _ => [];
     Server.probe := fun _ => Some "connect ECONNREFUSED";
     Server.connect := fun _ _ => Some "connect ECONNREFUSED";
     Server.upstream_delete := fun _ _ _ => Some "connect ECONNREFUSED";
     Server.proxy := fun _ _ _ =>
       Server.NextErr (Server.createError 500 (Some "Failed to fetch models") []);
     Server.stack_of := fun _ => "" |}.

(** Production behind a proxy, with the redirect to HTTPS asked for. *)
Definition forced_https_env : Server.Env :=
  {| Server.API_KEY := None;
     Server.NODE_ENV := Some "production";
     Server.FORCE_HTTPS := Some "true";
     Server.ENABLE_SWAGGER := None;
     Server.OLLAMA_ENDPOINTS := Some "http://localhost:11434" |}.

(** The health probe, the endpoint listing and the probe of [app.js]. *)
Definition get_health : Server.Request :=
  Server.request Server.GET "/health" VNull.

Definition get_endpoints : Server.Request :=
  Server.request Server.GET "/api/endpoints" VNull.


(** A bulk delete that names no model. *)
Definition delete_nothing : Server.Request :=
  Server.request Server.DELETE "/api/models" (VObj [("models", VArr [])]).

(** Two models listed, one of them selected. *)
Definition one_of_two_selected : Listing.State :=
  {| Listing.selectedModels := ["llama3"];
     Listing.currentModels := ["llama3"; "mistral"] |}.

(** The request the legacy page sends to update a model. *)
Definition post_pull_m : Server.Request :=
  Server.request Server.POST "/api/pull" (VObj [("model", VStr " m ")]).

Definition post_update_model : Server.Request :=
  Server.request Server.POST "/api/update-model"
    (VObj [("modelName", VStr "llama3")]).

End Samples.

(* ================================================================== *)
(** * Properties *)
(* ================================================================== *)

Import JS Json Stream Samples.

(** ** Cutting a text into lines *)

Section LineFacts.

Lemma append_empty_r (s : string) : s ++ "" = s.
Proof. induction s; simpl; congruence. Qed.

Lemma append_assoc (a b c : string) : (a ++ b) ++ c = a ++ (b ++ c).
Proof. induction a; simpl; congruence. Qed.

Lemma split_on_cons (sep : ascii) (s : string) :
  exists l ls, split_on sep s = l :: ls.
Proof.
  induction s as [|c s IH]; simpl.
  - eauto.
  - destruct (Ascii.eqb c sep); [eauto|].
    destruct IH as (l & ls & ->). eauto.
Qed.

(** A separator in the text cuts the list of pieces in two. *)
Lemma split_on_app_sep (sep : ascii) (a b : string) :
  split_on sep (a ++ String sep b) = (split_on sep a ++ split_on sep b)%list.
Proof.
  induction a as [|c a IH]; simpl.
  - now rewrite Ascii.eqb_refl.
  - destruct (Ascii.eqb c sep).
    + now rewrite IH.
    + rewrite IH. destruct (split_on_cons sep a) as (l & ls & ->).
      reflexivity.
Qed.

Lemma split_on_no_sep (sep : ascii) (s : string) :
  (fix has (s : string) : bool :=
     match s with
     | EmptyString => false
     | String c s' => Ascii.eqb c sep || has s'
     end) s = false ->
  split_on sep s = [s].
Proof.
  induction s as [|c s IH]; simpl; intros H; [reflexivity|].
  apply orb_false_iff in H as [-> H]. now rewrite (IH H).
Qed.

Lemma split_nl_single (s : string) : has_lf s = false -> split_nl s = [s].
Proof. intros H. apply split_on_no_sep. exact H. Qed.

Lemma ends_lf_inv (s : string) :
  ends_lf s = true -> exists s', s = s' ++ nl.
Proof.
  induction s as [|c s IH]; simpl; [discriminate|].
  destruct s as [|d s].
  - intros H. apply Ascii.eqb_eq in H as ->. now exists "".
  - intros H. destruct (IH H) as (s' & E). exists (String c s').
    simpl. now rewrite <- E.
Qed.

Lemma starts_lf_inv (s : string) :
  starts_lf s = true -> exists s', s = String LF s'.
Proof.
  destruct s as [|c s]; simpl; [discriminate|].
  intros H. apply Ascii.eqb_eq in H as ->. eauto.
Qed.

Lemma nonblank_empty : nonblank "" = false.
Proof. reflexivity. Qed.

(** The lines of two texts put together are the lines of the first
    followed by those of the second when the cut is next to a line
    feed. *)
Lemma lines_app (a b : string) :
  cut_ok a b = true ->
  filter nonblank (split_nl (a ++ b))
  = (filter nonblank (split_nl a) ++ filter nonblank (split_nl b))%list.
Proof.
  unfold cut_ok, split_nl. intros H.
  apply orb_true_iff in H as [H|H];
    [apply orb_true_iff in H as [H|H];
      [apply orb_true_iff in H as [H|H]|]|].
  - destruct a; [|discriminate]. reflexivity.
  - destruct b; [|discriminate]. rewrite append_empty_r. simpl.
    now rewrite app_nil_r.
  - destruct (ends_lf_inv a H) as (a' & ->). unfold nl.
    rewrite append_assoc. simpl.
    rewrite !split_on_app_sep, !filter_app.
    change (filter nonblank (split_on LF "")) with (@nil string).
    now rewrite app_nil_r.
  - destruct (starts_lf_inv b H) as (b' & ->).
    rewrite split_on_app_sep, filter_app.
    change (split_on LF (String LF b')) with ("" :: split_on LF b').
    reflexivity.
Qed.

Lemma filter_flat_map {A B} (p : B -> bool) (f : A -> list B) (l : list A) :
  filter p (flat_map f l) = flat_map (fun x => filter p (f x)) l.
Proof.
  induction l as [|x l IH]; simpl; [reflexivity|].
  now rewrite filter_app, IH.
Qed.

Lemma lines_cons (c : string) (chunks : list string) :
  lines (c :: chunks) = (filter nonblank (split_nl c) ++ lines chunks)%list.
Proof. unfold lines. simpl. now rewrite filter_app. Qed.

Lemma lines_app_chunks (xs ys : list string) :
  lines (xs ++ ys) = (lines xs ++ lines ys)%list.
Proof. unfold lines. now rewrite flat_map_app, filter_app. Qed.

Lemma payload_cons (c : string) (chunks : list string) :
  payload (c :: chunks) = c ++ payload chunks.
Proof.
  unfold payload. destruct chunks as [|d chunks]; simpl.
  - now rewrite append_empty_r.
  - reflexivity.
Qed.

Lemma lines_single (text : string) :
  lines [text] = filter nonblank (split_nl text).
Proof. unfold lines. simpl. now rewrite app_nil_r. Qed.

(** With every cut next to a line feed, cutting chunk by chunk gives the
    lines of the whole text. *)
Lemma lines_aligned (chunks : list string) (pre : string) :
  aligned pre chunks = true ->
  filter nonblank (split_nl (pre ++ payload chunks))
  = (filter nonblank (split_nl pre) ++ lines chunks)%list.
Proof.
  revert pre. induction chunks as [|c chunks IH]; intros pre H.
  - unfold payload, lines. simpl. now rewrite append_empty_r, app_nil_r.
  - simpl in H. apply andb_true_iff in H as [Hc Hrest].
    rewrite payload_cons, <- append_assoc, (IH _ Hrest).
    rewrite (lines_app _ _ Hc), lines_cons. now rewrite app_assoc.
Qed.

Lemma lines_payload (chunks : list string) :
  aligned "" chunks = true -> lines [payload chunks] = lines chunks.
Proof.
  intros H. rewrite lines_single.
  change (payload chunks) with ("" ++ payload chunks).
  now rewrite (lines_aligned _ _ H).
Qed.

End LineFacts.

(** ** [JSON.parse]: fuel, and the blank-line test *)

Lemma len_app (a b : string) : String.length (a ++ b) = (String.length a + String.length b)%nat.
Proof. induction a; simpl; congruence. Qed.

Lemma skip_ws_len (s : string) : (String.length (skip_ws s) <= String.length s)%nat.
Proof.
  induction s as [|a s IH]; simpl; [lia|].
  destruct (is_json_ws a); simpl; lia.
Qed.

Lemma strip_prefix_len (p s r : string) :
  strip_prefix p s = Some r -> String.length s = (String.length p + String.length r)%nat.
Proof.
  revert s. induction p as [|a p IH]; intros s; simpl.
  - now intros [= ->].
  - destruct s as [|c s]; [discriminate|].
    destruct (Ascii.eqb a c); [|discriminate].
    intros H. simpl. now rewrite (IH _ H).
Qed.

Lemma starts_with_len (c : ascii) (s r : string) :
  starts_with c s = Some r -> String.length s = S (String.length r).
Proof.
  destruct s as [|a s]; simpl; [discriminate|].
  destruct (Ascii.eqb c a); [|discriminate]. now intros [= ->].
Qed.

Lemma scan_digits_len (s d r : string) :
  scan_digits s = (d, r) -> String.length s = (String.length d + String.length r)%nat.
Proof.
  revert d r. induction s as [|a s IH]; intros d r; simpl.
  - now intros [= <- <-].
  - destruct (is_digit a).
    + destruct (scan_digits s) as [d' r'] eqn:E. intros [= <- <-].
      simpl. now rewrite (IH _ _ eq_refl).
    + now intros [= <- <-].
Qed.

Lemma scan_exp_len (s r : string) (e : Z) :
  scan_exp s = Some (e, r) -> (String.length r <= String.length s)%nat.
Proof.
  unfold scan_exp. destruct s as [|c s]; [now intros [= <- <-]|].
  destruct (Ascii.eqb c "e" || Ascii.eqb c "E"); [|intros [= <- <-]; lia].
  destruct s as [|sg s'].
  - simpl. discriminate.
  - assert (G : forall x, (String.length x <= String.length (String sg s'))%nat ->
                 match (let '(d, r2) := scan_digits x in
                        match d with
                        | "" => None
                        | String _ _ => Some (0%Z, r2)
                        end) with
                 | Some (_, r2) => (String.length r2 <= S (String.length (String sg s')))%nat
                 | None => True
                 end).
    { intros x Hx. destruct (scan_digits x) as [d r2] eqn:E.
      apply scan_digits_len in E. destruct d; [exact I|]. simpl in *. lia. }
    destruct (Ascii.eqb sg "-"); [|destruct (Ascii.eqb sg "+")];
      match goal with
      | |- context [scan_digits ?x] =>
          specialize (G x); destruct (scan_digits x) as [d r2];
          destruct d; [discriminate|]; intros [= <- <-];
          simpl in G |- *; lia
      end.
Qed.

Lemma parse_number_len (s r : string) (n : Num) :
  parse_number s = Some (n, r) -> (String.length r < String.length s)%nat.
Proof.
  unfold parse_number.
  destruct (match s with
            | String c r0 => if Ascii.eqb c "-" then (true, r0) else (false, s)
            | "" => (false, s)
            end) as [neg s1] eqn:E1.
  assert (H1 : (String.length s1 <= String.length s)%nat).
  { destruct s as [|c s0]; [now injection E1 as <- <-|].
    destruct (Ascii.eqb c "-"); injection E1 as <- <-; simpl; lia. }
  destruct (scan_digits s1) as [ip s2] eqn:E2.
  apply scan_digits_len in E2.
  destruct ip as [|c0 more]; [discriminate|].
  destruct (Ascii.eqb c0 "0" && nonempty more); [discriminate|].
  destruct (match s2 with
            | String c r0 =>
                if Ascii.eqb c "."
                then let '(fp, r') := scan_digits r0 in
                     match fp with
                     | "" => None
                     | String _ _ => Some (fp, r')
                     end
                else Some ("", s2)
            | "" => Some ("", s2)
            end) as [[fp s3]|] eqn:E3; [|discriminate].
  assert (H3 : (String.length s3 <= String.length s2)%nat).
  { destruct s2 as [|c r0]; [now injection E3 as <- <-|].
    destruct (Ascii.eqb c "."); [|injection E3 as <- <-; lia].
    destruct (scan_digits r0) as [fp' r'] eqn:E4.
    apply scan_digits_len in E4.
    destruct fp'; [discriminate|]. injection E3 as <- <-. simpl in *. lia. }
  destruct (scan_exp s3) as [[e s4]|] eqn:E5; [|discriminate].
  apply scan_exp_len in E5. intros [= <- <-]. simpl in E2. lia.
Qed.

Lemma scan_string_len (s r : string) (ps : list piece) :
  scan_string s = Some (ps, r) -> (String.length r < String.length s)%nat.
Proof.
  remember (String.length s) as n eqn:Hn. revert s Hn ps r.
  induction n as [n IH] using lt_wf_ind. intros s Hn ps r.
  destruct s as [|c s0]; [discriminate|]. simpl in Hn. simpl.
  destruct (Ascii.eqb c DQUOTE); [intros [= <- <-]; simpl in *; lia|].
  destruct (Ascii.eqb c BSLASH).
  - destruct s0 as [|e r1]; [discriminate|].
    destruct (Ascii.eqb e "u").
    + destruct r1 as [|h1 [|h2 [|h3 [|h4 r2]]]]; try discriminate.
      destruct (hex4 h1 h2 h3 h4); [|discriminate].
      destruct (scan_string r2) as [[ps' r3]|] eqn:E; [|discriminate].
      intros [= <- <-].
      assert (String.length r3 < String.length r2)%nat by (eapply (IH (String.length r2)); eauto; simpl in *; lia).
      simpl in *. lia.
    + destruct (simple_escape e); [|discriminate].
      destruct (scan_string r1) as [[ps' r2]|] eqn:E; [|discriminate].
      intros [= <- <-].
      assert (String.length r2 < String.length r1)%nat by (eapply (IH (String.length r1)); eauto; simpl in *; lia).
      simpl in *. lia.
  - destruct (nat_of_ascii c <? 32)%nat; [discriminate|].
    destruct (scan_string s0) as [[ps' r1]|] eqn:E; [|discriminate].
    intros [= <- <-].
    assert (String.length r1 < String.length s0)%nat by (eapply (IH (String.length s0)); eauto; lia).
    simpl in *. lia.
Qed.

Lemma parse_string_len (s r str : string) :
  parse_string s = Some (str, r) -> (String.length r < String.length s)%nat.
Proof.
  unfold parse_string.
  destruct (scan_string s) as [[ps r']|] eqn:E; [|discriminate].
  intros [= <- <-]. now apply scan_string_len in E.
Qed.

(** One step of each of the three parsers. *)
Lemma parse_value_S (f : nat) (s : string) :
  parse_value (S f) s
  = match skip_ws s with
    | EmptyString => None
    | String c r =>
        if Ascii.eqb c "{" then
          match starts_with "}" (skip_ws r) with
          | Some r' => Some (VObj [], r')
          | None => parse_members f r []
          end
        else if Ascii.eqb c "[" then
          match starts_with "]" (skip_ws r) with
          | Some r' => Some (VArr [], r')
          | None => parse_elements f r []
          end
        else if Ascii.eqb c DQUOTE then
          match parse_string r with
          | Some (str, r') => Some (VStr str, r')
          | None => None
          end
        else
          match strip_prefix "true" (String c r),
                strip_prefix "false" (String c r),
                strip_prefix "null" (String c r) with
          | Some r', _, _ => Some (VBool true, r')
          | _, Some r', _ => Some (VBool false, r')
          | _, _, Some r' => Some (VNull, r')
          | None, None, None =>
              match parse_number (String c r) with
              | Some (n, r') => Some (VNum n, r')
              | None => None
              end
          end
    end.
Proof. simpl. destruct (skip_ws s); reflexivity. Qed.

Lemma parse_elements_S (f : nat) (s : string) (acc : list value) :
  parse_elements (S f) s acc
  = match parse_value f s with
    | Some (v, r) =>
        match skip_ws r with
        | String c r' =>
            if Ascii.eqb c "," then parse_elements f r' (v :: acc)
            else if Ascii.eqb c "]" then Some (VArr (rev (v :: acc)), r')
            else None
        | EmptyString => None
        end
    | None => None
    end.
Proof. reflexivity. Qed.

Lemma parse_members_S (f : nat) (s : string) (acc : list (string * value)) :
  parse_members (S f) s acc
  = match starts_with DQUOTE (skip_ws s) with
    | None => None
    | Some r0 =>
        match parse_string r0 with
        | None => None
        | Some (k, r1) =>
            match starts_with ":" (skip_ws r1) with
            | None => None
            | Some r2 =>
                match parse_value f r2 with
                | None => None
                | Some (v, r3) =>
                    match skip_ws r3 with
                    | String c r' =>
                        if Ascii.eqb c "," then parse_members f r' ((k, v) :: acc)
                        else if Ascii.eqb c "}" then
                          Some (VObj (rev ((k, v) :: acc)), r')
                        else None
                    | EmptyString => None
                    end
                end
            end
        end
    end.
Proof. reflexivity. Qed.

(** A successful parse consumes something, and succeeds with the same
    result on any fuel of at least twice what it consumed. *)
Lemma parsers_fuel_free (f : nat) :
  (forall s v r,
      parse_value f s = Some (v, r) ->
      (String.length r < String.length s)%nat
      /\ forall g, (2 * (String.length s - String.length r) <= g)%nat -> parse_value g s = Some (v, r))
  /\ (forall s acc v r,
        parse_elements f s acc = Some (v, r) ->
        (String.length r < String.length s)%nat
        /\ forall g, (2 * (String.length s - String.length r) <= g)%nat ->
                     parse_elements g s acc = Some (v, r))
  /\ (forall s acc v r,
        parse_members f s acc = Some (v, r) ->
        (String.length r < String.length s)%nat
        /\ forall g, (2 * (String.length s - String.length r) <= g)%nat ->
                     parse_members g s acc = Some (v, r)).
Proof.
  induction f as [|f (IHv & IHe & IHm)];
    [repeat split; intros; discriminate|].
  split; [|split].
  - intros s v r. rewrite parse_value_S.
    pose proof (skip_ws_len s) as Ls.
    destruct (skip_ws s) as [|c r0] eqn:E; [discriminate|]. simpl in Ls.
    pose proof (skip_ws_len r0) as L0.
    destruct (Ascii.eqb c "{") eqn:Eo;
      [|destruct (Ascii.eqb c "[") eqn:Ea;
        [|destruct (Ascii.eqb c DQUOTE) eqn:Eq]].
    + destruct (starts_with "}" (skip_ws r0)) as [r'|] eqn:Eb.
      * intros [= <- <-]. apply starts_with_len in Eb as Lb.
        split; [lia|]. intros [|g] Hg; [lia|].
        now rewrite parse_value_S, E, Eo, Eb.
      * intros H. apply IHm in H as [Hl Hg]. split; [lia|].
        intros [|g] Hb; [lia|]. rewrite parse_value_S, E, Eo, Eb.
        apply Hg. lia.
    + destruct (starts_with "]" (skip_ws r0)) as [r'|] eqn:Eb.
      * intros [= <- <-]. apply starts_with_len in Eb as Lb.
        split; [lia|]. intros [|g] Hg; [lia|].
        now rewrite parse_value_S, E, Eo, Ea, Eb.
      * intros H. apply IHe in H as [Hl Hg]. split; [lia|].
        intros [|g] Hb; [lia|]. rewrite parse_value_S, E, Eo, Ea, Eb.
        apply Hg. lia.
    + destruct (parse_string r0) as [[str r']|] eqn:Es; [|discriminate].
      intros [= <- <-]. apply parse_string_len in Es as Lp.
      split; [lia|]. intros [|g] Hg; [lia|].
      now rewrite parse_value_S, E, Eo, Ea, Eq, Es.
    + intros H.
      assert (Hl : (String.length r < String.length (String c r0))%nat).
      { destruct (strip_prefix "true" (String c r0)) as [r1|] eqn:E1;
          [injection H as <- <-; apply strip_prefix_len in E1; simpl in *; lia|].
        destruct (strip_prefix "false" (String c r0)) as [r2|] eqn:E2;
          [injection H as <- <-; apply strip_prefix_len in E2; simpl in *; lia|].
        destruct (strip_prefix "null" (String c r0)) as [r3|] eqn:E3;
          [injection H as <- <-; apply strip_prefix_len in E3; simpl in *; lia|].
        destruct (parse_number (String c r0)) as [[n r4]|] eqn:E4;
          [|discriminate].
        injection H as <- <-. now apply parse_number_len in E4. }
      simpl in Hl. split; [lia|]. intros [|g] Hg; [lia|].
      now rewrite parse_value_S, E, Eo, Ea, Eq.
  - intros s acc v r. rewrite parse_elements_S.
    destruct (parse_value f s) as [[v1 r1]|] eqn:Ev; [|discriminate].
    destruct (IHv _ _ _ Ev) as [L1 G1].
    pose proof (skip_ws_len r1) as Lr.
    destruct (skip_ws r1) as [|c r'] eqn:E; [discriminate|]. simpl in Lr.
    destruct (Ascii.eqb c ",") eqn:Ec; [|destruct (Ascii.eqb c "]") eqn:Eb].
    + intros H. apply IHe in H as [Hl Hg]. split; [lia|].
      intros [|g] Hb; [lia|]. rewrite parse_elements_S, (G1 g), E, Ec by lia.
      apply Hg. lia.
    + intros [= <- <-]. split; [lia|].
      intros [|g] Hb; [lia|]. now rewrite parse_elements_S, (G1 g), E, Ec, Eb by lia.
    + discriminate.
  - intros s acc v r. rewrite parse_members_S.
    pose proof (skip_ws_len s) as Ls.
    destruct (starts_with DQUOTE (skip_ws s)) as [r0|] eqn:E0; [|discriminate].
    apply starts_with_len in E0 as L0.
    destruct (parse_string r0) as [[k r1]|] eqn:Ek; [|discriminate].
    apply parse_string_len in Ek as Lk.
    pose proof (skip_ws_len r1) as Lr1.
    destruct (starts_with ":" (skip_ws r1)) as [r2|] eqn:E2; [|discriminate].
    apply starts_with_len in E2 as L2.
    destruct (parse_value f r2) as [[v1 r3]|] eqn:Ev; [|discriminate].
    destruct (IHv _ _ _ Ev) as [L3 G3].
    pose proof (skip_ws_len r3) as Lr3.
    destruct (skip_ws r3) as [|c r'] eqn:E; [discriminate|]. simpl in Lr3.
    destruct (Ascii.eqb c ",") eqn:Ec; [|destruct (Ascii.eqb c "}") eqn:Eb].
    + intros H. apply IHm in H as [Hl Hg]. split; [lia|].
      intros [|g] Hb; [lia|].
      rewrite parse_members_S, E0, Ek, E2, (G3 g), E, Ec by lia.
      apply Hg. lia.
    + intros [= <- <-]. split; [lia|].
      intros [|g] Hb; [lia|].
      now rewrite parse_members_S, E0, Ek, E2, (G3 g), E, Ec, Eb by lia.
    + discriminate.
Qed.

(** [JSON.parse] does not depend on its fuel: a text that parses with some
    fuel parses, to the same value, with the fuel [JSON_parse] gives. *)
Lemma JSON_parse_fuel_enough (f : nat) (s : string) (v : value) (r : string) :
  parse_value f s = Some (v, r) ->
  parse_value (2 * String.length s + 2) s = Some (v, r).
Proof.
  intros H. destruct (proj1 (parsers_fuel_free f) _ _ _ H) as [_ G].
  apply G. lia.
Qed.

Lemma strip_prefix_sound (p s r : string) :
  strip_prefix p s = Some r -> s = p ++ r.
Proof.
  revert s. induction p as [|a p IH]; intros s; simpl.
  - now intros [= ->].
  - destruct s as [|c s]; [discriminate|].
    destruct (Ascii.eqb_spec a c) as [->|]; [|discriminate].
    intros H. now rewrite (IH _ H).
Qed.

Lemma strip_any_sound (ps : list string) (s r : string) :
  strip_any ps s = Some r -> exists p, In p ps /\ s = p ++ r.
Proof.
  induction ps as [|p ps IH]; simpl; [discriminate|].
  destruct (strip_prefix p s) as [r'|] eqn:E.
  - intros [= <-]. exists p. split; [now left|]. now apply strip_prefix_sound.
  - intros H. destruct (IH H) as (q & Hq & ->). exists q. split; [now right|reflexivity].
Qed.

(** No whitespace sequence is stripped from a text whose first byte begins
    none. *)
Lemma strip_any_none (c : ascii) (r : string) :
  ws_start c = false -> strip_any white_space (String c r) = None.
Proof.
  unfold ws_start. intros H.
  assert (G : forall ps,
             existsb (fun p => match p with
                               | String a _ => Ascii.eqb a c
                               | EmptyString => false
                               end) ps = false ->
             Forall (fun p => p <> "") ps ->
             strip_any ps (String c r) = None).
  { induction ps as [|p ps IH]; simpl; [reflexivity|].
    intros E F. apply orb_false_iff in E as [E1 E2].
    inversion F as [|? ? Hp F']; subst.
    destruct p as [|a p]; [congruence|]. simpl. rewrite E1. now apply IH. }
  apply G; [exact H|]. repeat constructor; discriminate.
Qed.

Lemma json_ws_is_stripped (a : ascii) (l : string) :
  is_json_ws a = true -> strip_any white_space (String a l) = Some l.
Proof.
  unfold is_json_ws. intros H.
  repeat (apply orb_true_iff in H as [H|H]);
    apply Ascii.eqb_eq in H; subst a; reflexivity.
Qed.

Lemma skip_ws_head (s : string) (c : ascii) (r : string) :
  skip_ws s = String c r -> is_json_ws c = false.
Proof.
  induction s as [|a s IH]; simpl; [discriminate|].
  destruct (is_json_ws a) eqn:E; [exact IH|].
  now intros [= <- <-].
Qed.

Lemma skip_ws_idem (s : string) : skip_ws (skip_ws s) = skip_ws s.
Proof.
  induction s as [|a s IH]; simpl; [reflexivity|].
  destruct (is_json_ws a) eqn:E; [exact IH|]. simpl. now rewrite E.
Qed.

(** [trimStart] goes at least as far as the JSON whitespace goes. *)
Lemma trimStart_skip_ws (s : string) : trimStart s = trimStart (skip_ws s).
Proof.
  unfold trimStart. induction s as [|a s IH]; [reflexivity|].
  cbn [skip_ws]. destruct (is_json_ws a) eqn:E; [|reflexivity].
  cbn [String.length trim_start_fuel]. now rewrite (json_ws_is_stripped a s E).
Qed.

Lemma trimStart_token (c : ascii) (r : string) :
  ws_start c = false -> trimStart (String c r) = String c r.
Proof.
  intros H. unfold trimStart. cbn [String.length trim_start_fuel].
  now rewrite (strip_any_none c r H).
Qed.

Lemma rev_string_app (a b : string) :
  rev_string (a ++ b) = rev_string b ++ rev_string a.
Proof.
  induction a as [|c a IH]; simpl.
  - now rewrite append_empty_r.
  - now rewrite IH, append_assoc.
Qed.

Lemma rev_string_empty (s : string) : rev_string s = "" -> s = "".
Proof.
  destruct s as [|c s]; [reflexivity|]. simpl.
  destruct (rev_string s); discriminate.
Qed.

Lemma last_char_app (p r : string) :
  r <> "" -> last_char (p ++ r) = last_char r.
Proof.
  intros H. unfold last_char. rewrite rev_string_app.
  destruct (rev_string r) as [|c x] eqn:E; [|reflexivity].
  now apply rev_string_empty in E.
Qed.

(** A text that [trim_start_fuel] strips completely ends the way one of the
    stripped sequences ends. *)
Lemma stripped_completely (ps : list string) (fuel : nat) (x : string) :
  trim_start_fuel fuel ps x = "" ->
  x = "" \/ exists p, In p ps /\ p <> "" /\ last_char x = last_char p.
Proof.
  revert x. induction fuel as [|f IH]; intros x; simpl.
  - now left.
  - destruct (strip_any ps x) as [r|] eqn:E; [|now left].
    intros H. destruct (strip_any_sound _ _ _ E) as (p & Hp & ->).
    destruct (IH r H) as [->|(q & Hq & Hne & Hl)].
    + rewrite append_empty_r. destruct p as [|a p]; [now left|].
      right. exists (String a p). repeat split; [assumption|discriminate].
    + right. exists q. repeat split; try assumption.
      rewrite last_char_app; [exact Hl|].
      intros ->. destruct q as [|a q]; [congruence|].
      unfold last_char in Hl. simpl in Hl.
      destruct (rev_string q ++ String a "") eqn:F; [|discriminate].
      destruct (rev_string q); discriminate.
Qed.

Lemma last_char_rev (c : ascii) (r : string) :
  last_char (rev_string (String c r)) = Some c.
Proof.
  unfold last_char. simpl. now rewrite rev_string_app.
Qed.

Lemma reversed_ws_ends_with_start (p : string) (a : ascii) :
  In p (map rev_string white_space) -> last_char p = Some a -> ws_start a = true.
Proof.
  intros H. revert a.
  assert (F : Forall (fun p => forall a, last_char p = Some a -> ws_start a = true)
                     (map rev_string white_space)).
  { repeat constructor; intros a [= <-]; reflexivity. }
  rewrite Forall_forall in F. now apply F.
Qed.

(** A text whose first byte, JSON whitespace apart, begins no whitespace
    sequence is not blank. *)
Lemma token_is_nonblank (s : string) (c : ascii) (r : string) :
  skip_ws s = String c r -> ws_start c = false -> nonblank s = true.
Proof.
  intros Hs Hc. unfold nonblank, trim.
  rewrite trimStart_skip_ws, Hs, (trimStart_token c r Hc).
  unfold trimEnd.
  destruct (trim_start_fuel (String.length (String c r))
              (map rev_string white_space) (rev_string (String c r)))
    as [|a x] eqn:E.
  - apply stripped_completely in E as [E|(p & Hp & Hne & Hl)].
    + apply rev_string_empty in E. discriminate.
    + rewrite last_char_rev in Hl. symmetry in Hl.
      rewrite (reversed_ws_ends_with_start p c Hp Hl) in Hc. discriminate.
  - simpl. destruct (rev_string x ++ String a "") eqn:F; [|reflexivity].
    destruct (rev_string x); discriminate.
Qed.

Lemma parse_value_skip (f : nat) (s : string) :
  parse_value f s = parse_value f (skip_ws s).
Proof. destruct f; [reflexivity|]. simpl. now rewrite skip_ws_idem. Qed.

Lemma parse_value_ws_start (f : nat) (c : ascii) (r : string) :
  ws_start c = true -> is_json_ws c = false ->
  parse_value f (String c r) = None.
Proof.
  destruct f; [reflexivity|]. unfold ws_start, white_space. cbn [existsb].
  intros H J.
  repeat (apply orb_true_iff in H as [H|H]); try discriminate;
    apply Ascii.eqb_eq in H; subst c; try discriminate; reflexivity.
Qed.

(** Every text that [JSON.parse] accepts is a line the consumers act on. *)
Lemma parsed_is_nonblank (s : string) (v : value) :
  JSON_parse s = Some v -> nonblank s = true.
Proof.
  unfold JSON_parse. rewrite parse_value_skip.
  destruct (skip_ws s) as [|c r] eqn:E.
  - now destruct (2 * String.length s + 2)%nat.
  - destruct (ws_start c) eqn:W.
    + rewrite (parse_value_ws_start _ c r W (skip_ws_head _ _ _ E)). discriminate.
    + intros _. now apply (token_is_nonblank s c r).
Qed.

(** ** The reader loop as a fold over lines *)

Section LoopFacts.
Context {St Eff : Type}.
Variable body : St -> string -> list Eff * result St.

Lemma for_of_app (st : St) (l1 l2 : list string) :
  for_of body st (l1 ++ l2)
  = match for_of body st l1 with
    | (es, Ok st') =>
        let '(es', r) := for_of body st' l2 in ((es ++ es')%list, r)
    | (es, Throw e) => (es, Throw e)
    end.
Proof.
  revert st. induction l1 as [|l l1 IH]; intros st; simpl.
  - now destruct (for_of body st l2).
  - destruct (body st l) as [es [st'|e]]; [|reflexivity].
    rewrite IH. destruct (for_of body st' l1) as [es1 [st1|e1]].
    + destruct (for_of body st1 l2) as [es2 r]. now rewrite app_assoc.
    + reflexivity.
Qed.

Lemma read_loop_flat (lines_of : string -> list string) (st : St)
      (chunks : list string) :
  read_loop body lines_of st chunks
  = for_of body st (flat_map lines_of chunks).
Proof.
  revert st. induction chunks as [|c chunks IH]; intros st; simpl.
  - reflexivity.
  - rewrite for_of_app.
    destruct (for_of body st (lines_of c)) as [es [st'|e]]; [|reflexivity].
    now rewrite IH.
Qed.

(** A body that passes over blank lines does not see them. *)
Hypothesis skips : forall st l, nonblank l = false -> body st l = ([], Ok st).

Lemma for_of_filter (st : St) (ls : list string) :
  for_of body st (filter nonblank ls) = for_of body st ls.
Proof.
  revert st. induction ls as [|l ls IH]; intros st; simpl; [reflexivity|].
  destruct (nonblank l) eqn:E; simpl.
  - destruct (body st l) as [es [st'|e]]; [|reflexivity]. now rewrite IH.
  - rewrite (skips st l E), IH. now destruct (for_of body st ls).
Qed.

Lemma read_loop_lines (st : St) (chunks : list string) :
  read_loop body split_nl st chunks = for_of body st (lines chunks).
Proof. unfold lines. now rewrite read_loop_flat, for_of_filter. Qed.
End LoopFacts.

Lemma update_line_blank (st : value) (l : string) :
  nonblank l = false -> Page.update_line st l = ([], Ok st).
Proof. intros H. unfold Page.update_line. now rewrite H. Qed.

Lemma page_pull_line_blank (st : value) (l : string) :
  nonblank l = false -> Page.pull_line st l = ([], Ok st).
Proof. intros H. unfold Page.pull_line. now rewrite H. Qed.

(** Each consumer is a fold of its loop body over [lines]. *)
Lemma processUpdateStream_lines (chunks : list string) :
  Page.processUpdateStream chunks
  = for_of Page.update_line (VStr "") (lines chunks).
Proof. apply read_loop_lines, update_line_blank. Qed.

Lemma page_pull_loop_lines (chunks : list string) :
  Page.pull_loop chunks = for_of Page.pull_line (VStr "") (lines chunks).
Proof. apply read_loop_lines, page_pull_line_blank. Qed.

Lemma app_pull_loop_lines (dom : App.Dom) (chunks : list string) :
  App.pull_loop dom chunks
  = for_of (App.pull_line dom) "downloading" (lines chunks).
Proof.
  unfold App.pull_loop, App.lines_of, lines.
  now rewrite read_loop_flat, filter_flat_map.
Qed.

(** Two streams with the same lines are consumed alike. *)
Lemma same_lines_same_run (xs ys : list string) :
  lines xs = lines ys ->
  records xs = records ys
  /\ Page.processUpdateStream xs = Page.processUpdateStream ys
  /\ Page.updateModel xs = Page.updateModel ys
  /\ Page.pullModel xs = Page.pullModel ys
  /\ forall dom modelName,
       App.pullModel dom modelName xs = App.pullModel dom modelName ys.
Proof.
  intros H.
  assert (Hu : Page.processUpdateStream xs = Page.processUpdateStream ys)
    by now rewrite !processUpdateStream_lines, H.
  repeat split.
  - unfold records. now rewrite H.
  - exact Hu.
  - unfold Page.updateModel. now rewrite Hu.
  - unfold Page.pullModel. now rewrite !page_pull_loop_lines, H.
  - intros dom modelName. unfold App.pullModel.
    now rewrite !app_pull_loop_lines, H.
Qed.

(** ** C1: chunk boundaries *)

(** C1, as amended.  The consumers cut every chunk into lines on its own
    and carry nothing over to the next chunk.  So two partitions of the same
    text are consumed alike (same lines, same parsed records, same effects
    and same ending of [processUpdateStream], [updateModel] and both
    [pullModel]s) when each of their cuts is next to a line feed. *)
Theorem demux_partitions_at_line_feeds (xs ys : list string) :
  payload xs = payload ys ->
  aligned "" xs = true ->
  aligned "" ys = true ->
  lines xs = lines ys
  /\ records xs = records ys
  /\ Page.processUpdateStream xs = Page.processUpdateStream ys
  /\ Page.updateModel xs = Page.updateModel ys
  /\ Page.pullModel xs = Page.pullModel ys
  /\ forall dom modelName,
       App.pullModel dom modelName xs = App.pullModel dom modelName ys.
Proof.
  intros Hp Hx Hy.
  assert (H : lines xs = lines ys)
    by now rewrite <- (lines_payload xs Hx), <- (lines_payload ys Hy), Hp.
  split; [exact H|]. now apply same_lines_same_run.
Qed.

Lemma demux_partitions_at_line_feeds_witness :
  payload two_records_by_line = payload two_records_lf_first
  /\ aligned "" two_records_by_line = true
  /\ aligned "" two_records_lf_first = true
  /\ Page.processUpdateStream two_records_by_line
     = Page.processUpdateStream two_records_lf_first.
Proof.
  split; [reflexivity|]. split; [reflexivity|]. split; [reflexivity|].
  exact (proj1 (proj2 (proj2
           (demux_partitions_at_line_feeds
              two_records_by_line two_records_lf_first
              eq_refl eq_refl eq_refl)))).
Defined.

(** C1 fails as stated: the well-formed one-line payload
    [{"status":"success"}\n] cut inside the line gives no record and no
    label, while the uncut payload gives one of each. *)
Lemma demux_cut_inside_line_differs :
  well_formed one_record = true
  /\ payload one_record_cut = one_record
  /\ records [one_record] = [VObj [("status", VStr "success")]]
  /\ records one_record_cut = []
  /\ Page.renders (fst (Page.processUpdateStream [one_record]))
     = [VStr "success"]
  /\ Page.renders (fst (Page.processUpdateStream one_record_cut)) = []
  /\ App.labels (fst (App.pull_loop App.full_dom [one_record]))
     = [App.Lit "Pull completed successfully"]
  /\ App.labels (fst (App.pull_loop App.full_dom one_record_cut)) = [].
Proof. vm_compute. repeat split. Qed.

(** ** C8: a line that is not JSON *)

Section Insertion.
Context {St Eff : Type}.
Variable body : St -> string -> list Eff * result St.
Variable keep : Eff -> bool.

(** A line on which the body only does things [keep] drops, and leaves
    the loop variables alone, can be taken out of the list. *)
Lemma for_of_insert (bad : list string) (A B : list string) (st : St) :
  (forall st l, In l bad ->
      exists es, body st l = (es, Ok st) /\ filter keep es = []) ->
  filter keep (fst (for_of body st (A ++ bad ++ B)))
  = filter keep (fst (for_of body st (A ++ B)))
  /\ snd (for_of body st (A ++ bad ++ B)) = snd (for_of body st (A ++ B)).
Proof.
  intros Hbad.
  assert (Hb : forall st, exists es,
               for_of body st bad = (es, Ok st) /\ filter keep es = []).
  { clear A B st. induction bad as [|l bad' IH]; intros st; simpl.
    - now exists [].
    - destruct (Hbad st l (or_introl eq_refl)) as (es & -> & Hes).
      destruct (IH (fun st l H => Hbad st l (or_intror H)) st)
        as (es' & -> & Hes').
      exists (es ++ es')%list. now rewrite filter_app, Hes, Hes'. }
  rewrite !(for_of_app body st A).
  destruct (for_of body st A) as [esA [st'|e]]; [|now split].
  rewrite (for_of_app body st' bad B).
  destruct (Hb st') as (es & -> & Hes).
  destruct (for_of body st' B) as [esB r]. simpl.
  now rewrite !filter_app, Hes.
Qed.
End Insertion.

Lemma whole_lines_cut (a b : string) : whole_lines a = true -> cut_ok a b = true.
Proof.
  unfold whole_lines, cut_ok. intros H.
  apply orb_true_iff in H as [->| ->]; simpl; [reflexivity|].
  now rewrite !orb_true_r.
Qed.

(** The lines of a stream with one more line, [bad], put at a line
    boundary of one of its chunks. *)
Lemma lines_with_line (bad before after : string) (xs ys : list string) :
  has_lf bad = false ->
  whole_lines before = true ->
  lines (xs ++ [before ++ bad ++ nl ++ after] ++ ys)
  = ((lines xs ++ filter nonblank (split_nl before))
     ++ filter nonblank [bad]
     ++ (filter nonblank (split_nl after) ++ lines ys))%list
  /\ lines (xs ++ [before ++ after] ++ ys)
     = ((lines xs ++ filter nonblank (split_nl before))
        ++ (filter nonblank (split_nl after) ++ lines ys))%list.
Proof.
  intros Hlf Hw. rewrite !lines_app_chunks, !lines_single.
  rewrite !(lines_app before _ (whole_lines_cut _ _ Hw)).
  unfold nl, split_nl. simpl.
  rewrite split_on_app_sep, filter_app.
  change (split_on LF bad) with (split_nl bad).
  rewrite (split_nl_single bad Hlf).
  split; now rewrite <- !app_assoc.
Qed.

Lemma update_line_invalid (st : value) (bad : string) :
  JSON_parse bad = None ->
  Page.update_line st bad
  = (if nonblank bad
     then [Page.ConsoleError "Error parsing update:" SyntaxError] else [],
     Ok st).
Proof.
  intros H. unfold Page.update_line. rewrite H.
  now destruct (nonblank bad).
Qed.

Lemma page_pull_line_invalid (st : value) (bad : string) :
  JSON_parse bad = None ->
  Page.pull_line st bad
  = (if nonblank bad
     then [Page.ConsoleError "Error parsing update:" SyntaxError] else [],
     Ok st).
Proof.
  intros H. unfold Page.pull_line, Page.pull_try. rewrite H.
  now destruct (nonblank bad).
Qed.

Lemma app_pull_line_invalid (dom : App.Dom) (st : string) (bad : string) :
  JSON_parse bad = None ->
  App.pull_line dom st bad
  = ([App.ConsoleError "Error processing stream data:" SyntaxError], Ok st).
Proof. intros H. unfold App.pull_line. now rewrite H. Qed.

(** C8.  On the stream of the example the application script shows exactly
    two labels (the download at 50 percent, then the success text) and the
    legacy page two as well.  In general a line [bad] that [JSON.parse]
    rejects is logged with [console.error] and changes nothing else: on
    reaching it each loop body leaves its variables as they were, and a
    stream with [bad] put at any line boundary of any chunk has the same
    display effects and the same ending as the stream without it. *)
Theorem invalid_line_is_logged_and_skipped
        (bad before after : string) (xs ys : list string)
        (Hline : has_lf bad = false)
        (Hbad : JSON_parse bad = None)
        (Hcut : whole_lines before = true) :
  let with_bad := (xs ++ [(before ++ bad ++ nl ++ after)%string] ++ ys)%list in
  let without := (xs ++ [(before ++ after)%string] ++ ys)%list in
  (App.labels (fst (App.pull_loop App.full_dom [with_invalid_line]))
   = [App.Downloading (Fin 50) (VNum (Fin 1)) (VNum (Fin 2));
      App.Lit "Pull completed successfully"]
   /\ Page.renders (fst (Page.processUpdateStream [with_invalid_line]))
      = [VStr "Downloading: 50.0%"; VStr "success"])
  /\ (forall dom st,
        App.pull_line dom st bad
        = ([App.ConsoleError "Error processing stream data:" SyntaxError], Ok st))
  /\ (forall st,
        nonblank bad = true ->
        Page.update_line st bad
        = ([Page.ConsoleError "Error parsing update:" SyntaxError], Ok st)
        /\ Page.pull_line st bad
           = ([Page.ConsoleError "Error parsing update:" SyntaxError], Ok st))
  /\ (forall dom,
        App.display (fst (App.pull_loop dom with_bad))
        = App.display (fst (App.pull_loop dom without))
        /\ snd (App.pull_loop dom with_bad) = snd (App.pull_loop dom without))
  /\ (Page.display (fst (Page.processUpdateStream with_bad))
      = Page.display (fst (Page.processUpdateStream without))
      /\ snd (Page.processUpdateStream with_bad)
         = snd (Page.processUpdateStream without))
  /\ (Page.display (fst (Page.pull_loop with_bad))
      = Page.display (fst (Page.pull_loop without))
      /\ snd (Page.pull_loop with_bad) = snd (Page.pull_loop without)).
Proof.
  intros with_bad without.
  destruct (lines_with_line bad before after xs ys Hline Hcut) as [L1 L2].
  fold with_bad in L1. fold without in L2.
  split; [split; vm_compute; reflexivity|].
  split; [intros; now apply app_pull_line_invalid|].
  split.
  { intros st Hnb.
    rewrite (update_line_invalid st bad Hbad),
            (page_pull_line_invalid st bad Hbad), Hnb. now split. }
  split; [|split].
  - intros dom. rewrite !app_pull_loop_lines, L1, L2.
    apply for_of_insert. intros st l Hl.
    apply filter_In in Hl as [Hl _]. destruct Hl as [<-|[]].
    exists [App.ConsoleError "Error processing stream data:" SyntaxError].
    split; [now apply app_pull_line_invalid|reflexivity].
  - rewrite !processUpdateStream_lines, L1, L2.
    apply for_of_insert. intros st l Hl.
    apply filter_In in Hl as [Hl _]. destruct Hl as [<-|[]].
    rewrite (update_line_invalid st bad Hbad).
    eexists; split; [reflexivity|]. now destruct (nonblank bad).
  - rewrite !page_pull_loop_lines, L1, L2.
    apply for_of_insert. intros st l Hl.
    apply filter_In in Hl as [Hl _]. destruct Hl as [<-|[]].
    rewrite (page_pull_line_invalid st bad Hbad).
    eexists; split; [reflexivity|]. now destruct (nonblank bad).
Qed.

Lemma invalid_line_is_logged_and_skipped_witness :
  has_lf "NOT JSON" = false
  /\ JSON_parse "NOT JSON" = None
  /\ Page.display
       (fst (Page.processUpdateStream
               ([] ++ [(json_text "{'status':'downloading','completed':1,'total':2}" ++ nl)
                       ++ "NOT JSON" ++ nl
                       ++ (json_text "{'status':'success'}" ++ nl)] ++ [])))
     = Page.display
         (fst (Page.processUpdateStream
                 ([] ++ [(json_text "{'status':'downloading','completed':1,'total':2}" ++ nl)
                         ++ (json_text "{'status':'success'}" ++ nl)] ++ []))).
Proof.
  split; [reflexivity|]. split; [reflexivity|].
  exact (proj1 (proj1 (proj2 (proj2 (proj2 (proj2
           (invalid_line_is_logged_and_skipped
              "NOT JSON"
              (json_text "{'status':'downloading','completed':1,'total':2}" ++ nl)
              (json_text "{'status':'success'}" ++ nl)
              [] [] eq_refl eq_refl eq_refl))))))).
Defined.

(** ** C2: the operation error record *)

(** An object has every property the console reads, at worst as
    [undefined]. *)
Lemma get_total (u : value) (k : string) (v : value) :
  get u k = Some v -> forall k', exists v', get u k' = Some v'.
Proof. destruct u; simpl; intros H k'; try discriminate; eauto. Qed.

(** What the per-line [catch] of [processUpdateStream], and that of the
    legacy [pullModel], do with an error record whose message is a
    non-empty string other than the default: they log it and go on to the
    next line. *)
Lemma update_line_error_with_message
      (update lastStatus : value) (line msg : string) :
  JSON_parse line = Some update ->
  get update "status" = Some (VStr "error") ->
  get update "error" = Some (VStr msg) ->
  msg <> "" ->
  msg <> "Update failed" ->
  Page.update_line lastStatus line
  = ([Page.ConsoleError "Error parsing update:" (Error msg)], Ok lastStatus).
Proof.
  intros Hp Hs He Hne Hd.
  unfold Page.update_line, Page.handleUpdateStatus, Page.error_or.
  rewrite (parsed_is_nonblank _ _ Hp), Hp, Hs, He. simpl.
  destruct (get_total _ _ _ Hs "completed") as (c & ->).
  destruct (get_total _ _ _ Hs "total") as (t & ->). simpl.
  assert (Ht : nonempty msg = true) by (destruct msg; [congruence|reflexivity]).
  rewrite Ht. simpl.
  destruct (String.eqb_spec msg "Update failed"); [contradiction|reflexivity].
Qed.

Lemma page_pull_line_error_with_message
      (update lastStatus : value) (line msg : string) :
  JSON_parse line = Some update ->
  get update "status" = Some (VStr "error") ->
  get update "error" = Some (VStr msg) ->
  msg <> "" ->
  msg <> "Pull failed" ->
  Page.pull_line lastStatus line
  = ([Page.ConsoleError "Error parsing update:" (Error msg)], Ok lastStatus).
Proof.
  intros Hp Hs He Hne Hd.
  unfold Page.pull_line, Page.pull_try, Page.error_or.
  rewrite (parsed_is_nonblank _ _ Hp), Hp, Hs, He.
  destruct (get_total _ _ _ Hs "completed") as (c & ->).
  destruct (get_total _ _ _ Hs "total") as (t & ->). simpl.
  assert (Ht : nonempty msg = true) by (destruct msg; [congruence|reflexivity]).
  rewrite Ht. simpl.
  destruct (String.eqb_spec msg "Pull failed"); [contradiction|reflexivity].
Qed.

(** C2, evaluated.  On a stream whose first record is
    [{"status":"error","error":"disk full"}] both consumers of the legacy
    page catch the error they have just thrown, because its message is
    neither ['Update failed'] nor ['Pull failed'], log it, render the next
    record and finish with the completion text.  Only an error record
    without a message of its own ends the stream and is reported. *)
Theorem disk_full_error_is_swallowed :
  Page.updateModel disk_full_stream
  = [Page.StatusText (VStr "Starting update...");
     Page.ConsoleError "Error parsing update:" (Error "disk full");
     Page.StatusText (VStr "success");
     Page.StatusText (VStr "Update complete");
     Page.SetTimeout Page.ClearStatusAndRefresh 2000]
  /\ Page.pullModel disk_full_stream
     = [Page.StatusClass ""; Page.StatusText (VStr "Starting pull...");
        Page.ProgressDisplay "none";
        Page.ConsoleError "Error parsing update:" (Error "disk full");
        Page.StatusText (VStr "success"); Page.StatusClass "success";
        Page.ProgressDisplay "none"; Page.StatusText (VStr "Pull complete");
        Page.StatusClass "success";
        Page.SetTimeout Page.ResetPullAndRefresh 2000]
  /\ Page.updateModel bare_error_stream
     = [Page.StatusText (VStr "Starting update...");
        Page.ConsoleError "Update error:" (Error "Update failed");
        Page.StatusError (Error "Update failed");
        Page.SetTimeout Page.ClearStatus 5000]
  /\ Page.pullModel bare_error_stream
     = [Page.StatusClass ""; Page.StatusText (VStr "Starting pull...");
        Page.ProgressDisplay "none";
        Page.ConsoleError "Pull error:" (Error "Pull failed");
        Page.ProgressDisplay "none";
        Page.StatusError (Error "Pull failed"); Page.StatusClass "error";
        Page.SetTimeout Page.ClearStatus 5000].
Proof. repeat split; vm_compute; reflexivity. Qed.

(** ** C7: the download percentage *)

(** The application script guards the division: the percentage is [0]
    whenever [total] is not above zero. *)
Lemma app_percent_guarded (completed total : value) :
  gt0 (ToNumber total) = false -> App.percent_of completed total = Zero false.
Proof. intros H. unfold App.percent_of. now rewrite H. Qed.

(** [Math.round] gives the integer nearest to a finite number, the upper
    one of two equally near. *)
Lemma Math_round_nearest (x : Num) (q : Q) :
  exact x = Some q ->
  exists p : Z,
    exact (Math_round x) = Some (inject_Z p)
    /\ (inject_Z p - (1 # 2) <= q)%Q /\ (q < inject_Z p + (1 # 2))%Q.
Proof.
  destruct x as [|n|n|x]; try discriminate; intros H; injection H as <-.
  - exists 0%Z. split; [reflexivity|]. change (inject_Z 0) with 0%Q. split; lra.
  - exists (Qfloor (x + (1 # 2))).
    pose proof (Qfloor_le (x + (1 # 2))) as Hlo.
    pose proof (Qlt_floor (x + (1 # 2))) as Hhi.
    rewrite inject_Z_plus in Hhi. change (inject_Z 1) with 1%Q in Hhi.
    split; [|split; lra].
    unfold Math_round.
    destruct (Z.eqb_spec (Qfloor (x + (1 # 2))) 0) as [E|E];
      [now rewrite E|reflexivity].
Qed.

(** C7, as amended.  For a record with status [downloading] whose
    [completed] and [total] convert to numbers:
    - [pullModel] of the application script sets the bar and the label to
      [percent_of completed total], which is
      [Math.round((completed / total) * 100)] when [total > 0], that is the
      integer nearest to the product (the upper one of two equally near),
      and [0] otherwise, so the division is guarded there;
    - [handleUpdateStatus] shows [(completed / total) * 100] with one
      decimal ([toFixed(1)]) when [total > 0].
    The quotient and the product are those of double arithmetic. *)
Theorem download_percentage (update completed total : value)
        (Hs : get update "status" = Some (VStr "downloading"))
        (Hc : get update "completed" = Some completed)
        (Ht : get update "total" = Some total)
        (Cc : converts completed = true)
        (Ct : converts total = true) :
  let ratio := mul (div (ToNumber completed) (ToNumber total)) (of_Z 100) in
  (forall dom pullStatus line,
      JSON_parse line = Some update ->
      App.pull_line dom pullStatus line
      = ((App.when (App.progressBar dom)
            [App.BarWidth (App.percent_of completed total)]
          ++ App.when (App.progressElement dom)
               [App.ProgressText
                  (App.Downloading (App.percent_of completed total)
                                   completed total)])%list,
         Ok pullStatus))
  /\ (gt0 (ToNumber total) = true ->
        App.percent_of completed total = Math_round ratio
        /\ forall q : Q,
             exact ratio = Some q ->
             exists p : Z,
               exact (App.percent_of completed total) = Some (inject_Z p)
               /\ (inject_Z p - (1 # 2) <= q)%Q
               /\ (q < inject_Z p + (1 # 2))%Q)
  /\ (gt0 (ToNumber total) = false ->
        App.percent_of completed total = Zero false)
  /\ (gt0 (ToNumber total) = true ->
        Page.handleUpdateStatus update
        = Ok (VStr ("Downloading: " ++ toFixed 1 ratio ++ "%"))).
Proof.
  intros ratio.
  destruct (get_total _ _ _ Hs "error") as (e & He).
  split; [|split; [|split]].
  - intros dom pullStatus line Hp. unfold App.pull_line.
    rewrite Hp, Hs, Hc, Ht, Cc, Ct. cbn [negb orb].
    now rewrite andb_false_r.
  - intros G.
    assert (E : App.percent_of completed total = Math_round ratio)
      by (unfold App.percent_of; now rewrite G).
    split; [exact E|]. intros q Hq. rewrite E.
    now apply Math_round_nearest.
  - apply app_percent_guarded.
  - intros _. unfold Page.handleUpdateStatus.
    now rewrite Hs, He, Hc, Ht, Cc, Ct.
Qed.

Lemma download_percentage_witness :
  get part_done_record "status" = Some (VStr "downloading")
  /\ get part_done_record "completed" = Some (VNum (Fin 23))
  /\ get part_done_record "total" = Some (VNum (Fin 80))
  /\ converts (VNum (Fin 23)) = true
  /\ converts (VNum (Fin 80)) = true
  /\ gt0 (ToNumber (VNum (Fin 80))) = true
  /\ Page.handleUpdateStatus part_done_record
     = Ok (VStr "Downloading: 28.7%")
  /\ App.percent_of (VNum (Fin 23)) (VNum (Fin 80)) = Fin 29.
Proof.
  do 6 (split; [reflexivity|]).
  pose (H := download_percentage part_done_record (VNum (Fin 23)) (VNum (Fin 80))
               eq_refl eq_refl eq_refl eq_refl eq_refl).
  split.
  - exact (proj2 (proj2 (proj2 H)) eq_refl).
  - exact (proj1 (proj1 (proj2 H) eq_refl)).
Defined.

(** C7 fails as stated.  [handleUpdateStatus] divides without a guard: the
    record [{"status":"downloading","completed":0,"total":0}] is shown as
    [Downloading: NaN%], where the application script shows [0].  And with
    [total > 0] it shows one decimal, not the rounded value: one byte of
    three is [33.3], not [33], and two of three are [66.7].  (In the
    application script two bytes of three are 67 percent, and 23 of 40 are
    57: the product is the double [57.49999999999999].) *)
Lemma zero_total_gives_NaN_label :
  JSON_parse zero_total_line = Some zero_total_record
  /\ Page.handleUpdateStatus zero_total_record = Ok (VStr "Downloading: NaN%")
  /\ Page.renders (fst (Page.processUpdateStream [zero_total_line ++ nl]))
     = [VStr "Downloading: NaN%"]
  /\ App.labels (fst (App.pull_loop App.full_dom [zero_total_line ++ nl]))
     = [App.Downloading (Zero false) (VNum (Zero false)) (VNum (Zero false))]
  /\ Page.handleUpdateStatus
       (VObj [("status", VStr "downloading");
              ("completed", VNum (Fin 1)); ("total", VNum (Fin 3))])
     = Ok (VStr "Downloading: 33.3%")
  /\ Page.handleUpdateStatus
       (VObj [("status", VStr "downloading");
              ("completed", VNum (Fin 2)); ("total", VNum (Fin 3))])
     = Ok (VStr "Downloading: 66.7%")
  /\ App.percent_of (VNum (Fin 1)) (VNum (Fin 3)) = Fin 33
  /\ App.percent_of (VNum (Fin 2)) (VNum (Fin 3)) = Fin 67
  /\ App.percent_of (VNum (Fin 23)) (VNum (Fin 40)) = Fin 57.
Proof. repeat split; vm_compute; reflexivity. Qed.

(** ** C5: status labels *)

Lemma is_str_lit (s lit : string) : is_str (VStr s) lit = String.eqb s lit.
Proof. reflexivity. Qed.

Lemma eqb_ne (s lit : string) : s <> lit -> String.eqb s lit = false.
Proof. intros H. now apply String.eqb_neq. Qed.

(** C5, as amended.  No consumer implements the whole table.  For a record
    whose status is the string [status]:
    - [handleUpdateStatus] maps [verifying digest] to
      [Verifying download...], [writing manifest] to [Finalizing update...],
      and every status other than [error], [downloading] and these two to
      itself ([success] and [verifying] included);
    - [pullModel] of the application script shows [Verifying checksum...]
      for [verifying], [Pull completed successfully] for [success], and
      nothing at all for a status other than [downloading] and these two;
    - [pullModel] of the legacy page shows every status other than [error]
      and [downloading] verbatim, when it differs from the last one
      shown. *)
Theorem status_label_tables (update : value) (status : string)
        (Hs : get update "status" = Some (VStr status)) :
  (status = "verifying digest" ->
     Page.handleUpdateStatus update = Ok (VStr "Verifying download..."))
  /\ (status = "writing manifest" ->
        Page.handleUpdateStatus update = Ok (VStr "Finalizing update..."))
  /\ (status <> "error" -> status <> "downloading" ->
      status <> "verifying digest" -> status <> "writing manifest" ->
        Page.handleUpdateStatus update = Ok (VStr status))
  /\ (forall dom pullStatus line,
        JSON_parse line = Some update ->
        (status = "verifying" ->
           App.pull_line dom pullStatus line
           = (App.when (App.progressElement dom)
                [App.ProgressText (App.Lit "Verifying checksum...")],
              Ok "verifying"))
        /\ (status = "success" ->
              App.pull_line dom pullStatus line
              = (App.when (App.progressElement dom)
                   [App.ProgressText (App.Lit "Pull completed successfully")],
                 Ok "success"))
        /\ (status <> "downloading" -> status <> "verifying" ->
            status <> "success" ->
              App.pull_line dom pullStatus line = ([], Ok pullStatus)))
  /\ (forall lastStatus line,
        JSON_parse line = Some update ->
        status <> "error" -> status <> "downloading" ->
        Page.pull_line lastStatus line
        = if strict_eq (VStr status) lastStatus then ([], Ok lastStatus)
          else ([Page.StatusText (VStr status); Page.StatusClass "success"],
                Ok (VStr status))).
Proof.
  destruct (get_total _ _ _ Hs "error") as (e & He).
  destruct (get_total _ _ _ Hs "completed") as (c & Hc).
  destruct (get_total _ _ _ Hs "total") as (t & Ht).
  repeat split.
  - intros ->. unfold Page.handleUpdateStatus. rewrite Hs, He, Hc, Ht.
    reflexivity.
  - intros ->. unfold Page.handleUpdateStatus. rewrite Hs, He, Hc, Ht.
    reflexivity.
  - intros H1 H2 H3 H4. unfold Page.handleUpdateStatus.
    rewrite Hs, He, Hc, Ht, !is_str_lit.
    now rewrite (eqb_ne _ _ H1), (eqb_ne _ _ H2), (eqb_ne _ _ H3),
                (eqb_ne _ _ H4).
  - intros ->. unfold App.pull_line. rewrite H, Hs, Hc, Ht. reflexivity.
  - intros ->. unfold App.pull_line. rewrite H, Hs, Hc, Ht. reflexivity.
  - intros H1 H2 H3. unfold App.pull_line.
    rewrite H, Hs, Hc, Ht, !is_str_lit.
    now rewrite (eqb_ne _ _ H1), (eqb_ne _ _ H2), (eqb_ne _ _ H3).
  - intros lastStatus line Hp H1 H2.
    unfold Page.pull_line, Page.pull_try.
    rewrite (parsed_is_nonblank _ _ Hp), Hp, Hs, He, Hc, Ht, !is_str_lit.
    rewrite (eqb_ne _ _ H1), (eqb_ne _ _ H2).
    now destruct (strict_eq (VStr status) lastStatus).
Qed.

Lemma status_label_tables_witness :
  get (VObj [("status", VStr "verifying digest")]) "status"
  = Some (VStr "verifying digest")
  /\ Page.handleUpdateStatus (VObj [("status", VStr "verifying digest")])
     = Ok (VStr "Verifying download...").
Proof.
  split; [reflexivity|].
  exact (proj1 (status_label_tables
                  (VObj [("status", VStr "verifying digest")])
                  "verifying digest" eq_refl) eq_refl).
Defined.

(** C5 fails as stated: [handleUpdateStatus] labels [verifying digest]
    [Verifying download...] and [success] [success]; the application script
    shows nothing for [verifying digest], for [writing manifest] or for a
    status it does not know. *)
Lemma status_labels_differ_from_table :
  Page.handleUpdateStatus (VObj [("status", VStr "verifying digest")])
  <> Ok (VStr "Verifying checksum...")
  /\ Page.handleUpdateStatus (VObj [("status", VStr "success")])
     <> Ok (VStr "Pull completed successfully")
  /\ App.labels (fst (App.pull_line App.full_dom "downloading"
                        (json_text "{'status':'verifying digest'}"))) = []
  /\ App.labels (fst (App.pull_line App.full_dom "downloading"
                        (json_text "{'status':'writing manifest'}"))) = []
  /\ App.labels (fst (App.pull_line App.full_dom "downloading"
                        (json_text "{'status':'pulling manifest'}"))) = [].
Proof.
  repeat split; try (vm_compute; reflexivity); vm_compute; discriminate.
Qed.

(** ** C6: repainting the status label *)

(** Sizes that are numbers, or missing, always format. *)
Lemma formatSize_number (v : value) :
  v = VUndefined \/ (exists n, v = VNum n) -> exists s, Page.formatSize v = Ok s.
Proof.
  intros [->|[n ->]]; unfold Page.formatSize.
  - simpl. eauto.
  - destruct (negb (truthy (VNum n))); [eauto|].
    cbn [ToNumber]. destruct (geZ n 1024); [|eauto].
    destruct (Page.scale 3 (div n (of_Z 1024)) 1). eauto.
Qed.




(* ================================================================== *)
(** ** The server *)
(* ================================================================== *)

Import Server.

(** ** C9: the synthetic success record *)

(** The file's ['end'] listener, taken alone: it ends the response with
    one more chunk, the success record, exactly when [res.headersSent] is
    false, and otherwise leaves the response as it is. *)
Lemma on_end_alone (k : Relay) (res : Res) :
  let record :=
    match k with
    | PullRelay model =>
        JSON_stringify (VObj [("status", VStr "success"); ("model", model)])
    | OperationRelay operation =>
        JSON_stringify (VObj [("status", VStr "success");
                              ("model", op_model operation);
                              ("operation", type_or operation "pull")])
    end in
  (headersSent res = false -> on_end k res = res_end record res)
  /\ (headersSent res = true -> on_end k res = res).
Proof.
  intros record. split; intros H; destruct k; simpl;
    unfold pull_on_end, operation_on_end; now rewrite H.
Qed.

Lemma res_close_sent (res : Res) :
  headersSent (res_close res) = true
  /\ finished (res_close res) = true
  /\ written (res_close res) = written res.
Proof.
  unfold res_close, headersSent, finished.
  destruct res as [code headers [] chunks]; now repeat split.
Qed.

Lemma upstream_end (k : Relay) (res : Res) :
  upstream_event k End res = res_close res.
Proof.
  cbn [upstream_event].
  exact (proj2 (on_end_alone k (res_close res)) (proj1 (res_close_sent res))).
Qed.

Lemma relay_chunks (k : Relay) (chunks : list string) (res : Res) :
  finished res = false ->
  written (relay k res (map Data chunks)) = (written res ++ chunks)%list
  /\ finished (relay k res (map Data chunks)) = false.
Proof.
  revert res. induction chunks as [|c chunks IH]; intros res H.
  - simpl. now rewrite app_nil_r.
  - change (relay k res (map Data (c :: chunks)))
      with (relay k (res_write c res) (map Data chunks)).
    assert (W : written (res_write c res) = (written res ++ [c])%list
                /\ finished (res_write c res) = false).
    { unfold res_write. now rewrite H. }
    destruct W as [W1 W2]. destruct (IH _ W2) as [I1 I2].
    split; [|exact I2]. now rewrite I1, W1, <- app_assoc.
Qed.

(** C9, evaluated.  The ['end'] listeners are written to do what the claim
    says: on a response whose headers are not sent they end it with the
    success record.  But [response.data.pipe(res)] has put its own ['end']
    listener on the stream before, and that one ends the response; when
    the file's listener runs, [res.headersSent] is true and it does
    nothing.  Whatever the daemon sends, the body of the relayed response
    is the chunks of the daemon and nothing more; for a stream that ends
    without a byte it is empty, where the claim asks for the record. *)
Theorem success_record_is_never_sent (k : Relay) (res : Res)
        (chunks : list string) :
  let record :=
    match k with
    | PullRelay model =>
        JSON_stringify (VObj [("status", VStr "success"); ("model", model)])
    | OperationRelay operation =>
        JSON_stringify (VObj [("status", VStr "success");
                              ("model", op_model operation);
                              ("operation", type_or operation "pull")])
    end in
  (headersSent res = false ->
     written (on_end k res) = (written res ++ [record])%list)
  /\ headersSent (res_close res) = true
  /\ upstream_event k End res = res_close res
  /\ (finished res = false ->
      written (relay k res (map Data chunks ++ [End]))
      = (written res ++ chunks)%list
      /\ finished (relay k res (map Data chunks ++ [End])) = true)
  /\ (exists prepared,
        pull (quiet_platform plain_env []) post_pull_m initial_state
        = Piped prepared (PullRelay (VStr "m"))
        /\ headersSent prepared = false
        /\ written (on_end (PullRelay (VStr "m")) prepared)
           = [json_text "{'status':'success','model':'m'}"]
        /\ written (relay (PullRelay (VStr "m")) prepared [End]) = []).
Proof.
  intros record.
  split; [|split; [|split; [|split]]].
  - intros H. rewrite (proj1 (on_end_alone k res) H).
    unfold res_end, headersSent, finished in *.
    now destruct (phase res).
  - apply res_close_sent.
  - apply upstream_end.
  - intros H. unfold relay. rewrite fold_left_app. cbn [fold_left].
    fold (relay k res (map Data chunks)). rewrite upstream_end.
    destruct (relay_chunks k chunks res H) as [W _].
    destruct (res_close_sent (relay k res (map Data chunks))) as (_ & F & E).
    split; [now rewrite E|exact F].
  - eexists. split; [reflexivity|]. now repeat split.
Qed.

(** ** Facts about the dispatch *)

Section DispatchFacts.
Variable P : Platform.
Variable req : Request.

Lemma visited_in_layers (layers : list Layer) (err : option HttpError)
      (st : State) (id : LayerId) :
  In id (visited (dispatch P layers err req st)) -> In id (map fst layers).
Proof.
  revert err st. induction layers as [|[i k] layers IH]; intros err st; simpl.
  - intros [].
  - destruct err as [e|].
    + destruct k; simpl; try (intros H; right; now apply (IH _ _ H)).
      intros [H|[]]. now left.
    + destruct k; try (intros H; right; now apply (IH _ _ H));
        (destruct (matches _ req);
         [destruct (run P i req st) as [[ | e | r | res rk] st']; simpl;
          try (intros [H|H]; [now left | right; now apply (IH _ _ H)]);
          try (intros [H|[]]; now left)
         | intros H; right; now apply (IH _ _ H)]).
Qed.

(** Dispatch over two stretches of layers: the second is entered only
    when the first leaves the request unanswered. *)
Lemma dispatch_app (l1 l2 : list Layer) (err : option HttpError) (st : State) :
  dispatch P (l1 ++ l2) err req st
  = match reply (dispatch P l1 err req st) with
    | Unhandled e =>
        let s1 := dispatch P l1 err req st in
        let s2 := dispatch P l2 e req (final s1) in
        {| visited := visited s1 ++ visited s2;
           handled_by := handled_by s2; reply := reply s2;
           final := final s2 |}
    | _ => dispatch P l1 err req st
    end.
Proof.
  revert err st. induction l1 as [|[i k] l1 IH]; intros err st; simpl.
  - now destruct (dispatch P l2 err req st).
  - destruct err as [e|].
    + destruct k; try apply IH. reflexivity.
    + destruct k; try apply IH;
        (destruct (matches _ req); [|apply IH];
         destruct (run P i req st) as [[ | e | r | res rk] st']; simpl;
         try reflexivity;
         rewrite IH;
         match goal with
         | |- context [reply (dispatch P l1 ?e' req st')] =>
             destruct (reply (dispatch P l1 e' req st')); reflexivity
         end).
Qed.

(** Whatever reaches the layers registered from the first not-found
    middleware on is answered by the global error handler: with the 404
    of that middleware, or with the error already pending. *)
Lemma dispatch_back (err : option HttpError) (st : State) :
  dispatch P back err req st
  = match err with
    | None =>
        {| visited := [NotFound; GlobalErrorHandler];
           handled_by := Some GlobalErrorHandler;
           reply := Replied
                      (globalErrorHandler P
                         (createError 404
                            (Some ("Not Found - " ++ originalUrl req)) [])
                         req);
           final := st |}
    | Some e =>
        {| visited := [GlobalErrorHandler];
           handled_by := Some GlobalErrorHandler;
           reply := Replied (globalErrorHandler P e req);
           final := st |}
    end.
Proof. destruct err; reflexivity. Qed.

Lemma front_ids (e : Env) (id : LayerId) :
  In id (map fst (front e)) -> ~ In id route_handlers.
Proof.
  unfold front.
  destruct (env_is (NODE_ENV e) "production" && env_is (FORCE_HTTPS e) "true");
    destruct (negb (env_is (ENABLE_SWAGGER e) "false")); simpl;
    intros H Hr;
    repeat (destruct H as [<-|H];
            [repeat (destruct Hr as [Hr|Hr]; [discriminate|]); exact Hr|]);
    exact H.
Qed.

(** No request reaches a handler of the proxied routes. *)
Lemma route_handlers_unreachable (st : State) (id : LayerId) :
  In id route_handlers -> ~ In id (visited (serve P req st)).
Proof.
  intros Hr Hv. unfold serve, app in Hv. rewrite dispatch_app in Hv.
  destruct (reply (dispatch P (front (env P)) None req st)) as [r|res k|e] eqn:E.
  - apply visited_in_layers in Hv. now apply (front_ids _ _ Hv).
  - apply visited_in_layers in Hv. now apply (front_ids _ _ Hv).
  - cbn [visited] in Hv. apply in_app_or in Hv as [Hv|Hv].
    + apply visited_in_layers in Hv. now apply (front_ids _ _ Hv).
    + rewrite dispatch_back in Hv.
      destruct e; cbn [visited] in Hv;
        repeat (destruct Hv as [<-|Hv];
                [repeat (destruct Hr as [Hr|Hr]; [discriminate|]); exact Hr|]);
        exact Hv.
Qed.

(** A request the front layers pass on gets the 404 of the first
    not-found middleware from the global error handler. *)
Lemma passed_on_is_not_found (st : State) :
  reply (dispatch P (front (env P)) None req st) = Unhandled None ->
  handled_by (serve P req st) = Some GlobalErrorHandler
  /\ reply (serve P req st)
     = Replied (globalErrorHandler P
                  (createError 404 (Some ("Not Found - " ++ originalUrl req)) [])
                  req).
Proof.
  intros H. unfold serve, app. rewrite dispatch_app, H.
  cbn [handled_by reply]. rewrite dispatch_back. now split.
Qed.
(** An error raised in the front layers is answered there: the centralized
    error handler is the last of them. *)
Lemma front_split (e : Env) :
  exists layers, front e = (layers ++ [(ErrorHandler, ErrorUse)])%list.
Proof.
  unfold front.
  destruct (env_is (NODE_ENV e) "production" && env_is (FORCE_HTTPS e) "true");
    destruct (negb (env_is (ENABLE_SWAGGER e) "false")); simpl;
    match goal with
    | |- exists layers, ?l = _ =>
        exists (removelast l); reflexivity
    end.
Qed.

Lemma front_answers_errors (st : State) (e : HttpError) :
  reply (dispatch P (front (env P)) None req st) <> Unhandled (Some e).
Proof.
  destruct (front_split (env P)) as (layers & ->).
  rewrite dispatch_app.
  destruct (reply (dispatch P layers None req st)) as [r|res k|[e'|]] eqn:E;
    try rewrite E; discriminate.
Qed.
End DispatchFacts.

(** ** C3: the routes behind the first not-found middleware *)

(** C3, as amended.  For a request to one of [GET /api/models],
    [DELETE /api/models], [POST /api/pull], [GET /api/ps] and
    [POST /api/update-model]: no handler registered for these routes ever
    runs; when the layers registered ahead of the first not-found middleware
    (the library middleware and the API-key check) pass the request on, the
    global error handler answers it with status 404 and the message
    [Not Found - <originalUrl>]; otherwise it is answered by one of those
    earlier layers.  (The first not-found middleware matches every path, so
    the same holds for any other request that gets that far.) *)
Theorem api_routes_answered_by_not_found
        (P : Platform) (req : Request) (st : State)
        (Htarget : targets_api_route req = true) :
  (forall id, In id route_handlers -> ~ In id (visited (serve P req st)))
  /\ (reply (dispatch P (front (env P)) None req st) = Unhandled None ->
      handled_by (serve P req st) = Some GlobalErrorHandler
      /\ reply (serve P req st)
         = Replied (globalErrorHandler P
                      (createError 404 (Some ("Not Found - " ++ originalUrl req)) [])
                      req)
      /\ statusCode (globalErrorHandler P
                       (createError 404 (Some ("Not Found - " ++ originalUrl req)) [])
                       req) = 404%Z)
  /\ (reply (dispatch P (front (env P)) None req st) <> Unhandled None ->
      serve P req st = dispatch P (front (env P)) None req st).
Proof.
  split; [intros id; apply route_handlers_unreachable|]. split.
  - intros H. destruct (passed_on_is_not_found P req st H) as [H1 H2].
    repeat split; assumption.
  - intros H. unfold serve, app. rewrite dispatch_app.
    pose proof (front_answers_errors P req st) as Hne.
    destruct (reply (dispatch P (front (env P)) None req st)) as [r|res k|[e|]];
      try reflexivity.
    + now contradiction (Hne e).
    + now contradiction H.
Qed.

Lemma api_routes_answered_by_not_found_witness :
  targets_api_route delete_a_b = true
  /\ reply (dispatch refusing_b (front (env refusing_b)) None delete_a_b
              initial_state) = Unhandled None
  /\ handled_by (serve refusing_b delete_a_b initial_state)
     = Some GlobalErrorHandler.
Proof.
  split; [reflexivity|]. split; [reflexivity|].
  exact (proj1 (proj1 (proj2
           (api_routes_answered_by_not_found
              refusing_b delete_a_b initial_state eq_refl)) eq_refl)).
Defined.

(** C3 fails as stated: with an API key configured, [GET /api/models]
    without the key is answered 401 by the centralized error handler, not by
    the 404 path. *)
Lemma api_route_without_key_is_401 :
  targets_api_route list_models = true
  /\ handled_by (serve (quiet_platform keyed_env []) list_models initial_state)
     = Some ErrorHandler
  /\ reply (serve (quiet_platform keyed_env []) list_models initial_state)
     = Replied {| statusCode := 401;
                  content := Json (VObj [("success", VBool false);
                                         ("error", VStr "Invalid API key")]) |}.
Proof. repeat split. Qed.

(** ** C10: setting the endpoint *)

Section EndpointFacts.
Variable P : Platform.
Variable req : Request.

Lemma run_keeps_state (id : LayerId) (st : State) :
  snd (run P id req st) = st
  \/ (id = SetEndpoint
      /\ exists r, fst (run P id req st) = Send r
                   /\ switched P req (answer id (Replied r)
                                             (snd (run P id req st)))).
Proof.
  destruct id; try (left; reflexivity).
  unfold run, setEndpoint.
  destruct (validation P SetEndpoint req) eqn:V; [|left; reflexivity].
  destruct (get (body req) "endpoint") as [endpoint|] eqn:G;
    [|left; reflexivity].
  destruct (probe P (ToString endpoint ++ "/api/tags")) eqn:Pr;
    [left; reflexivity|].
  right. split; [reflexivity|]. eexists. split; [reflexivity|].
  exists endpoint. simpl. repeat split; try assumption; try reflexivity.
  eauto.
Qed.

Lemma switched_visit (id : LayerId) (s : Served) :
  switched P req s -> switched P req (visit id s).
Proof. intros H. exact H. Qed.

Lemma dispatch_keeps_state (layers : list Layer) (err : option HttpError)
      (st : State) :
  final (dispatch P layers err req st) = st
  \/ switched P req (dispatch P layers err req st).
Proof.
  revert err. induction layers as [|[i k] layers IH]; intros err.
  - now left.
  - assert (Hrun : matches k req = true ->
                   final (match run P i req st with
                          | (Next, st') => visit i (dispatch P layers None req st')
                          | (NextErr e, st') =>
                              visit i (dispatch P layers (Some e) req st')
                          | (Send r, st') => answer i (Replied r) st'
                          | (Piped res rk, st') => answer i (Streaming res rk) st'
                          end) = st
                   \/ switched P req
                        (match run P i req st with
                         | (Next, st') => visit i (dispatch P layers None req st')
                         | (NextErr e, st') =>
                             visit i (dispatch P layers (Some e) req st')
                         | (Send r, st') => answer i (Replied r) st'
                         | (Piped res rk, st') => answer i (Streaming res rk) st'
                         end)).
    { intros _.
      destruct (run_keeps_state i st) as [H|(-> & r & Hr & Hsw)].
      - destruct (run P i req st) as [[ | e | r | res rk] st'];
          simpl in H; subst st'.
        + destruct (IH None) as [H|H]; [now left | now right].
        + destruct (IH (Some e)) as [H|H]; [now left | now right].
        + now left.
        + now left.
      - destruct (run P SetEndpoint req st) as [o st']. simpl in Hr, Hsw.
        subst o. now right. }
    simpl. destruct err as [e|].
    + destruct k; try apply IH. now left.
    + destruct k; try apply IH;
        (destruct (matches _ req) eqn:M; [now apply Hrun | apply IH]).
Qed.
End EndpointFacts.

(** C10.  [ollamaEndpoint] is assigned only after the probe
    [GET {endpoint}/api/tags] has succeeded.  When validation fails, and when
    the probe fails, the endpoint handler throws a 400 error and leaves the
    state as it was.  Seen from the whole application: serving any request
    leaves the state unchanged unless that request switched the endpoint
    (validation passed, probe succeeded, answer 200); in particular a
    request answered with status 400 leaves it unchanged, and so does a
    request whose validation or probe fails. *)
Theorem endpoint_switch_is_atomic (P : Platform) (req : Request) (st : State) :
  (validation P SetEndpoint req <> [] ->
     snd (setEndpoint P req st) = st
     /\ exists e, fst (setEndpoint P req st) = NextErr e
                  /\ status e = Some 400%Z)
  /\ (forall endpoint msg,
        validation P SetEndpoint req = [] ->
        get (body req) "endpoint" = Some endpoint ->
        probe P (ToString endpoint ++ "/api/tags") = Some msg ->
        setEndpoint P req st
        = (NextErr (createError 400
                      (Some ("Failed to connect to endpoint: " ++ msg)) []),
           st))
  /\ (forall endpoint,
        validation P SetEndpoint req = [] ->
        get (body req) "endpoint" = Some endpoint ->
        probe P (ToString endpoint ++ "/api/tags") = None ->
        snd (setEndpoint P req st) = {| ollamaEndpoint := endpoint |})
  /\ (final (serve P req st) = st \/ switched P req (serve P req st))
  /\ (forall r,
        reply (serve P req st) = Replied r ->
        statusCode r = 400%Z ->
        final (serve P req st) = st)
  /\ (validation P SetEndpoint req <> []
      \/ (exists endpoint msg,
            get (body req) "endpoint" = Some endpoint
            /\ probe P (ToString endpoint ++ "/api/tags") = Some msg) ->
      final (serve P req st) = st).
Proof.
  pose proof (dispatch_keeps_state P req (app (env P)) None st) as Hd.
  fold (serve P req st) in Hd.
  split; [|split; [|split; [|split; [exact Hd|split]]]].
  - intros Hv. unfold setEndpoint.
    destruct (validation P SetEndpoint req) as [|v vs]; [congruence|].
    split; [reflexivity|]. eexists. split; reflexivity.
  - intros endpoint msg Hv Hg Hp. unfold setEndpoint.
    now rewrite Hv, Hg, Hp.
  - intros endpoint Hv Hg Hp. unfold setEndpoint. now rewrite Hv, Hg, Hp.
  - intros r Hr Hc. destruct Hd as [H|H]; [exact H|].
    destruct H as (endpoint & _ & _ & _ & _ & _ & v & Hrep).
    rewrite Hrep in Hr. injection Hr as <-. discriminate Hc.
  - intros Hfail. destruct Hd as [H|H]; [exact H|].
    destruct H as (endpoint & Hv & Hg & Hp & _).
    destruct Hfail as [Hn|(endpoint' & msg & Hg' & Hp')].
    + contradiction.
    + rewrite Hg in Hg'. injection Hg' as <-. congruence.
Qed.

Lemma endpoint_switch_is_atomic_witness :
  (exists endpoint msg,
      get (body switch_endpoint) "endpoint" = Some endpoint
      /\ probe unreachable_daemon (ToString endpoint ++ "/api/tags") = Some msg)
  /\ final (serve unreachable_daemon switch_endpoint initial_state)
     = initial_state.
Proof.
  assert (H : exists endpoint msg,
             get (body switch_endpoint) "endpoint" = Some endpoint
             /\ probe unreachable_daemon (ToString endpoint ++ "/api/tags")
                = Some msg).
  { exists (VStr "http://10.0.0.2:11434"), "connect ECONNREFUSED".
    split; reflexivity. }
  split; [exact H|].
  exact (proj2 (proj2 (proj2 (proj2 (proj2
           (endpoint_switch_is_atomic
              unreachable_daemon switch_endpoint initial_state)))))
           (or_intror H)).
Defined.

(** ** C4: bulk delete with a partial failure *)

Lemma failed_items_spec (models : list value) (results : list (option string))
      (model : value) (reason : string) :
  In (VObj [("model", model); ("error", VStr reason)]) (failed_items models results)
  <-> exists i, nth_error models i = Some model
                /\ nth_error results i = Some (Some reason)
                /\ reason <> "".
Proof.
  revert results. induction models as [|m models IH]; intros results.
  - simpl. split; [intros []|]. intros (i & H & _). now destruct i.
  - destruct results as [|r results].
    { simpl. split; [intros []|]. intros (i & _ & H & _). now destruct i. }
    assert (Tail : In (VObj [("model", model); ("error", VStr reason)])
                      (failed_items models results)
                   -> exists i, nth_error (m :: models) i = Some model
                                /\ nth_error (r :: results) i = Some (Some reason)
                                /\ reason <> "").
    { intros H. apply IH in H as (i & H1 & H2 & H3). now exists (S i). }
    assert (Back : forall i, nth_error (m :: models) (S i) = Some model ->
                             nth_error (r :: results) (S i) = Some (Some reason) ->
                             reason <> "" ->
                             In (VObj [("model", model); ("error", VStr reason)])
                                (failed_items models results)).
    { intros i H1 H2 H3. apply IH. now exists i. }
    cbn [failed_items]. destruct r as [x|].
    + destruct (nonempty x) eqn:N.
      * split.
        -- intros [H|H]; [|now apply Tail].
           injection H as <- <-. exists 0%nat. split; [reflexivity|].
           split; [reflexivity|]. intros ->. discriminate N.
        -- intros ([|i] & H1 & H2 & H3); [|right; now apply (Back i)].
           left. simpl in H1, H2. injection H1 as <-. now injection H2 as <-.
      * split; [exact Tail|].
        intros ([|i] & H1 & H2 & H3); [|now apply (Back i)].
        simpl in H2. injection H2 as ->.
        destruct reason; [contradiction|discriminate N].
    + split; [exact Tail|].
      intros ([|i] & H1 & H2 & H3); [discriminate H2|now apply (Back i)].
Qed.

Lemma delete_results_nth (P : Platform) (st : State) (models : list value)
      (start i : nat) :
  nth_error (delete_results P st start models) i
  = option_map (upstream_delete P (upstream_url st "/api/delete") (start + i))
               (nth_error models i).
Proof.
  revert start i. induction models as [|m models IH]; intros start i.
  - now destruct i.
  - destruct i as [|i]; simpl.
    + now rewrite Nat.add_0_r.
    + rewrite IH. now rewrite Nat.add_succ_r.
Qed.

(** The targets listed as failed are those whose delete the daemon
    rejected with a non-empty message, each with that message. *)
Lemma failed_of_spec (P : Platform) (st : State) (models : list value)
      (model : value) (reason : string) :
  In (VObj [("model", model); ("error", VStr reason)]) (failed_of P st models)
  <-> exists i, nth_error models i = Some model
                /\ upstream_delete P (upstream_url st "/api/delete") i model
                   = Some reason
                /\ reason <> "".
Proof.
  unfold failed_of. rewrite failed_items_spec.
  split; intros (i & H1 & H2 & H3); exists i; (split; [exact H1|]);
    (split; [|exact H3]); rewrite delete_results_nth, H1 in *; simpl in *.
  - now injection H2.
  - now rewrite H2.
Qed.

(** The second [DELETE /api/models] handler, taken alone, reports a partial
    failure as the specification asks: status 207 with the failed targets
    and the number of the others. *)
Lemma deleteModelsLate_partial (P : Platform) (req : Request) (st : State)
      (models : list value) :
  delete_targets P DeleteModelsLate req = inr models ->
  failed_of P st models <> [] ->
  List.length (failed_of P st models) <> List.length models ->
  deleteModelsLate P req st
  = Send {| statusCode := 207;
            content :=
              Json (VObj [("success", VBool true);
                          ("message", VStr "Some models could not be deleted");
                          ("failed", VArr (failed_of P st models));
                          ("deleted",
                           deleted_count models (failed_of P st models))]) |}.
Proof.
  intros Ht Hf Hl. unfold deleteModelsLate. rewrite Ht.
  destruct (failed_of P st models) as [|f fs] eqn:F; [congruence|].
  destruct (Nat.eqb_spec (List.length (f :: fs)) (List.length models));
    [contradiction|reflexivity].
Qed.

(** C4, evaluated.  Bulk delete of [["a","b"]] with [a] deleted and [b]
    refused: the application answers 404 from the global error handler and
    neither delete handler runs.  Taken alone, the first handler throws an
    error with status 207, which the global error handler turns into a body
    with [success:false] and without [failed] and [deleted]; only the second
    handler sends status 207 with [deleted: 1] and [b] listed in
    [failed]. *)
Theorem partial_delete_is_answered_404 :
  visited (serve refusing_b delete_a_b initial_state)
  = [PinoHttp; Helmet; Cors; RateLimit; JsonBody; UrlencodedBody;
     Compression; ApiKeyAuth; Static; NotFound; GlobalErrorHandler]
  /\ reply (serve refusing_b delete_a_b initial_state)
     = Replied {| statusCode := 404;
                  content := Json (VObj [("success", VBool false);
                                         ("message",
                                          VStr "Not Found - /api/models")]) |}
  /\ (exists e,
        deleteModels refusing_b delete_a_b initial_state = NextErr e
        /\ globalErrorHandler refusing_b e delete_a_b
           = {| statusCode := 207;
                content := Json (VObj [("success", VBool false);
                                       ("message",
                                        VStr "Some models could not be deleted")]) |})
  /\ deleteModelsLate refusing_b delete_a_b initial_state
     = Send {| statusCode := 207;
               content :=
                 Json (VObj [("success", VBool true);
                             ("message", VStr "Some models could not be deleted");
                             ("failed",
                              VArr [VObj [("model", VStr "b");
                                          ("error",
                                           VStr "Request failed with status code 404")]]);
                             ("deleted", VNum (Fin 1))]) |}.
Proof.
  split; [vm_compute; reflexivity|]. split; [vm_compute; reflexivity|].
  split; [|vm_compute; reflexivity].
  eexists. split; vm_compute; reflexivity.
Qed.

(* ================================================================== *)
(** * Further properties of the code *)
(* ================================================================== *)

(** ** What the reader loops let out and what they paint *)

Section LoopInvariants.
Context {St Eff : Type}.
Variable body : St -> string -> list Eff * result St.

Lemma for_of_throws (Q : Exn -> Prop) :
  (forall st l es e, body st l = (es, Throw e) -> Q e) ->
  forall st ls es e, for_of body st ls = (es, Throw e) -> Q e.
Proof.
  intros Hb st ls. revert st. induction ls as [|l ls IH]; intros st es e; simpl.
  - discriminate.
  - destruct (body st l) as [es1 [st'|e1]] eqn:B.
    + destruct (for_of body st' ls) as [es2 r] eqn:F. intros H.
      injection H as _ ->. exact (IH _ _ _ F).
    + intros H. injection H as _ <-. exact (Hb _ _ _ _ B).
Qed.

Lemma for_of_effects (Q : Eff -> Prop) :
  (forall st l, Forall Q (fst (body st l))) ->
  forall st ls, Forall Q (fst (for_of body st ls)).
Proof.
  intros Hb st ls. revert st. induction ls as [|l ls IH]; intros st; simpl.
  - constructor.
  - pose proof (Hb st l) as H. destruct (body st l) as [es1 [st'|e1]].
    + pose proof (IH st') as H'. destruct (for_of body st' ls) as [es2 r].
      simpl in *. apply Forall_app. now split.
    + exact H.
Qed.

Lemma for_of_never_throws :
  (forall st l, exists es st', body st l = (es, Ok st')) ->
  forall st ls, exists es st', for_of body st ls = (es, Ok st').
Proof.
  intros Hb st ls. revert st. induction ls as [|l ls IH]; intros st; simpl.
  - now exists [], st.
  - destruct (Hb st l) as (es1 & st1 & ->).
    destruct (IH st1) as (es2 & st2 & ->). now exists (es1 ++ es2)%list, st2.
Qed.
End LoopInvariants.

Lemma message_is_inv (e : Exn) (lit : string) :
  message_is e lit = true -> e = Error lit.
Proof.
  destruct e; simpl; try discriminate. intros H.
  apply String.eqb_eq in H. now subst.
Qed.

Lemma update_line_cases (st : value) (l : string) :
  Page.update_line st l = ([], Ok st)
  \/ (exists new, strict_eq new st = false
                  /\ Page.update_line st l = ([Page.StatusText new], Ok new))
  \/ Page.update_line st l = ([], Throw (Error "Update failed"))
  \/ (exists e, Page.update_line st l
                = ([Page.ConsoleError "Error parsing update:" e], Ok st)).
Proof.
  unfold Page.update_line. destruct (negb (nonblank l)); [now left|].
  destruct (match JSON_parse l with
            | Some update => Page.handleUpdateStatus update
            | None => Throw SyntaxError
            end) as [new|e].
  - destruct (strict_eq new st) eqn:E; simpl; [now left|].
    right. left. now exists new.
  - destruct (message_is e "Update failed") eqn:M.
    + apply message_is_inv in M. subst. right. right. now left.
    + right. right. right. now exists e.
Qed.

Lemma page_pull_line_throws (st : value) (l : string) (es : list Page.Effect)
      (e : Exn) :
  Page.pull_line st l = (es, Throw e) -> e = Error "Pull failed".
Proof.
  unfold Page.pull_line. destruct (nonblank l); [|discriminate].
  destruct (Page.pull_try st l) as [es1 [st'|e1]]; [discriminate|].
  destruct (message_is e1 "Pull failed") eqn:M; [|discriminate].
  intros H. injection H as _ <-. now apply message_is_inv.
Qed.

Lemma update_line_no_status_error (st : value) (l : string) :
  Forall (fun e => Page.is_status_error e = false) (fst (Page.update_line st l)).
Proof.
  destruct (update_line_cases st l) as [H|[(v & _ & H)|[H|(e & H)]]];
    rewrite H; simpl; repeat constructor.
Qed.

Lemma page_pull_line_no_status_error (st : value) (l : string) :
  Forall (fun e => Page.is_status_error e = false) (fst (Page.pull_line st l)).
Proof.
  assert (T : Forall (fun e => Page.is_status_error e = false) (fst (Page.pull_try st l))).
  { unfold Page.pull_try. destruct (JSON_parse l) as [u|]; [|constructor].
    destruct (get u "status") as [s|]; [|constructor].
    destruct (get u "error") as [er|]; [|constructor].
    destruct (get u "completed") as [c|]; [|constructor].
    destruct (get u "total") as [t|]; [|constructor].
    destruct (is_str s "error"); [constructor|].
    destruct (is_str s "downloading").
    - destruct (Page.formatSize c); [destruct (Page.formatSize t)|];
        simpl; repeat constructor.
    - destruct (negb (strict_eq s st)); simpl; repeat constructor. }
  unfold Page.pull_line. destruct (nonblank l); [|constructor].
  destruct (Page.pull_try st l) as [es [st'|e]]; simpl in *; [exact T|].
  destruct (message_is e "Pull failed"); simpl; [exact T|].
  apply Forall_app. split; [exact T|repeat constructor].
Qed.

Lemma not_a_status_error (es : list Page.Effect) (e : Exn) :
  Forall (fun e => Page.is_status_error e = false) es -> ~ In (Page.StatusError e) es.
Proof.
  intros F H. rewrite Forall_forall in F. discriminate (F _ H).
Qed.

(** What the two loops of the legacy page throw on the texts they are
    given, and that they never write an error text themselves. *)
Lemma page_loops_throw_default (chunks : list string) :
  (forall es e, Page.processUpdateStream chunks = (es, Throw e) ->
                e = Error "Update failed")
  /\ (forall es e, Page.pull_loop chunks = (es, Throw e) ->
                   e = Error "Pull failed").
Proof.
  split; intros es e.
  - rewrite processUpdateStream_lines.
    apply (for_of_throws Page.update_line (fun e => e = Error "Update failed")).
    intros st l es' e' H.
    destruct (update_line_cases st l) as [H'|[(v & _ & H')|[H'|(x & H')]]];
      rewrite H' in H; try discriminate. now injection H as _ <-.
  - rewrite page_pull_loop_lines.
    apply (for_of_throws Page.pull_line (fun e => e = Error "Pull failed")).
    exact page_pull_line_throws.
Qed.

Lemma page_loops_no_status_error (chunks : list string) :
  Forall (fun e => Page.is_status_error e = false)
         (fst (Page.processUpdateStream chunks))
  /\ Forall (fun e => Page.is_status_error e = false)
            (fst (Page.pull_loop chunks)).
Proof.
  rewrite processUpdateStream_lines, page_pull_loop_lines. split.
  - apply (for_of_effects Page.update_line _ update_line_no_status_error).
  - apply (for_of_effects Page.pull_line _ page_pull_line_no_status_error).
Qed.

Lemma last_read_cases {St Eff : Type} (r : Reads) (es : list Eff)
      (end_ : result St) :
  last_read r (es, end_)
  = (es, match end_, failure r with
         | Ok st, None => Ok st
         | Ok _, Some e => Throw e
         | Throw e, _ => Throw e
         end).
Proof. unfold last_read. destruct end_; [destruct (failure r)|]; reflexivity. Qed.

(** X1.  The reader loops of the legacy page, once the response is [ok]
    and its body is being read.
    Of the exceptions raised while a line is handled they let one out and
    no other: [new Error('Update failed')] in [processUpdateStream],
    [new Error('Pull failed')] in the loop of [pullModel]; everything else
    is logged and the loop goes on.  The only other error that leaves a
    loop is the one a read rejects with, which is raised outside the [try]
    around a line.  So the error text [updateModel] writes to the status
    element is [Error: Update failed] or the message of the rejected read,
    and likewise for [pullModel]; and when the loop has not thrown before,
    the error of a rejected read is what the status element shows. *)
Theorem loops_let_out_default_or_read_error (r : Reads) :
  (forall es e, Page.processUpdateStream_reads r = (es, Throw e) ->
                e = Error "Update failed" \/ failure r = Some e)
  /\ (forall es e, Page.pull_loop_reads r = (es, Throw e) ->
                   e = Error "Pull failed" \/ failure r = Some e)
  /\ (forall e, In (Page.StatusError e) (Page.updateModel_reads r) ->
                e = Error "Update failed" \/ failure r = Some e)
  /\ (forall e, In (Page.StatusError e) (Page.pullModel_reads r) ->
                e = Error "Pull failed" \/ failure r = Some e)
  /\ (forall e, failure r = Some e ->
        (snd (Page.processUpdateStream (texts r)) <> Throw (Error "Update failed")
         -> In (Page.StatusError e) (Page.updateModel_reads r))
        /\ (snd (Page.pull_loop (texts r)) <> Throw (Error "Pull failed")
            -> In (Page.StatusError e) (Page.pullModel_reads r)))
  /\ (failure r = None ->
        Page.updateModel_reads r = Page.updateModel (texts r)
        /\ Page.pullModel_reads r = Page.pullModel (texts r)).
Proof.
  destruct (page_loops_throw_default (texts r)) as [U L].
  destruct (page_loops_no_status_error (texts r)) as [FU FL].
  unfold Page.updateModel_reads, Page.pullModel_reads,
    Page.processUpdateStream_reads, Page.pull_loop_reads,
    Page.updateModel, Page.pullModel.
  destruct (Page.processUpdateStream (texts r)) as [es1 end1].
  destruct (Page.pull_loop (texts r)) as [es2 end2].
  rewrite !last_read_cases. cbn [fst snd] in *.
  assert (N1 : forall e, ~ In (Page.StatusError e) es1)
    by (intros e; now apply not_a_status_error).
  assert (N2 : forall e, ~ In (Page.StatusError e) es2)
    by (intros e; now apply not_a_status_error).
  assert (U' : forall e, end1 = Throw e -> e = Error "Update failed")
    by (intros e ->; exact (U _ _ eq_refl)).
  assert (L' : forall e, end2 = Throw e -> e = Error "Pull failed")
    by (intros e ->; exact (L _ _ eq_refl)).
  clear U L FU FL.
  repeat split.
  - intros es e H. injection H as _ H.
    destruct end1 as [st|e1]; [destruct (failure r)|].
    + right. now injection H as ->.
    + discriminate.
    + left. injection H as <-. now apply U'.
  - intros es e H. injection H as _ H.
    destruct end2 as [st|e2]; [destruct (failure r)|].
    + right. now injection H as ->.
    + discriminate.
    + left. injection H as <-. now apply L'.
  - intros e [H|H]; [discriminate|].
    destruct end1 as [st|e1]; [destruct (failure r) as [x|]|];
      simpl in H; apply in_app_or in H as [H|H];
      try (now contradiction (N1 e));
      simpl in H;
      repeat match type of H with
             | _ \/ _ => destruct H as [H|H]
             end; try discriminate; try contradiction.
    + right. now injection H as ->.
    + left. injection H as <-. now apply U'.
  - intros e [H|[H|[H|H]]]; try discriminate.
    destruct end2 as [st|e2]; [destruct (failure r) as [x|]|];
      simpl in H; apply in_app_or in H as [H|H];
      try (now contradiction (N2 e));
      simpl in H;
      repeat match type of H with
             | _ \/ _ => destruct H as [H|H]
             end; try discriminate; try contradiction.
    + right. now injection H as ->.
    + left. injection H as <-. now apply L'.
  - intros H1. rewrite H. right.
    destruct end1 as [st|e1].
    + simpl. apply in_or_app. right. simpl. auto.
    + contradiction H1. f_equal. now apply U'.
  - intros H2. rewrite H. right. right. right.
    destruct end2 as [st|e2].
    + simpl. apply in_or_app. right. simpl. auto.
    + contradiction H2. f_equal. now apply L'.
  - rewrite H. now destruct end1.
  - rewrite H. now destruct end2.
Qed.

Lemma loops_let_out_default_or_read_error_witness :
  failure {| texts := [zero_total_line ++ nl]; failure := Some TypeError |}
  = Some TypeError
  /\ In (Page.StatusError TypeError)
        (Page.updateModel_reads
           {| texts := [zero_total_line ++ nl]; failure := Some TypeError |}).
Proof.
  split; [reflexivity|].
  refine (proj1 (proj1 (proj2 (proj2 (proj2 (proj2
            (loops_let_out_default_or_read_error
               {| texts := [zero_total_line ++ nl]; failure := Some TypeError |})))))
            TypeError eq_refl) _).
  vm_compute. discriminate.
Defined.

Lemma renders_app (a b : list Page.Effect) :
  Page.renders (a ++ b) = (Page.renders a ++ Page.renders b)%list.
Proof.
  induction a as [|e a IH]; simpl; [reflexivity|].
  destruct e; simpl; now rewrite IH.
Qed.

Lemma last_nonempty {A : Type} (x : A) (l : list A) (d d' : A) :
  last (x :: l) d = last (x :: l) d'.
Proof.
  revert x. induction l as [|y l IH]; intros x; [reflexivity|].
  change (last (y :: l) d = last (y :: l) d'). apply IH.
Qed.

Lemma adjacent_distinct_app (previous : value) (a b : list value) :
  Page.adjacent_distinct previous (a ++ b)
  = Page.adjacent_distinct previous a
    && Page.adjacent_distinct (last a previous) b.
Proof.
  revert previous. induction a as [|v a IH]; intros previous; simpl.
  - reflexivity.
  - rewrite IH, andb_assoc. destruct a as [|w a]; [reflexivity|].
    now rewrite (last_nonempty w a previous v).
Qed.

Lemma update_loop_invariant (ls : list string) (st : value) :
  Page.adjacent_distinct st
    (Page.renders (fst (for_of Page.update_line st ls))) = true
  /\ forall st', snd (for_of Page.update_line st ls) = Ok st' ->
                 st' = last (Page.renders (fst (for_of Page.update_line st ls))) st.
Proof.
  revert st. induction ls as [|l ls IH]; intros st; simpl.
  - split; [reflexivity|]. intros st' H. now injection H.
  - destruct (update_line_cases st l) as [H|[(v & Hv & H)|[H|(e & H)]]];
      rewrite H; try (split; [reflexivity|discriminate]).
    + destruct (IH st) as [I1 I2].
      destruct (for_of Page.update_line st ls) as [es r]. exact (conj I1 I2).
    + destruct (IH v) as [I1 I2].
      destruct (for_of Page.update_line v ls) as [es r]. simpl in *.
      rewrite Hv, I1. split; [reflexivity|]. intros st' Hr.
      rewrite (I2 _ Hr). destruct (Page.renders es) as [|w ws]; [reflexivity|].
      apply last_nonempty.
    + destruct (IH st) as [I1 I2].
      destruct (for_of Page.update_line st ls) as [es r]. exact (conj I1 I2).
Qed.

(** X2.  [processUpdateStream] never paints the label the status element
    already shows: over the whole stream no written label is strictly equal
    to the one written before it, the first is not the empty string the
    loop starts from, and [lastStatus] ends as the last label written. *)
Theorem update_status_never_repainted_alike (chunks : list string) :
  Page.adjacent_distinct (VStr "")
    (Page.renders (fst (Page.processUpdateStream chunks))) = true
  /\ forall st, snd (Page.processUpdateStream chunks) = Ok st ->
       st = last (Page.renders (fst (Page.processUpdateStream chunks))) (VStr "").
Proof. rewrite processUpdateStream_lines. apply update_loop_invariant. Qed.

Lemma app_pull_line_ok (dom : App.Dom) (st : string) (l : string) :
  exists es st', App.pull_line dom st l = (es, Ok st').
Proof.
  unfold App.pull_line. destruct (JSON_parse l) as [d|]; [|eauto].
  destruct (get d "status") as [s|]; [|eauto].
  destruct (get d "completed") as [c|]; [|eauto].
  destruct (get d "total") as [t|]; [|eauto].
  destruct (is_str s "downloading").
  { destruct (negb (converts t) || (gt0 (ToNumber t) && negb (converts c)));
      eauto. }
  destruct (is_str s "verifying"); [eauto|].
  destruct (is_str s "success"); eauto.
Qed.

Lemma app_pull_line_quiet (dom : App.Dom) (st : string) (l : string) :
  Forall (fun e => match e with
                   | App.BarWidth _ | App.ProgressText _ | App.ConsoleError _ _ => True
                   | _ => False
                   end) (fst (App.pull_line dom st l)).
Proof.
  unfold App.pull_line. destruct (JSON_parse l) as [d|]; [|repeat constructor].
  destruct (get d "status") as [s|]; [|repeat constructor].
  destruct (get d "completed") as [c|]; [|repeat constructor].
  destruct (get d "total") as [t|]; [|repeat constructor].
  destruct (is_str s "downloading").
  { destruct (negb (converts t) || (gt0 (ToNumber t) && negb (converts c)));
      [repeat constructor|].
    destruct dom as [a [] []]; destruct (converts c); simpl;
      repeat constructor. }
  destruct dom as [a [] []];
    destruct (is_str s "verifying"); simpl; repeat constructor;
    destruct (is_str s "success"); simpl; repeat constructor.
Qed.

Lemma app_pull_loop_quiet (dom : App.Dom) (chunks : list string) :
  exists es pullStatus,
    App.pull_loop dom chunks = (es, Ok pullStatus)
    /\ Forall (fun e => match e with
                        | App.BarWidth _ | App.ProgressText _
                        | App.ConsoleError _ _ => True
                        | _ => False
                        end) es.
Proof.
  destruct (for_of_never_throws (App.pull_line dom) (app_pull_line_ok dom)
              "downloading" (lines chunks)) as (es & st & E).
  pose proof (for_of_effects (App.pull_line dom) _ (app_pull_line_quiet dom)
                "downloading" (lines chunks)) as F.
  rewrite <- app_pull_loop_lines in E, F. rewrite E in F. simpl in F.
  now exists es, st.
Qed.

Lemma caught_toast (dom : App.Dom) (error : Exn) (message : App.Text)
      (kind : string) :
  In (App.ShowToast message kind) (App.caught dom error)
  <-> message = App.WithMessage "Pull failed: " error /\ kind = "error".
Proof.
  unfold App.caught. destruct (App.progressElement dom); simpl; split.
  - intros [H|[H|[H|[H|H]]]]; try discriminate; try contradiction.
    now injection H as <- <-.
  - intros [-> ->]. auto.
  - intros [H|[H|H]]; try discriminate; try contradiction.
    now injection H as <- <-.
  - intros [-> ->]. auto.
Qed.

Lemma caught_rest (dom : App.Dom) (error : Exn) :
  ~ In App.RefreshModels (App.caught dom error)
  /\ forall ms, ~ In (App.HideStatusAfter ms) (App.caught dom error).
Proof.
  unfold App.caught. destruct (App.progressElement dom); simpl;
    (split; [|intros ms]); intros H;
    repeat match type of H with
           | _ \/ _ => destruct H as [H|H]
           end; try discriminate; contradiction.
Qed.

(** X3.  [pullModel] of [app.js], once the response is [ok] and its body
    is being read.  No exception
    raised while a line is handled leaves the reader loop.  So the toast
    [Successfully pulled <model>] is shown exactly when every read
    resolves, whatever the stream held, and then the model list is
    refreshed.  The error toast [Pull failed: <message>] is shown exactly
    when a read rejects or, after the success toast, when
    [refreshModels()] throws, and it carries that error.  The [finally]
    block testing the outer [pullStatus], the status panel is never
    scheduled to hide. *)
Theorem app_pull_toasts (dom : App.Dom) (modelName : string) (r : Reads)
        (refresh : option Exn) :
  let run := App.pullModel_run dom modelName r refresh in
  (exists pullStatus, snd (App.pull_loop dom (texts r)) = Ok pullStatus)
  /\ run
     = (App.when (App.statusElement dom) [App.StatusDisplay "block"]
        ++ App.when (App.progressElement dom)
             [App.ProgressText (App.Lit "Initializing...")]
        ++ App.when (App.progressBar dom) [App.BarWidth (Zero false)]
        ++ fst (App.pull_loop dom (texts r))
        ++ match failure r, refresh with
           | Some error, _ => App.caught dom error
           | None, None =>
               [App.ShowToast (App.Lit ("Successfully pulled " ++ modelName))
                              "success";
                App.RefreshModels]
           | None, Some error =>
               [App.ShowToast (App.Lit ("Successfully pulled " ++ modelName))
                              "success";
                App.RefreshModels] ++ App.caught dom error
           end)%list
  /\ (forall message,
        In (App.ShowToast message "success") run
        <-> failure r = None
            /\ message = App.Lit ("Successfully pulled " ++ modelName))
  /\ (forall message,
        In (App.ShowToast message "error") run
        <-> exists error,
              message = App.WithMessage "Pull failed: " error
              /\ (failure r = Some error
                  \/ (failure r = None /\ refresh = Some error)))
  /\ (In App.RefreshModels run <-> failure r = None)
  /\ (forall ms, ~ In (App.HideStatusAfter ms) run)
  /\ (failure r = None -> refresh = None ->
      run = App.pullModel dom modelName (texts r)).
Proof.
  intros run.
  destruct (app_pull_loop_quiet dom (texts r)) as (es & st & E & Q).
  set (tail := match failure r, refresh with
               | Some error, _ => App.caught dom error
               | None, None =>
                   [App.ShowToast (App.Lit ("Successfully pulled " ++ modelName))
                                  "success";
                    App.RefreshModels]
               | None, Some error =>
                   ([App.ShowToast (App.Lit ("Successfully pulled " ++ modelName))
                                   "success";
                     App.RefreshModels] ++ App.caught dom error)%list
               end).
  assert (M : run
     = (App.when (App.statusElement dom) [App.StatusDisplay "block"]
        ++ App.when (App.progressElement dom)
             [App.ProgressText (App.Lit "Initializing...")]
        ++ App.when (App.progressBar dom) [App.BarWidth (Zero false)]
        ++ es ++ tail)%list).
  { unfold run, App.pullModel_run, tail. rewrite E, last_read_cases.
    destruct (failure r); [|destruct refresh]; simpl;
      now rewrite ?app_nil_r, <- ?app_assoc. }
  assert (Front : forall x,
             match x with
             | App.ShowToast _ _ | App.RefreshModels | App.HideStatusAfter _ => True
             | _ => False
             end -> (In x run <-> In x tail)).
  { intros x Hx. rewrite M, !in_app_iff. split; [|tauto].
    intros [H|[H|[H|[H|H]]]]; [exfalso..|exact H].
    - destruct (App.statusElement dom); simpl in H; [|exact H].
      destruct H as [<-|[]]. exact Hx.
    - destruct (App.progressElement dom); simpl in H; [|exact H].
      destruct H as [<-|[]]. exact Hx.
    - destruct (App.progressBar dom); simpl in H; [|exact H].
      destruct H as [<-|[]]. exact Hx.
    - rewrite Forall_forall in Q. specialize (Q x H). now destruct x. }
  rewrite E. cbn [fst snd].
  split; [now exists st|]. split; [exact M|].
  split; [|split; [|split; [|split]]].
  - intros message. rewrite (Front (App.ShowToast message "success") I).
    unfold tail. destruct (failure r) as [e|]; [|destruct refresh as [e|]].
    + rewrite caught_toast. split; [intros [_ H]|intros [H _]]; discriminate.
    + rewrite in_app_iff, caught_toast. simpl. split.
      * intros [[H|[H|[]]]|[_ H]]; try discriminate.
        injection H as <-. now split.
      * intros [_ ->]. auto.
    + simpl. split.
      * intros [H|[H|[]]]; try discriminate. injection H as <-. now split.
      * intros [_ ->]. auto.
  - intros message. rewrite (Front (App.ShowToast message "error") I).
    unfold tail. destruct (failure r) as [e|]; [|destruct refresh as [e|]].
    + rewrite caught_toast. split.
      * intros [-> _]. exists e. split; [reflexivity|now left].
      * intros (x & -> & [H|[H _]]); [|discriminate].
        injection H as ->. now split.
    + rewrite in_app_iff, caught_toast. simpl. split.
      * intros [[H|[H|[]]]|[-> _]]; try discriminate.
        exists e. split; [reflexivity|]. right. now split.
      * intros (x & -> & [H|[_ H]]); [discriminate|].
        injection H as ->. right. now split.
    + simpl. split.
      * intros [H|[H|[]]]; discriminate.
      * intros (x & _ & [H|[_ H]]); discriminate.
  - rewrite (Front App.RefreshModels I).
    unfold tail. destruct (failure r) as [e|]; [|destruct refresh as [e|]].
    + split; [|discriminate]. intros H.
      now contradiction (proj1 (caught_rest dom e)).
    + rewrite in_app_iff. simpl. split; [reflexivity|]. intros _. auto.
    + simpl. split; [reflexivity|]. intros _. auto.
  - intros ms. rewrite (Front (App.HideStatusAfter ms) I).
    unfold tail. destruct (failure r) as [e|]; [|destruct refresh as [e|]].
    + apply caught_rest.
    + rewrite in_app_iff. simpl. intros [[H|[H|[]]]|H]; try discriminate.
      now contradiction (proj2 (caught_rest dom e) ms).
    + simpl. intros [H|[H|[]]]; discriminate.
  - intros Hf Hr. unfold run, App.pullModel_run, App.pullModel.
    rewrite E, last_read_cases, Hf, Hr. reflexivity.
Qed.

Lemma app_pull_toasts_witness :
  In (App.ShowToast (App.WithMessage "Pull failed: " (Error "Not Found - /api/models"))
                    "error")
     (App.pullModel_run App.full_dom "llama3"
        {| texts := [zero_total_line ++ nl]; failure := None |}
        (Some (Error "Not Found - /api/models")))
  /\ In (App.ShowToast (App.Lit "Successfully pulled llama3") "success")
        (App.pullModel_run App.full_dom "llama3"
           {| texts := [zero_total_line ++ nl]; failure := None |}
           (Some (Error "Not Found - /api/models"))).
Proof.
  pose (H := app_pull_toasts App.full_dom "llama3"
               {| texts := [zero_total_line ++ nl]; failure := None |}
               (Some (Error "Not Found - /api/models"))).
  split.
  - apply (proj2 (proj1 (proj2 (proj2 (proj2 H))) _)).
    exists (Error "Not Found - /api/models").
    split; [reflexivity|]. right. now split.
  - apply (proj2 (proj1 (proj2 (proj2 H)) _)). now split.
Defined.

(** ** The size column of the legacy page *)

(** *** Rounding to a double *)

Lemma pow2_pos (e : Z) : (0 < pow2 e)%Q.
Proof. apply Qpower_0_lt. reflexivity. Qed.

Lemma pow2_add (a b : Z) : (pow2 (a + b) == pow2 a * pow2 b)%Q.
Proof. apply Qpower_plus. discriminate. Qed.

Lemma pow2_Z (a : Z) : (0 <= a)%Z -> (pow2 a == inject_Z (2 ^ a))%Q.
Proof. intros H. unfold pow2. now rewrite Zpower_Qpower. Qed.

Lemma pow2_le (a b : Z) : (a <= b)%Z -> (pow2 a <= pow2 b)%Q.
Proof. intros H. apply Qpower_le_compat_l; [exact H|discriminate]. Qed.

Lemma pow2_lt (a b : Z) : (a < b)%Z -> (pow2 a < pow2 b)%Q.
Proof. intros H. apply Qpower_lt_compat_l; [exact H|reflexivity]. Qed.

Lemma pow2_lt_inv (a b : Z) : (pow2 a < pow2 b)%Q -> (a < b)%Z.
Proof. intros H. apply (Qpower_lt_compat_l_inv 2); [exact H|reflexivity]. Qed.

(** [pow2 (a - b)] as a quotient of integers. *)
Lemma pow2_sub (a b : Z) : (pow2 (a - b) * pow2 b == pow2 a)%Q.
Proof. rewrite <- pow2_add. now replace (a - b + b)%Z with a by ring. Qed.

Lemma ilog2_spec (q : Q) :
  (0 < q)%Q -> (pow2 (ilog2 q) <= q)%Q /\ (q < pow2 (ilog2 q + 1))%Q.
Proof.
  intros Hq. destruct q as [n d].
  assert (Hn : (0 < n)%Z).
  { unfold Qlt in Hq. simpl in Hq. lia. }
  unfold ilog2. cbn [Qnum Qden].
  set (a := Z.log2 n). set (b := Z.log2 (Zpos d)).
  assert (Ha : (0 <= a)%Z) by apply Z.log2_nonneg.
  assert (Hb : (0 <= b)%Z) by apply Z.log2_nonneg.
  destruct (Z.log2_spec n Hn) as [Ha1 Ha2]. fold a in Ha1, Ha2.
  destruct (Z.log2_spec (Zpos d) (Pos2Z.is_pos d)) as [Hb1 Hb2].
  fold b in Hb1, Hb2.
  assert (Pb : (0 < pow2 b)%Q) by apply pow2_pos.
  assert (Pb1 : (0 < pow2 (b + 1))%Q) by apply pow2_pos.
  (* the bounds on n and d, over Q *)
  assert (Qn1 : (pow2 a * inject_Z (Zpos d) <= pow2 (b + 1) * inject_Z n)%Q).
  { rewrite (pow2_Z a Ha), (pow2_Z (b + 1)) by lia.
    rewrite <- !inject_Z_mult, <- Zle_Qle. unfold Z.succ in Hb2.
    assert (0 < 2 ^ a)%Z by (apply Z.pow_pos_nonneg; lia). nia. }
  assert (Qn2 : (pow2 b * inject_Z n < pow2 (a + 1) * inject_Z (Zpos d))%Q).
  { rewrite (pow2_Z b Hb), (pow2_Z (a + 1)) by lia.
    rewrite <- !inject_Z_mult, <- Zlt_Qlt. unfold Z.succ in Ha2.
    assert (0 < 2 ^ b)%Z by (apply Z.pow_pos_nonneg; lia). nia. }
  assert (Hd : (0 < inject_Z (Zpos d))%Q) by reflexivity.
  assert (Eq : (n # d == inject_Z n / inject_Z (Zpos d))%Q) by apply Qmake_Qdiv.
  set (z := pow2 b) in *. set (N := inject_Z n) in *.
  set (D := inject_Z (Zpos d)) in *.
  assert (Up : (n # d < pow2 (a - b + 1))%Q).
  { rewrite Eq. apply Qlt_shift_div_r; [exact Hd|].
    apply (Qmult_lt_l _ _ z Pb).
    assert (E : (pow2 (a + 1) == pow2 (a - b + 1) * z)%Q).
    { unfold z. rewrite <- pow2_add. now replace (a - b + 1 + b)%Z with (a + 1)%Z by ring. }
    rewrite E in Qn2.
    setoid_replace (z * (pow2 (a - b + 1) * D))%Q
      with (pow2 (a - b + 1) * z * D)%Q by ring.
    exact Qn2. }
  assert (Lo : (pow2 (a - b - 1) <= n # d)%Q).
  { rewrite Eq. apply Qle_shift_div_l; [exact Hd|].
    apply (Qmult_le_l _ _ (pow2 (b + 1)) Pb1).
    assert (E : (pow2 a == pow2 (a - b - 1) * pow2 (b + 1))%Q).
    { rewrite <- pow2_add. now replace (a - b - 1 + (b + 1))%Z with a by ring. }
    rewrite E in Qn1.
    setoid_replace (pow2 (b + 1) * (pow2 (a - b - 1) * D))%Q
      with (pow2 (a - b - 1) * pow2 (b + 1) * D)%Q by ring.
    exact Qn1. }
  destruct (Qle_bool (pow2 (a - b)) (n # d)) eqn:G.
  - apply Qle_bool_iff in G. split; [exact G|exact Up].
  - split; [exact Lo|].
    replace (a - b - 1 + 1)%Z with (a - b)%Z by ring.
    apply Qnot_le_lt. intros H. apply Qle_bool_iff in H. congruence.
Qed.

Lemma ilog2_unique (q : Q) (l : Z) :
  (pow2 l <= q)%Q -> (q < pow2 (l + 1))%Q -> ilog2 q = l.
Proof.
  intros H1 H2.
  assert (Hq : (0 < q)%Q) by (pose proof (pow2_pos l); lra).
  destruct (ilog2_spec q Hq) as [S1 S2].
  assert (A : (ilog2 q < l + 1)%Z) by (apply pow2_lt_inv; lra).
  assert (B : (l < ilog2 q + 1)%Z) by (apply pow2_lt_inv; lra).
  lia.
Qed.

Lemma nearest_even_comp (p q : Q) : (p == q)%Q -> nearest_even p = nearest_even q.
Proof.
  intros E. unfold nearest_even.
  rewrite (Qfloor_comp _ _ E).
  assert (E' : (p - inject_Z (Qfloor q) == q - inject_Z (Qfloor q))%Q)
    by now rewrite E.
  now rewrite (Qcompare_comp _ _ E' _ _ (Qeq_refl (1 # 2))).
Qed.

Lemma Fin_inj (a b : Q) : Fin a = Fin b -> a = b.
Proof. intros H. now injection H. Qed.

(** A division by 1024 is exact: when [q >= 1024] is a double, so is
    [q / 1024]. *)
Lemma round64_div_1024 (q : Q) :
  (1024 <= q)%Q -> round64 false q = Fin q ->
  round64 false (q / 1024) = Fin (Qred (q / 1024)).
Proof.
  intros Hq Hr.
  assert (Hpos : (0 < q)%Q) by lra.
  destruct (ilog2_spec q Hpos) as [S1 S2].
  set (l := ilog2 q) in *.
  assert (Hl : (10 <= l)%Z).
  { assert (pow2 10 < pow2 (l + 1))%Q.
    { change (pow2 10) with 1024%Q. lra. }
    apply pow2_lt_inv in H. lia. }
  assert (P10 : (pow2 (l - 10) * 1024 == pow2 l)%Q).
  { change 1024%Q with (pow2 10). apply pow2_sub. }
  assert (P9 : (pow2 (l - 10 + 1) * 1024 == pow2 (l + 1))%Q).
  { change 1024%Q with (pow2 10). rewrite <- pow2_add.
    now replace (l - 10 + 1 + 10)%Z with (l + 1)%Z by ring. }
  assert (El : ilog2 (q / 1024) = (l - 10)%Z).
  { apply ilog2_unique.
    - apply Qle_shift_div_l; [reflexivity|]. now rewrite P10.
    - apply Qlt_shift_div_r; [reflexivity|]. now rewrite P9. }
  unfold round64 in *. fold l in Hr. rewrite El.
  rewrite Z.max_l in Hr by lia. rewrite Z.max_l by lia.
  set (e := (l - 52)%Z) in *.
  assert (Pe : (pow2 (l - 10 - 52) * 1024 == pow2 e)%Q).
  { change 1024%Q with (pow2 10). unfold e. rewrite <- pow2_add.
    now replace (l - 10 - 52 + 10)%Z with (l - 52)%Z by ring. }
  assert (Pe0 : (0 < pow2 (l - 10 - 52))%Q) by apply pow2_pos.
  assert (Pe1 : (0 < pow2 e)%Q) by apply pow2_pos.
  assert (Em : nearest_even (q / 1024 / pow2 (l - 10 - 52)) = nearest_even (q / pow2 e)).
  { apply nearest_even_comp. rewrite <- Pe. field.
    intros H. rewrite H in Pe0. discriminate. }
  rewrite Em. set (m := nearest_even (q / pow2 e)) in *.
  destruct (m =? 0)%Z; [discriminate|].
  destruct (Qle_bool (pow2 1024) (inject_Z m * pow2 e)) eqn:O; [discriminate|].
  apply Fin_inj in Hr.
  pose proof (Qred_correct (inject_Z m * pow2 e)) as Ev.
  rewrite Hr in Ev. symmetry in Ev.
  assert (Ev' : (inject_Z m * pow2 (l - 10 - 52) == q / 1024)%Q).
  { rewrite <- Ev, <- Pe. field. }
  assert (O' : Qle_bool (pow2 1024) (inject_Z m * pow2 (l - 10 - 52)) = false).
  { apply not_true_is_false. intros H. apply Qle_bool_iff in H.
    assert (Qle_bool (pow2 1024) (inject_Z m * pow2 e) = true).
    { apply Qle_bool_iff. rewrite Ev. rewrite Ev' in H.
      assert (q / 1024 <= q)%Q.
      { apply Qle_shift_div_r; [reflexivity|]. lra. }
      lra. }
    congruence. }
  rewrite O'. f_equal. apply Qred_complete. exact Ev'.
Qed.

Lemma round64_comp (neg : bool) (p q : Q) :
  (0 < p)%Q -> (p == q)%Q -> round64 neg p = round64 neg q.
Proof.
  intros Hp E.
  assert (Hq : (0 < q)%Q) by now rewrite <- E.
  destruct (ilog2_spec q Hq) as [S1 S2].
  assert (El : ilog2 p = ilog2 q).
  { apply ilog2_unique; now rewrite E. }
  unfold round64. rewrite El.
  set (e := Z.max (ilog2 q - 52) (-1074)).
  assert (Em : nearest_even (p / pow2 e) = nearest_even (q / pow2 e)).
  { apply nearest_even_comp. now rewrite E. }
  now rewrite Em.
Qed.

Lemma round_pos (x : Q) : (0 < x)%Q -> round x = round64 false x.
Proof.
  intros H. destruct x as [n d]. unfold Qlt in H. simpl in H.
  unfold round, Qabs. cbn [Qnum].
  rewrite Z.abs_eq by lia.
  now destruct (Z.ltb_spec n 0); [lia|].
Qed.

Lemma of_Z_1024 : of_Z 1024 = Fin 1024.
Proof. reflexivity. Qed.

Lemma pow1024_succ (k : nat) :
  (inject_Z (1024 ^ Z.of_nat (S k)) == 1024 * inject_Z (1024 ^ Z.of_nat k))%Q.
Proof.
  rewrite Nat2Z.inj_succ, Z.pow_succ_r by lia. now rewrite inject_Z_mult.
Qed.

(** One turn of the loop of [formatSize] on a double of at least 1024. *)
Lemma div_1024_exact (s : Q) :
  (1024 <= s)%Q -> round64 false s = Fin s ->
  div (Fin s) (of_Z 1024) = Fin (Qred (s / 1024))
  /\ round64 false (Qred (s / 1024)) = Fin (Qred (s / 1024)).
Proof.
  intros Hs Hd.
  assert (Hp : (0 < s / 1024)%Q).
  { apply Qlt_shift_div_l; [reflexivity|]. lra. }
  pose proof (round64_div_1024 s Hs Hd) as E.
  split.
  - rewrite of_Z_1024. unfold div. now rewrite round_pos.
  - rewrite <- E. apply round64_comp.
    + now rewrite Qred_correct.
    + apply Qred_correct.
Qed.

Lemma scale_spec (left : nat) (s : Q) (i : nat) :
  (0 < s)%Q -> round64 false s = Fin s ->
  exists (k : nat) (s' : Q),
    Page.scale left (Fin s) i = (Fin s', (i + k)%nat)
    /\ (k <= left)%nat
    /\ (s' * inject_Z (1024 ^ Z.of_nat k) == s)%Q
    /\ ((k < left)%nat -> (s' < 1024)%Q)
    /\ ((0 < k)%nat -> (1 <= s')%Q)
    /\ (0 < s')%Q.
Proof.
  revert s i. induction left as [|left IH]; intros s i Hs Hd.
  - exists 0%nat, s. simpl Page.scale. rewrite Nat.add_0_r.
    change (inject_Z (1024 ^ Z.of_nat 0)) with 1%Q.
    split; [reflexivity|]. split; [lia|]. split; [lra|].
    split; [lia|]. split; [lia|exact Hs].
  - cbn [Page.scale geZ]. destruct (Qle_bool (inject_Z 1024) s) eqn:G.
    + apply Qle_bool_iff in G. change (inject_Z 1024) with 1024%Q in G.
      destruct (div_1024_exact s G Hd) as [Ediv Hd'].
      rewrite Ediv.
      assert (Hq : (Qred (s / 1024) == s / 1024)%Q) by apply Qred_correct.
      assert (Hdv : (s / 1024 == s * (1 # 1024))%Q) by reflexivity.
      assert (Hp : (0 < Qred (s / 1024))%Q) by (rewrite Hq, Hdv; lra).
      destruct (IH (Qred (s / 1024)) (S i) Hp Hd')
        as (k & s' & E & Hk & Hm & Hlt & Hge & Hpos).
      exists (S k), s'. rewrite E, <- plus_n_Sm.
      split; [reflexivity|]. split; [lia|].
      rewrite Hq, Hdv in Hm.
      split; [rewrite pow1024_succ; lra|].
      split; [intros H; apply Hlt; lia|]. split; [|exact Hpos].
      intros _. destruct k as [|k]; [|apply Hge; lia].
      change (inject_Z (1024 ^ Z.of_nat 0)) with 1%Q in Hm.
      lra.
    + exists 0%nat, s. rewrite Nat.add_0_r.
      split; [reflexivity|]. split; [lia|].
      split; [change (inject_Z (1024 ^ Z.of_nat 0)) with 1%Q; lra|].
      split; [|split; [lia|exact Hs]].
      intros _. apply Qnot_le_lt. intros H.
      apply Qle_bool_iff in H. change (inject_Z 1024) with 1024%Q in G.
      congruence.
Qed.

(** X4.  [formatSize] of the legacy page, for a positive number of bytes
    (any double above zero): it never throws, and it prints [size] to two
    places and a unit of the table, where [size] is exactly the byte count
    divided by 1024 as often as the unit says: the divisions of the loop
    lose nothing.  [size] is below 1024 unless the unit is already TB, the
    last one, and it is at least 1 whenever the unit is not B.  What is
    printed is [size] rounded to two places, so it can read [1024.00]:
    1048575 bytes print as [1024.00 KB]. *)
Theorem formatSize_picks_the_unit (bytes : Q) :
  (0 < bytes)%Q -> round bytes = Fin bytes ->
  exists (unitIndex : nat) (size : Q),
    (unitIndex <= 4)%nat
    /\ Page.formatSize (VNum (Fin bytes))
       = Ok (toFixed 2 (Fin size) ++ " " ++ nth unitIndex Page.units "undefined")
    /\ (size * inject_Z (1024 ^ Z.of_nat unitIndex) == bytes)%Q
    /\ ((unitIndex < 4)%nat -> (size < 1024)%Q)
    /\ ((0 < unitIndex)%nat -> (1 <= size)%Q).
Proof.
  intros Hb Hd. rewrite round_pos in Hd by exact Hb. unfold Page.formatSize.
  change (truthy (VNum (Fin bytes))) with true.
  change (ToNumber (VNum (Fin bytes))) with (Fin bytes).
  cbn [negb]. cbv iota.
  destruct (scale_spec 4 bytes 0 Hb Hd) as (k & s & E & Hk & Hm & Hlt & Hge & _).
  exists k, s. split; [exact Hk|]. split; [|now repeat split].
  change (Page.scale 4 (Fin bytes) 0)
    with (if geZ (Fin bytes) 1024
          then Page.scale 3 (div (Fin bytes) (of_Z 1024)) 1
          else (Fin bytes, 0%nat)) in E.
  destruct (geZ (Fin bytes) 1024).
  - now rewrite E.
  - injection E as <- <-. reflexivity.
Qed.

Lemma formatSize_picks_the_unit_witness :
  (0 < 1048575)%Q
  /\ round 1048575 = Fin 1048575
  /\ Page.formatSize (VNum (Fin 1048575)) = Ok "1024.00 KB"
  /\ option_map Page.formatSize (JSON_parse "1.005") = Some (Ok "1.00 B")
  /\ exists (unitIndex : nat) (size : Q),
       (unitIndex <= 4)%nat
       /\ Page.formatSize (VNum (Fin 1048575))
          = Ok (toFixed 2 (Fin size) ++ " " ++ nth unitIndex Page.units "undefined")
       /\ (size * inject_Z (1024 ^ Z.of_nat unitIndex) == 1048575)%Q
       /\ ((unitIndex < 4)%nat -> (size < 1024)%Q)
       /\ ((0 < unitIndex)%nat -> (1 <= size)%Q).
Proof.
  do 4 (split; [reflexivity|]).
  exact (formatSize_picks_the_unit 1048575 eq_refl eq_refl).
Defined.

(** ** The layers ahead of the routes *)

Lemma front_layout (e : Env) :
  front e = (library_layers ++ redirect_layers e
             ++ (ApiKeyAuth, Use (Some "/api")) :: behind_key e)%list.
Proof. reflexivity. Qed.

Section GateFacts.
Variable P : Platform.
Variable req : Request.

Lemma error_mode_visits (layers : list Layer) (e : HttpError) (st : State)
      (id : LayerId) :
  In id (visited (dispatch P layers (Some e) req st)) -> In (id, ErrorUse) layers.
Proof.
  induction layers as [|[i k] layers IH]; simpl; [intros []|].
  destruct k; try (intros H; right; exact (IH H)).
  simpl. intros [<-|[]]. now left.
Qed.

(** Who answered ran, and a request nobody answered has no answerer. *)
Lemma handled_by_visited (layers : list Layer) (err : option HttpError)
      (st : State) :
  match handled_by (dispatch P layers err req st) with
  | Some id =>
      In id (visited (dispatch P layers err req st))
      /\ forall e, reply (dispatch P layers err req st) <> Unhandled e
  | None => exists e, reply (dispatch P layers err req st) = Unhandled e
  end.
Proof.
  revert err st. induction layers as [|[i k] layers IH]; intros err st.
  - simpl. now exists err.
  - assert (Hv : forall s : Served,
               match handled_by s with
               | Some id => In id (visited s)
                            /\ forall e, reply s <> Unhandled e
               | None => exists e, reply s = Unhandled e
               end ->
               match handled_by (visit i s) with
               | Some id => In id (visited (visit i s))
                            /\ forall e, reply (visit i s) <> Unhandled e
               | None => exists e, reply (visit i s) = Unhandled e
               end).
    { intros s. cbn [visit handled_by visited reply].
      destruct (handled_by s); [|easy]. intros [H1 H2]. split; [now right|easy]. }
    simpl. destruct err as [e|].
    + destruct k; try apply IH. simpl. split; [now left|discriminate].
    + destruct k; try apply IH;
        (destruct (matches _ req); [|apply IH];
         destruct (run P i req st) as [[ | e | r | res rk] st'];
         [apply Hv, IH | apply Hv, IH
          | simpl; split; [now left|discriminate]
          | simpl; split; [now left|discriminate]]).
Qed.

(** A layer that matches the request and never calls [next()] without an
    error shields every ordinary layer registered after it. *)
Lemma dispatch_gate (A B : list Layer) (g : LayerId) (k : Kind) (st : State)
      (id : LayerId) :
  matches k req = true ->
  k <> ErrorUse ->
  (forall st', fst (run P g req st') <> Next) ->
  In id (visited (dispatch P (A ++ (g, k) :: B) None req st)) ->
  In id (map fst A) \/ id = g \/ In (id, ErrorUse) B.
Proof.
  intros Hm Hk Hg. rewrite dispatch_app.
  assert (Herr : forall e st', In id (visited (dispatch P ((g, k) :: B) (Some e) req st')) ->
                               In (id, ErrorUse) B).
  { intros e st' H. apply error_mode_visits in H as [H|H]; [|exact H].
    injection H as _ H. congruence. }
  destruct (reply (dispatch P A None req st)) as [r|res rk|[e|]] eqn:E.
  - intros H. left. exact (visited_in_layers P req _ _ _ _ H).
  - intros H. left. exact (visited_in_layers P req _ _ _ _ H).
  - cbn [visited]. intros H. apply in_app_or in H as [H|H].
    + left. exact (visited_in_layers P req _ _ _ _ H).
    + right. right. exact (Herr _ _ H).
  - cbn [visited]. intros H. apply in_app_or in H as [H|H].
    + left. exact (visited_in_layers P req _ _ _ _ H).
    + right. revert H. simpl.
      pose proof (Hg (final (dispatch P A None req st))) as Hn.
      destruct k; try contradiction; rewrite Hm;
        destruct (run P g req (final (dispatch P A None req st)))
          as [[ | e | r | res rk] st']; simpl in Hn; try contradiction;
        simpl; intros [H|H]; try (now left); try contradiction;
        right; exact (error_mode_visits _ _ _ _ H).
Qed.
End GateFacts.

Lemma handled_is_visited (P : Platform) (req : Request) (layers : list Layer)
      (err : option HttpError) (st : State) (id : LayerId) :
  handled_by (dispatch P layers err req st) = Some id ->
  In id (visited (dispatch P layers err req st)).
Proof.
  intros H. pose proof (handled_by_visited P req layers err st) as Hv.
  rewrite H in Hv. exact (proj1 Hv).
Qed.

(** A request that did not run the endpoint handler left the state alone. *)
Lemma unvisited_keeps_state (P : Platform) (req : Request) (st : State) :
  ~ In SetEndpoint (visited (serve P req st)) -> final (serve P req st) = st.
Proof.
  intros Hn. destruct (dispatch_keeps_state P req (app (env P)) None st) as [H|H];
    [exact H|].
  destruct H as (endpoint & _ & _ & _ & _ & Hh & _).
  contradiction Hn. now apply handled_is_visited.
Qed.

Lemma behind_key_ids (e : Env) (id : LayerId) :
  In id (map fst (behind_key e ++ back)) ->
  id <> ErrorHandler -> id <> GlobalErrorHandler ->
  ~ In id (map fst (library_layers ++ redirect_layers e))
  /\ id <> ApiKeyAuth /\ id <> HttpsRedirect
  /\ ~ In (id, ErrorUse) (behind_key e ++ back).
Proof.
  unfold behind_key, redirect_layers.
  destruct (env_is (NODE_ENV e) "production" && env_is (FORCE_HTTPS e) "true");
    destruct (negb (env_is (ENABLE_SWAGGER e) "false")); simpl;
    intros H H1 H2;
    repeat (destruct H as [<-|H];
            [try contradiction;
             repeat split; try discriminate;
             intros Hx; repeat (destruct Hx as [Hx|Hx]; [discriminate|]); exact Hx|]);
    contradiction.
Qed.

Lemma apiKeyAuth_rejects (e : Env) (req : Request) (key : string) :
  API_KEY e = Some key -> nonempty key = true -> x_api_key req <> Some key ->
  apiKeyAuth e req = NextErr (createError 401 (Some "Invalid API key") []).
Proof.
  intros Hk Hn Hx. unfold apiKeyAuth. rewrite Hk, Hn.
  destruct (x_api_key req) as [a|]; [|reflexivity].
  destruct (nonempty a && String.eqb a key) eqn:E; [|reflexivity].
  apply andb_prop in E as [_ E]. apply String.eqb_eq in E. now subst.
Qed.

(** X6.  With [API_KEY] configured, a request under [/api] that does not
    carry that key in [x-api-key] reaches nothing behind the key check:
    neither the Swagger pages, the static files, a route handler nor a
    not-found middleware runs, only error handlers may, and the active
    endpoint stays as it was.  When the layers registered ahead of the
    check (the library middleware and, where installed, the redirect to
    HTTPS) pass the request on, the centralized error handler answers with
    the 401 error [Invalid API key]. *)
Theorem api_key_guards_api_paths
        (P : Platform) (req : Request) (st : State) (key : string)
        (Hkey : API_KEY (env P) = Some key)
        (Hset : nonempty key = true)
        (Hpath : mounted (Some "/api") (path req) = true)
        (Hbad : x_api_key req <> Some key) :
  (forall id, In id (map fst (behind_key (env P) ++ back)) ->
              id <> ErrorHandler -> id <> GlobalErrorHandler ->
              ~ In id (visited (serve P req st)))
  /\ final (serve P req st) = st
  /\ (reply (dispatch P (library_layers ++ redirect_layers (env P)) None req st)
      = Unhandled None ->
      handled_by (serve P req st) = Some ErrorHandler
      /\ reply (serve P req st)
         = Replied (errorHandler P (createError 401 (Some "Invalid API key") [])
                                 req)).
Proof.
  pose proof (apiKeyAuth_rejects (env P) req key Hkey Hset Hbad) as Hrej.
  assert (Hlay : app (env P)
                 = ((library_layers ++ redirect_layers (env P))
                    ++ (ApiKeyAuth, Use (Some "/api"))
                       :: (behind_key (env P) ++ back))%list).
  { unfold app. rewrite front_layout.
    now rewrite <- !app_assoc, <- app_comm_cons. }
  assert (Hshield : forall id, In id (map fst (behind_key (env P) ++ back)) ->
              id <> ErrorHandler -> id <> GlobalErrorHandler ->
              ~ In id (visited (serve P req st))).
  { intros id Hin H1 H2 Hv. unfold serve in Hv. rewrite Hlay in Hv.
    destruct (behind_key_ids (env P) id Hin H1 H2) as (Ha & Hb & _ & Hc).
    apply dispatch_gate in Hv as [Hv|[Hv|Hv]]; try contradiction.
    - exact Hpath.
    - discriminate.
    - intros st'. cbn [run fst]. rewrite Hrej. discriminate. }
  split; [exact Hshield|]. split.
  - apply unvisited_keeps_state. apply Hshield; try discriminate.
    unfold behind_key. rewrite map_app, map_app. apply in_or_app. left.
    apply in_or_app. right. simpl. tauto.
  - intros Hpass. unfold serve. rewrite Hlay, dispatch_app, Hpass.
    cbn [handled_by reply dispatch matches]. rewrite Hpath. cbn [run].
    rewrite Hrej. cbn [visit handled_by reply].
    rewrite dispatch_app. unfold behind_key.
    destruct (negb (env_is (ENABLE_SWAGGER (env P)) "false")); now split.
Qed.

Lemma api_key_guards_api_paths_witness :
  API_KEY (env (quiet_platform keyed_env [])) = Some "secret"
  /\ mounted (Some "/api") (path list_models) = true
  /\ x_api_key list_models <> Some "secret"
  /\ handled_by (serve (quiet_platform keyed_env []) list_models initial_state)
     = Some ErrorHandler.
Proof.
  assert (Hbad : x_api_key list_models <> Some "secret") by discriminate.
  split; [reflexivity|]. split; [reflexivity|]. split; [exact Hbad|].
  exact (proj1 (proj2 (proj2
           (api_key_guards_api_paths (quiet_platform keyed_env []) list_models
              initial_state "secret" eq_refl eq_refl eq_refl Hbad)) eq_refl)).
Defined.

(** X7.  In production with [FORCE_HTTPS] set to [true], a request whose
    [x-forwarded-proto] is not [https] reaches nothing behind the redirect:
    not the key check, not [/health], no route; the state is left alone.
    When the library middleware pass it on, the answer is the 301 redirect
    to [https://<host><url>]. *)
Theorem https_redirect_shields_everything
        (P : Platform) (req : Request) (st : State)
        (Hprod : env_is (NODE_ENV (env P)) "production" = true)
        (Hforce : env_is (FORCE_HTTPS (env P)) "true" = true)
        (Hplain : env_is (x_forwarded_proto req) "https" = false) :
  (forall id, In id (ApiKeyAuth :: map fst (behind_key (env P) ++ back)) ->
              id <> ErrorHandler -> id <> GlobalErrorHandler ->
              ~ In id (visited (serve P req st)))
  /\ final (serve P req st) = st
  /\ (reply (dispatch P library_layers None req st) = Unhandled None ->
      handled_by (serve P req st) = Some HttpsRedirect
      /\ reply (serve P req st)
         = Replied {| statusCode := 301;
                      content := Redirect ("https://"
                                           ++ match host req with
                                              | Some h => h
                                              | None => "undefined"
                                              end ++ url req) |}).
Proof.
  assert (Hred : redirect_layers (env P) = [(HttpsRedirect, Use None)])
    by (unfold redirect_layers; now rewrite Hprod, Hforce).
  assert (Hlay : app (env P)
                 = (library_layers
                    ++ (HttpsRedirect, Use None)
                       :: ((ApiKeyAuth, Use (Some "/api"))
                           :: behind_key (env P) ++ back))%list).
  { unfold app. rewrite front_layout, Hred.
    now rewrite <- !app_assoc, <- !app_comm_cons. }
  assert (Hrun : forall st', run P HttpsRedirect req st'
                 = (Send {| statusCode := 301;
                            content := Redirect ("https://"
                                                 ++ match host req with
                                                    | Some h => h
                                                    | None => "undefined"
                                                    end ++ url req) |}, st')).
  { intros st'. cbn [run]. unfold httpsRedirect. now rewrite Hplain. }
  assert (Hshield : forall id,
              In id (ApiKeyAuth :: map fst (behind_key (env P) ++ back)) ->
              id <> ErrorHandler -> id <> GlobalErrorHandler ->
              ~ In id (visited (serve P req st))).
  { intros id Hin H1 H2 Hv. unfold serve in Hv. rewrite Hlay in Hv.
    apply dispatch_gate in Hv as [Hv|[Hv|Hv]].
    - destruct Hin as [<-|Hin].
      + simpl in Hv. repeat (destruct Hv as [Hv|Hv]; [discriminate|]). exact Hv.
      + destruct (behind_key_ids (env P) id Hin H1 H2) as (Ha & _).
        apply Ha. rewrite map_app. apply in_or_app. now left.
    - destruct Hin as [<-|Hin]; [discriminate|].
      now destruct (behind_key_ids (env P) id Hin H1 H2) as (_ & _ & Hb & _).
    - destruct Hv as [Hv|Hv]; [discriminate|].
      destruct Hin as [<-|Hin].
      + revert Hv. unfold behind_key.
        destruct (negb (env_is (ENABLE_SWAGGER (env P)) "false")); simpl;
          intros Hv; repeat (destruct Hv as [Hv|Hv]; [discriminate|]); exact Hv.
      + now destruct (behind_key_ids (env P) id Hin H1 H2) as (_ & _ & _ & Hc).
    - reflexivity.
    - discriminate.
    - intros st'. cbn [run fst]. unfold httpsRedirect. rewrite Hplain.
      discriminate. }
  split; [exact Hshield|]. split.
  - apply unvisited_keeps_state. apply Hshield; try discriminate.
    right. unfold behind_key. rewrite map_app, map_app. apply in_or_app. left.
    apply in_or_app. right. simpl. tauto.
  - intros Hpass. unfold serve. rewrite Hlay, dispatch_app, Hpass.
    cbn [handled_by reply dispatch matches mounted]. rewrite Hrun.
    now split.
Qed.

Lemma https_redirect_shields_everything_witness :
  env_is (NODE_ENV (env (quiet_platform forced_https_env []))) "production" = true
  /\ env_is (FORCE_HTTPS (env (quiet_platform forced_https_env []))) "true" = true
  /\ env_is (x_forwarded_proto get_health) "https" = false
  /\ reply (serve (quiet_platform forced_https_env []) get_health initial_state)
     = Replied {| statusCode := 301;
                  content := Redirect "https://localhost:3000/health" |}.
Proof.
  split; [reflexivity|]. split; [reflexivity|]. split; [reflexivity|].
  exact (proj2 (proj2 (proj2
           (https_redirect_shields_everything
              (quiet_platform forced_https_env []) get_health initial_state
              eq_refl eq_refl eq_refl)) eq_refl)).
Defined.

(** X5.  No request falls through the application: whatever the library
    middleware do, some layer of the file answers, so Express's final
    handler is never reached; and a request the front layers leave alone,
    with or without an error, is answered by the global error handler. *)
Theorem every_request_is_answered (P : Platform) (req : Request) (st : State) :
  (exists id, handled_by (serve P req st) = Some id
              /\ In id (visited (serve P req st)))
  /\ (forall e, reply (serve P req st) <> Unhandled e)
  /\ (forall e, reply (dispatch P (front (env P)) None req st) = Unhandled e ->
                handled_by (serve P req st) = Some GlobalErrorHandler).
Proof.
  assert (Hr : forall e, reply (serve P req st) <> Unhandled e).
  { intros e. unfold serve, app. rewrite dispatch_app.
    destruct (reply (dispatch P (front (env P)) None req st)) as [r|res k|e'] eqn:E;
      try (rewrite E; discriminate).
    cbn [reply]. rewrite dispatch_back. destruct e'; discriminate. }
  split; [|split; [exact Hr|]].
  - pose proof (handled_by_visited P req (app (env P)) None st) as H.
    fold (serve P req st) in H.
    destruct (handled_by (serve P req st)) as [id|].
    + exists id. split; [reflexivity|exact (proj1 H)].
    + destruct H as (e & H). now contradiction (Hr e).
  - intros e H. unfold serve, app. rewrite dispatch_app, H.
    cbn [handled_by]. rewrite dispatch_back. now destruct e.
Qed.

Section PassFacts.
Variable P : Platform.
Variable req : Request.

(** Layers that do not match the request, or hand it on untouched, leave
    the outcome to the layers after them. *)
Lemma dispatch_pass_through (layers rest : list Layer) (st : State) :
  Forall (fun l : Layer =>
            snd l <> ErrorUse
            /\ (matches (snd l) req = false
                \/ forall st', run P (fst l) req st' = (Next, st'))) layers ->
  handled_by (dispatch P (layers ++ rest) None req st)
  = handled_by (dispatch P rest None req st)
  /\ reply (dispatch P (layers ++ rest) None req st)
     = reply (dispatch P rest None req st)
  /\ final (dispatch P (layers ++ rest) None req st)
     = final (dispatch P rest None req st).
Proof.
  induction 1 as [|[i k] layers [Hk Hl] _ IH]; [now repeat split|].
  simpl in Hk, Hl. simpl.
  destruct k; try contradiction;
    (destruct Hl as [Hl|Hl];
     [rewrite Hl; exact IH
     |destruct (matches _ req); [rewrite Hl; exact IH|exact IH]]).
Qed.

Hypothesis library_passes : forall id, library P id req = Next.
Hypothesis redirect_passes :
  redirect_layers (env P) = [] \/ env_is (x_forwarded_proto req) "https" = true.
Hypothesis key_passes :
  mounted (Some "/api") (path req) = false \/ apiKeyAuth (env P) req = Next.

Lemma upto_static_pass :
  Forall (fun l : Layer =>
            snd l <> ErrorUse
            /\ (matches (snd l) req = false
                \/ forall st', run P (fst l) req st' = (Next, st')))
         (library_layers ++ redirect_layers (env P)
          ++ (ApiKeyAuth, Use (Some "/api"))
             :: (if negb (env_is (ENABLE_SWAGGER (env P)) "false")
                 then [(SwaggerUi, Use (Some "/api-docs"))] else [])
          ++ [(Static, Use None)])%list.
Proof.
  assert (L : forall id k, k <> ErrorUse ->
                run P id req = (fun st' => (library P id req, st')) ->
                snd (id, k) <> ErrorUse
                /\ (matches (snd (id, k)) req = false
                    \/ forall st', run P (fst (id, k)) req st' = (Next, st'))).
  { intros id k Hk Hr. split; [exact Hk|]. right. intros st'. simpl.
    now rewrite Hr, library_passes. }
  apply Forall_app. split.
  { repeat (apply Forall_cons; [apply L; (discriminate || reflexivity)|]).
    apply Forall_nil. }
  apply Forall_app. split.
  { unfold redirect_layers in *.
    destruct (env_is (NODE_ENV (env P)) "production"
              && env_is (FORCE_HTTPS (env P)) "true"); [|constructor].
    destruct redirect_passes as [H|H]; [discriminate|].
    apply Forall_cons; [|apply Forall_nil]. split; [discriminate|].
    right. intros st'. cbn [run fst]. unfold httpsRedirect. now rewrite H. }
  apply Forall_cons.
  { split; [discriminate|]. destruct key_passes as [H|H]; [now left|].
    right. intros st'. cbn [run fst]. now rewrite H. }
  destruct (negb (env_is (ENABLE_SWAGGER (env P)) "false")); simpl;
    repeat (apply Forall_cons; [apply L; (discriminate || reflexivity)|]);
    apply Forall_nil.
Qed.

(** What the application answers is what the routes registered after the
    static files answer. *)
Lemma serve_from_routes (st : State) :
  let routes := [(Health, Route GET "/health");
                 (Endpoints, Route GET "/api/endpoints");
                 (SetEndpoint, Route POST "/api/set-endpoint");
                 (ErrorHandler, ErrorUse)] in
  handled_by (serve P req st) = handled_by (dispatch P (routes ++ back) None req st)
  /\ reply (serve P req st) = reply (dispatch P (routes ++ back) None req st)
  /\ final (serve P req st) = final (dispatch P (routes ++ back) None req st).
Proof.
  intros routes.
  assert (E : app (env P)
              = ((library_layers ++ redirect_layers (env P)
                  ++ (ApiKeyAuth, Use (Some "/api"))
                     :: (if negb (env_is (ENABLE_SWAGGER (env P)) "false")
                         then [(SwaggerUi, Use (Some "/api-docs"))] else [])
                  ++ [(Static, Use None)])
                 ++ (routes ++ back))%list).
  { unfold app. rewrite front_layout. unfold behind_key, routes.
    destruct (negb (env_is (ENABLE_SWAGGER (env P)) "false")); simpl;
      rewrite <- ?app_assoc; simpl; rewrite <- ?app_assoc; reflexivity. }
  unfold serve. rewrite E. apply dispatch_pass_through, upto_static_pass.
Qed.
End PassFacts.



Lemma late_registrations_never_run (P : Platform) (req : Request) (st : State)
      (id : LayerId) :
  In id [HealthLate; NotFoundLate] -> ~ In id (visited (serve P req st)).
Proof.
  intros Hin Hv. unfold serve, app in Hv. rewrite dispatch_app in Hv.
  assert (Hf : ~ In id (map fst (front (env P)))).
  { rewrite front_layout. unfold redirect_layers, behind_key.
    destruct (env_is (NODE_ENV (env P)) "production"
              && env_is (FORCE_HTTPS (env P)) "true");
      destruct (negb (env_is (ENABLE_SWAGGER (env P)) "false")); simpl;
      intros H; destruct Hin as [<-|[<-|[]]];
      repeat (destruct H as [H|H]; [discriminate|]); exact H. }
  destruct (reply (dispatch P (front (env P)) None req st)) as [r|res k|e] eqn:E;
    try (apply visited_in_layers in Hv; contradiction).
  cbn [visited] in Hv. apply in_app_or in Hv as [Hv|Hv].
  - apply visited_in_layers in Hv. contradiction.
  - rewrite dispatch_back in Hv.
    destruct e; cbn [visited] in Hv; destruct Hin as [<-|[<-|[]]];
      repeat (destruct Hv as [Hv|Hv]; [discriminate|]); exact Hv.
Qed.

(** X8.  [GET /health] (and [HEAD]) is answered 200 with [{status: 'ok'}]
    by the first registration of the route whenever the library middleware
    pass the request on and the redirect to HTTPS does not apply, whatever
    [API_KEY] is and whether or not the request carries a key; the state is
    left alone and the second registration of the route never runs. *)
Theorem health_needs_no_key (P : Platform) (req : Request) (st : State)
        (Hmethod : method req = GET \/ method req = HEAD)
        (Hpath : path req = "/health")
        (Hlib : forall id, library P id req = Next)
        (Hred : redirect_layers (env P) = []
                \/ env_is (x_forwarded_proto req) "https" = true) :
  handled_by (serve P req st) = Some Health
  /\ reply (serve P req st)
     = Replied {| statusCode := 200;
                  content := Json (VObj [("status", VStr "ok")]) |}
  /\ final (serve P req st) = st
  /\ ~ In HealthLate (visited (serve P req st)).
Proof.
  assert (Hkey : mounted (Some "/api") (path req) = false
                 \/ apiKeyAuth (env P) req = Next)
    by (left; now rewrite Hpath).
  destruct (serve_from_routes P req Hlib Hred Hkey st) as (H1 & H2 & H3).
  rewrite H1, H2, H3. cbn [List.app dispatch matches]. rewrite Hpath.
  assert (Hm : method_matches GET (method req) = true)
    by (destruct Hmethod as [-> | ->]; reflexivity).
  rewrite Hm. change ("/health" =? "/health") with true. cbn [andb run].
  repeat split. apply late_registrations_never_run. now left.
Qed.

Lemma health_needs_no_key_witness :
  path get_health = "/health"
  /\ API_KEY (env (quiet_platform keyed_env [])) = Some "secret"
  /\ handled_by (serve (quiet_platform keyed_env []) get_health
                       initial_state) = Some Health.
Proof.
  split; [reflexivity|]. split; [reflexivity|].
  exact (proj1 (health_needs_no_key (quiet_platform keyed_env [])
                  get_health initial_state
                  (or_introl eq_refl) eq_refl (fun _ => eq_refl)
                  (or_introl eq_refl))).
Defined.

Lemma strict_eq_str (a : string) (v : value) :
  strict_eq (VStr a) v = true <-> v = VStr a.
Proof.
  destruct v; simpl; try (split; discriminate).
  rewrite String.eqb_eq. split; [now intros <-|now intros [= <-]].
Qed.

(** X9.  After a request that switched the endpoint to [endpoint], a
    [GET /api/endpoints] the front layers let through is answered with
    [getEndpoints()] computed against the new endpoint and changes nothing:
    one entry per configured address, trimmed, flagged [active] exactly when
    the new endpoint is that very string. *)
Theorem listing_follows_the_switch
        (P : Platform) (change listing : Request) (st : State) (endpoint : value)
        (Hchange : method change = POST /\ path change = "/api/set-endpoint")
        (Hlisting : method listing = GET /\ path listing = "/api/endpoints")
        (Hthrough : let_through P change /\ let_through P listing)
        (Hvalid : validation P SetEndpoint change = [])
        (Hbody : get (body change) "endpoint" = Some endpoint)
        (Hprobe : probe P (ToString endpoint ++ "/api/tags") = None) :
  final (serve P change st) = {| ollamaEndpoint := endpoint |}
  /\ reply (serve P listing (final (serve P change st)))
     = Replied {| statusCode := 200;
                  content := Json (getEndpoints (env P)
                                     {| ollamaEndpoint := endpoint |}) |}
  /\ final (serve P listing (final (serve P change st)))
     = {| ollamaEndpoint := endpoint |}
  /\ forall entries entry,
       getEndpoints (env P) {| ollamaEndpoint := endpoint |} = VArr entries ->
       In entry entries ->
       exists url,
         get entry "url" = Some (VStr url)
         /\ get entry "active" = Some (VBool (strict_eq (VStr url) endpoint))
         /\ (get entry "active" = Some (VBool true) <-> endpoint = VStr url).
Proof.
  destruct Hchange as [Hm1 Hp1], Hlisting as [Hm2 Hp2].
  destruct Hthrough as [(L1 & R1 & K1) (L2 & R2 & K2)].
  assert (F : final (serve P change st) = {| ollamaEndpoint := endpoint |}).
  { destruct (serve_from_routes P change L1 R1 K1 st) as (_ & _ & H3).
    rewrite H3. cbn [List.app dispatch matches]. rewrite Hp1, Hm1.
    cbn [method_matches Method_eqb orb andb]. 
    change ("/api/set-endpoint" =? "/health") with false.
    change ("/api/set-endpoint" =? "/api/endpoints") with false.
    change ("/api/set-endpoint" =? "/api/set-endpoint") with true.
    cbn [run]. unfold setEndpoint. now rewrite Hvalid, Hbody, Hprobe. }
  split; [exact F|]. rewrite F.
  destruct (serve_from_routes P listing L2 R2 K2 {| ollamaEndpoint := endpoint |})
    as (_ & H2 & H3).
  rewrite H2, H3. cbn [List.app dispatch matches]. rewrite Hp2, Hm2.
  cbn [method_matches Method_eqb orb andb].
  change ("/api/endpoints" =? "/health") with false.
  change ("/api/endpoints" =? "/api/endpoints") with true.
  cbn [run answer reply final]. split; [reflexivity|]. split; [reflexivity|].
  intros entries entry. unfold getEndpoints. intros [= <-] Hin.
  apply in_map_iff in Hin as (piece & <- & _).
  exists (trim piece). split; [reflexivity|]. split; [reflexivity|].
  change (get _ "active")
    with (Some (VBool (strict_eq (VStr (trim piece)) endpoint))).
  split.
  - intros [= H]. now apply strict_eq_str.
  - intros H. apply strict_eq_str in H. now rewrite H.
Qed.

Lemma listing_follows_the_switch_witness :
  let P := quiet_platform plain_env [] in
  let listing := get_endpoints in
  (let_through P switch_endpoint /\ let_through P listing)
  /\ get (body switch_endpoint) "endpoint" = Some (VStr "http://10.0.0.2:11434")
  /\ reply (serve P listing (final (serve P switch_endpoint initial_state)))
     = Replied {| statusCode := 200;
                  content := Json (getEndpoints (env P)
                                     {| ollamaEndpoint :=
                                          VStr "http://10.0.0.2:11434" |}) |}.
Proof.
  intros P listing.
  assert (T : let_through P switch_endpoint /\ let_through P listing).
  { split; (split; [intros id; reflexivity|]);
      (split; [left; reflexivity|right; reflexivity]). }
  split; [exact T|]. split; [reflexivity|].
  exact (proj1 (proj2
           (listing_follows_the_switch P switch_endpoint listing initial_state
              (VStr "http://10.0.0.2:11434")
              (conj eq_refl eq_refl) (conj eq_refl eq_refl) T
              eq_refl eq_refl eq_refl))).
Defined.

Section ErrorReplies.
Variable P : Platform.
Variable req : Request.

(** What an error-handling layer answers is its answer to some error. *)
Lemma error_layer_reply (layers : list Layer) (err : option HttpError)
      (st : State) (id : LayerId) :
  handled_by (dispatch P layers err req st) = Some id ->
  (forall k, In (id, k) layers -> k = ErrorUse) ->
  exists e, reply (dispatch P layers err req st) = Replied (run_error P id e req).
Proof.
  revert err st. induction layers as [|[i k] layers IH]; intros err st; simpl.
  - discriminate.
  - intros H Hk.
    assert (Hk' : forall k', In (id, k') layers -> k' = ErrorUse)
      by (intros k' Hin; apply Hk; now right).
    assert (Hi : i = id -> k = ErrorUse)
      by (intros ->; apply Hk; now left).
    destruct err as [e|].
    + destruct k; try (now apply IH).
      simpl in H. injection H as <-. now exists e.
    + destruct k; try (now apply IH);
        (destruct (matches _ req); [|now apply IH];
         destruct (run P i req st) as [[ | e | r | res rk] st'];
         cbn [visit answer handled_by reply] in *;
         try (now apply IH);
         injection H as H; specialize (Hi H); discriminate).
Qed.
End ErrorReplies.

Lemma production_is_not_development (v : option string) :
  env_is v "production" = true -> env_is v "development" = false.
Proof.
  destruct v as [s|]; simpl; [|discriminate].
  intros H. apply String.eqb_eq in H. now subst.
Qed.

(** X10.  With [NODE_ENV] set to [production], a JSON body sent by either
    error handler has [success: false] and no [stack] member, and the body
    of the global error handler has no [error] member either. *)
Theorem no_stack_in_production
        (P : Platform) (req : Request) (st : State) (r : Response) (v : value)
        (Hprod : env_is (NODE_ENV (env P)) "production" = true)
        (Hreply : reply (serve P req st) = Replied r)
        (Herr : handled_by (serve P req st) = Some ErrorHandler
                \/ handled_by (serve P req st) = Some GlobalErrorHandler)
        (Hjson : content r = Json v) :
  get v "stack" = Some VUndefined
  /\ get v "success" = Some (VBool false)
  /\ (handled_by (serve P req st) = Some GlobalErrorHandler ->
      get v "error" = Some VUndefined).
Proof.
  assert (Hkinds : forall id k, id = ErrorHandler \/ id = GlobalErrorHandler ->
                                In (id, k) (app (env P)) -> k = ErrorUse).
  { intros id k Hid. unfold app. rewrite front_layout.
    unfold redirect_layers, behind_key.
    destruct (env_is (NODE_ENV (env P)) "production"
              && env_is (FORCE_HTTPS (env P)) "true");
      destruct (negb (env_is (ENABLE_SWAGGER (env P)) "false")); simpl;
      intros H; destruct Hid as [-> | ->];
      repeat (destruct H as [H|H]; [(discriminate || now injection H)|]);
      contradiction. }
  assert (Hbody : (handled_by (serve P req st) = Some ErrorHandler
                   /\ exists e, r = errorHandler P e req)
                  \/ (handled_by (serve P req st) = Some GlobalErrorHandler
                      /\ exists e, r = globalErrorHandler P e req)).
  { destruct Herr as [H|H]; [left|right]; (split; [exact H|]);
      destruct (error_layer_reply P req _ _ _ _ H) as (e & He);
      try (intros k; apply Hkinds; tauto);
      fold (serve P req st) in He; rewrite Hreply in He;
      injection He as ->; now exists e. }
  destruct Hbody as [(H & e & ->)|(H & e & ->)].
  - simpl in Hjson. rewrite (production_is_not_development _ Hprod) in Hjson.
    injection Hjson as <-. repeat split. rewrite H. discriminate.
  - simpl in Hjson. rewrite Hprod in Hjson. simpl in Hjson.
    injection Hjson as <-.
    destruct (lookup_last "errors" (fields e)) as [errors|];
      [destruct (truthy errors)|]; repeat split.
Qed.

Lemma no_stack_in_production_witness :
  env_is (NODE_ENV (env (quiet_platform keyed_env []))) "production" = true
  /\ handled_by (serve (quiet_platform keyed_env []) list_models initial_state)
     = Some ErrorHandler
  /\ get (VObj [("success", VBool false); ("error", VStr "Invalid API key")])
         "stack" = Some VUndefined.
Proof.
  split; [reflexivity|]. split; [reflexivity|].
  exact (proj1 (no_stack_in_production
                  (quiet_platform keyed_env []) list_models initial_state
                  {| statusCode := 401;
                     content := Json (VObj [("success", VBool false);
                                            ("error", VStr "Invalid API key")]) |}
                  (VObj [("success", VBool false);
                         ("error", VStr "Invalid API key")])
                  eq_refl eq_refl (or_introl eq_refl) eq_refl)).
Defined.

(** ** Bulk delete and the relay listeners, taken alone *)

Lemma delete_results_length (P : Platform) (st : State) (models : list value)
      (start : nat) :
  List.length (delete_results P st start models) = List.length models.
Proof.
  revert start. induction models as [|m models IH]; intros start; simpl;
    [reflexivity|now rewrite IH].
Qed.

Lemma failed_of_length (P : Platform) (st : State) (models : list value)
      (start : nat) :
  List.length (failed_items models (delete_results P st start models))
  = List.length (filter reported (delete_results P st start models)).
Proof.
  revert start. induction models as [|m models IH]; intros start;
    [reflexivity|].
  cbn [delete_results failed_items filter reported].
  destruct (upstream_delete P (upstream_url st "/api/delete") start m) as [r|];
    cbn [reported]; [destruct (nonempty r)|]; cbn [List.length];
    now rewrite IH.
Qed.

(** X11.  The second [DELETE /api/models] handler, by how the single
    deletes settled.  A delete is reported when it was rejected with an
    error message that is not empty (the handler filters on [item.error]);
    a delete rejected with an empty message counts as done.  With a
    non-empty [models] array that passed validation: when no delete is
    reported it answers 200 with the number of models; when every delete
    is reported it throws a 500 error [Failed to delete all models] that
    carries the list of failures; in between it answers 207 with [deleted]
    equal to the number of deletes not reported.  [failed] has one entry
    for each reported delete: a model is listed with a message exactly when
    the delete at one of its places in the array was rejected with that
    (non-empty) message. *)
Theorem deleteModelsLate_by_upstream_results
        (P : Platform) (req : Request) (st : State) (models : list value)
        (Htargets : delete_targets P DeleteModelsLate req = inr models) :
  let results := delete_results P st 0 models in
  let refused := List.length (filter reported results) in
  List.length results = List.length models
  /\ (refused <= List.length models)%nat
  /\ (0 < List.length models)%nat
  /\ (refused = 0%nat ->
      deleteModelsLate P req st
      = Send {| statusCode := 200;
                content := Json (VObj [("success", VBool true);
                                       ("message", VStr "Models deleted successfully");
                                       ("count", VNum (of_Z (Z.of_nat (List.length models))))]) |})
  /\ (refused = List.length models ->
      exists e, deleteModelsLate P req st = NextErr e
                /\ status e = Some 500%Z
                /\ message e = "Failed to delete all models"
                /\ fields e = [("success", VBool false);
                               ("failed", VArr (failed_of P st models))])
  /\ ((0 < refused < List.length models)%nat ->
      deleteModelsLate P req st
      = Send {| statusCode := 207;
                content :=
                  Json (VObj [("success", VBool true);
                              ("message", VStr "Some models could not be deleted");
                              ("failed", VArr (failed_of P st models));
                              ("deleted",
                               VNum (of_Z (Z.of_nat
                                             (List.length models - refused))))]) |})
  /\ List.length (failed_of P st models) = refused
  /\ (forall model reason,
        In (VObj [("model", model); ("error", VStr reason)]) (failed_of P st models)
        <-> exists i, nth_error models i = Some model
                      /\ nth_error results i = Some (Some reason)
                      /\ reason <> "").
Proof.
  intros results refused.
  assert (Hres : List.length results = List.length models)
    by apply delete_results_length.
  assert (Hlen : List.length (failed_of P st models) = refused)
    by apply failed_of_length.
  assert (Hle : (refused <= List.length models)%nat).
  { rewrite <- Hres. apply filter_length_le. }
  assert (Hpos : (0 < List.length models)%nat).
  { unfold delete_targets in Htargets.
    destruct (validation P DeleteModelsLate req); [|discriminate].
    destruct (get (body req) "models") as [[| | | | |[|m ms]|]|];
      try discriminate.
    injection Htargets as <-. simpl. lia. }
  split; [exact Hres|]. split; [exact Hle|]. split; [exact Hpos|].
  unfold deleteModelsLate. rewrite Htargets.
  split; [|split; [|split; [|split; [exact Hlen|]]]].
  - intros H0. rewrite H0 in Hlen.
    destruct (failed_of P st models); [reflexivity|discriminate].
  - intros Hall. rewrite Hall in Hlen.
    destruct (failed_of P st models) as [|f fs] eqn:F; [simpl in Hlen; lia|].
    rewrite Hlen, Nat.eqb_refl. eexists. split; [reflexivity|]. now repeat split.
  - intros [H1 H2].
    destruct (failed_of P st models) as [|f fs] eqn:F; [simpl in Hlen; lia|].
    destruct (Nat.eqb_spec (List.length (f :: fs)) (List.length models)) as [E|E];
      [lia|].
    unfold deleted_count. rewrite Hlen.
    now rewrite <- Nat2Z.inj_sub by lia.
  - intros model reason. apply failed_items_spec.
Qed.

Lemma deleteModelsLate_by_upstream_results_witness :
  delete_targets silent_then_refusing DeleteModelsLate delete_a_a
  = inr [VStr "a"; VStr "a"]
  /\ delete_results silent_then_refusing initial_state 0 [VStr "a"; VStr "a"]
     = [Some ""; Some "Request failed with status code 404"]
  /\ deleteModelsLate silent_then_refusing delete_a_a initial_state
     = Send {| statusCode := 207;
               content :=
                 Json (VObj [("success", VBool true);
                             ("message", VStr "Some models could not be deleted");
                             ("failed",
                              VArr (failed_of silent_then_refusing initial_state
                                      [VStr "a"; VStr "a"]));
                             ("deleted", VNum (of_Z 1))]) |}.
Proof.
  assert (H : (0 < 1 < 2)%nat) by lia.
  split; [reflexivity|]. split; [reflexivity|].
  exact (proj1 (proj2 (proj2 (proj2 (proj2 (proj2
           (deleteModelsLate_by_upstream_results
              silent_then_refusing delete_a_a initial_state [VStr "a"; VStr "a"]
              eq_refl)))))) H).
Defined.

(** X12.  Both [DELETE /api/models] handlers, on a body that passes
    validation but names no model ([models] missing, not an array, or an
    empty array): they throw the 400 error [No models specified for
    deletion] whatever the daemon would answer, and the global error
    handler answers it with status 400. *)
Theorem delete_without_models_is_400
        (P : Platform) (req : Request) (st : State) (models : value)
        (Hvalid : validation P DeleteModels req = []
                  /\ validation P DeleteModelsLate req = [])
        (Hbody : get (body req) "models" = Some models)
        (Hnone : forall m ms, models <> VArr (m :: ms)) :
  deleteModels P req st
  = NextErr (createError 400 (Some "No models specified for deletion") [])
  /\ deleteModelsLate P req st
     = NextErr (createError 400 (Some "No models specified for deletion") [])
  /\ statusCode (globalErrorHandler P
                   (createError 400 (Some "No models specified for deletion") [])
                   req) = 400%Z.
Proof.
  destruct Hvalid as [V1 V2].
  unfold deleteModels, deleteModelsLate, delete_targets.
  rewrite V1, V2, Hbody.
  destruct models as [| | | | |[|m ms]|]; try (now repeat split).
  now contradiction (Hnone m ms).
Qed.

Lemma delete_without_models_is_400_witness :
  get (body delete_nothing) "models" = Some (VArr [])
  /\ deleteModelsLate (quiet_platform plain_env []) delete_nothing initial_state
     = NextErr (createError 400 (Some "No models specified for deletion") []).
Proof.
  assert (H : forall m ms, VArr [] <> VArr (m :: ms)) by discriminate.
  split; [reflexivity|].
  exact (proj1 (proj2
           (delete_without_models_is_400
              (quiet_platform plain_env []) delete_nothing initial_state
              (VArr []) (conj eq_refl eq_refl) eq_refl H))).
Defined.

(** X13.  The listeners a relay puts on the upstream stream end the
    response at most once.  Whichever of [end] and [error] fires first wins:
    firing either again, or the other one after it, changes nothing; once a
    chunk has gone out neither listener touches the response; and nothing is
    written behind the record or the error body they send.  Each adds at
    most one piece to what was written, and the status only ever changes to
    500, on a response whose headers were not sent. *)
Theorem relay_listeners_end_the_response_once
        (k : Relay) (res : Res) (message message' chunk : string) :
  on_end k (on_end k res) = on_end k res
  /\ on_end k (on_error k message res) = on_error k message res
  /\ on_error k message (on_end k res) = on_end k res
  /\ on_error k message' (on_error k message res) = on_error k message res
  /\ (headersSent res = false ->
      res_write chunk (on_end k res) = on_end k res
      /\ res_write chunk (on_error k message res) = on_error k message res)
  /\ on_end k (res_write chunk res) = res_write chunk res
  /\ on_error k message (res_write chunk res) = res_write chunk res
  /\ (exists extra, written (on_end k res) = (written res ++ extra)%list
                    /\ (List.length extra <= 1)%nat)
  /\ (exists extra, written (on_error k message res) = (written res ++ extra)%list
                    /\ (List.length extra <= 1)%nat)
  /\ (res_status (on_error k message res) <> res_status res ->
      headersSent res = false /\ res_status (on_error k message res) = 500%Z).
Proof.
  destruct res as [code headers [] chunks]; destruct k as [model|operation];
    repeat split; try reflexivity; try discriminate;
    try (exists []; split; [now rewrite app_nil_r|simpl; lia]);
    try (eexists [_]; split; [reflexivity|simpl; lia]);
    try (simpl; intros H; congruence);
    try (exfalso; apply H; reflexivity).
Qed.

(** ** A quoted string is read back *)

Lemma quote_body_cons (c : ascii) (s : string) :
  quote_body (String c s) = quote_body (String c "") ++ quote_body s.
Proof.
  cbn [quote_body]. now rewrite append_empty_r.
Qed.

(** One character: what [quote_body] writes for it is scanned as one piece
    that encodes the character again, and holds no line feed. *)
Lemma scan_quoted_char (c : ascii) :
  exists p,
    (forall ps, encode_pieces (p :: ps) = String c (encode_pieces ps))
    /\ (forall t, scan_string (quote_body (String c "") ++ t)
                  = match scan_string t with
                    | Some (ps, r) => Some (p :: ps, r)
                    | None => None
                    end)
    /\ has_lf (quote_body (String c "")) = false.
Proof.
  destruct c as [[] [] [] [] [] [] [] []];
    eexists; (split; [|split; [intros t; reflexivity|reflexivity]]);
    intros [|[c'|v] ps]; reflexivity.
Qed.

Lemma scan_quoted (s t : string) :
  exists ps, scan_string (quote_body s ++ String DQUOTE t) = Some (ps, t)
             /\ encode_pieces ps = s.
Proof.
  induction s as [|c s (ps & IH1 & IH2)].
  - now exists [].
  - destruct (scan_quoted_char c) as (p & Hp & Hs & _).
    exists (p :: ps). rewrite quote_body_cons, append_assoc, Hs, IH1, Hp, IH2.
    now split.
Qed.

Lemma parse_string_quoted (s t : string) :
  parse_string (quote_body s ++ String DQUOTE t) = Some (s, t).
Proof.
  unfold parse_string. destruct (scan_quoted s t) as (ps & -> & ->).
  reflexivity.
Qed.

Lemma has_lf_app (a b : string) :
  has_lf (a ++ b) = has_lf a || has_lf b.
Proof.
  induction a as [|c a IH]; simpl; [reflexivity|].
  now rewrite IH, orb_assoc.
Qed.

Lemma quote_body_no_lf (s : string) : has_lf (quote_body s) = false.
Proof.
  induction s as [|c s IH]; [reflexivity|].
  destruct (scan_quoted_char c) as (_ & _ & _ & H).
  now rewrite quote_body_cons, has_lf_app, H, IH.
Qed.

Lemma parse_value_quoted (f : nat) (s t : string) :
  parse_value (S f) (quote s ++ t) = Some (VStr s, t).
Proof.
  rewrite parse_value_S. unfold quote.
  change (String DQUOTE (quote_body s ++ String DQUOTE "") ++ t)
    with (String DQUOTE ((quote_body s ++ String DQUOTE "") ++ t)).
  rewrite append_assoc.
  change (String DQUOTE "" ++ t) with (String DQUOTE t).
  change (skip_ws (String DQUOTE (quote_body s ++ String DQUOTE t)))
    with (String DQUOTE (quote_body s ++ String DQUOTE t)).
  cbv iota.
  change (Ascii.eqb DQUOTE "{") with false.
  change (Ascii.eqb DQUOTE "[") with false.
  change (Ascii.eqb DQUOTE DQUOTE) with true. cbv iota.
  now rewrite parse_string_quoted.
Qed.

(** A string or a boolean, as [JSON.stringify] writes it, is read back. *)
Lemma parse_value_flat (f : nat) (v : value) (t : string) :
  match v with VStr _ | VBool _ => True | _ => False end ->
  parse_value (S f) (JSON_stringify v ++ t) = Some (v, t).
Proof.
  destruct v as [| |[|]| |s| |]; try contradiction; intros _.
  - rewrite parse_value_S. reflexivity.
  - rewrite parse_value_S. reflexivity.
  - apply parse_value_quoted.
Qed.

Lemma stringify_flat (m : list (string * value)) :
  Forall (fun kv : string * value =>
            match snd kv with VStr _ | VBool _ => True | _ => False end) m ->
  JSON_stringify (VObj m)
  = String "{" (join "," (map (fun kv => quote (fst kv) ++ ":"
                                         ++ JSON_stringify (snd kv)) m)
                ++ "}").
Proof.
  intros Hm. cbn [JSON_stringify]. change ("{" ++ ?x) with (String "{" x).
  do 3 f_equal. induction Hm as [|[k v] m Hv _ IH]; [reflexivity|].
  cbn [map fst snd] in *. rewrite IH.
  now destruct v.
Qed.

(** An object all of whose members are strings or booleans, as
    [JSON.stringify] writes it, is read back member by member. *)
Lemma parse_members_flat (m : list (string * value)) :
  Forall (fun kv : string * value =>
            match snd kv with VStr _ | VBool _ => True | _ => False end) m ->
  m <> [] ->
  forall (f : nat) (acc : list (string * value)) (t : string),
    (2 * List.length m <= f)%nat ->
    parse_members f
      (join "," (map (fun kv => quote (fst kv) ++ ":" ++ JSON_stringify (snd kv)) m)
       ++ String "}" t) acc
    = Some (VObj (rev acc ++ m)%list, t).
Proof.
  induction 1 as [|[k v] m Hv Hm IH]; [congruence|]. intros _ f acc t Hf.
  cbn [snd] in Hv.
  destruct f as [|[|f]]; try (simpl in Hf; lia).
  rewrite parse_members_S.
  assert (Hhead : forall u,
             (quote k ++ ":" ++ JSON_stringify v) ++ u
             = String DQUOTE (quote_body k
                              ++ String DQUOTE
                                   (String ":" (JSON_stringify v ++ u)))).
  { intros u. unfold quote at 1. rewrite !append_assoc. simpl.
    now rewrite !append_assoc. }
  assert (Hstep : forall u,
             match starts_with DQUOTE
                     (skip_ws ((quote k ++ ":" ++ JSON_stringify v) ++ u)) with
             | None => None
             | Some r0 =>
                 match parse_string r0 with
                 | None => None
                 | Some (k', r1) =>
                     match starts_with ":" (skip_ws r1) with
                     | None => None
                     | Some r2 =>
                         match parse_value (S f) r2 with
                         | None => None
                         | Some (v', r3) => Some (k', v', r3)
                         end
                     end
                 end
             end = Some (k, v, u)).
  { intros u. rewrite Hhead.
    change (skip_ws (String DQUOTE ?x)) with (String DQUOTE x).
    change (starts_with DQUOTE (String DQUOTE ?x)) with (Some x).
    cbv iota. rewrite parse_string_quoted.
    change (skip_ws (String ":" ?x)) with (String ":" x).
    change (starts_with ":" (String ":" ?x)) with (Some x).
    cbv iota. now rewrite (parse_value_flat f v u Hv). }
  destruct m as [|kv m].
  - cbn [map join List.length fst snd].
    specialize (Hstep (String "}" t)).
    destruct (starts_with DQUOTE _) as [r0|]; [|discriminate].
    destruct (parse_string r0) as [[k' r1]|]; [|discriminate].
    destruct (starts_with ":" _) as [r2|]; [|discriminate].
    destruct (parse_value (S f) r2) as [[v' r3]|]; [|discriminate].
    injection Hstep as -> -> ->. reflexivity.
  - change (join "," (map (fun kv0 => quote (fst kv0) ++ ":"
                                      ++ JSON_stringify (snd kv0))
                         ((k, v) :: kv :: m)))
      with ((quote k ++ ":" ++ JSON_stringify v)
            ++ "," ++ join "," (map (fun kv0 => quote (fst kv0) ++ ":"
                                                ++ JSON_stringify (snd kv0))
                                  (kv :: m))).
    rewrite append_assoc.
    match goal with
    | |- context [starts_with DQUOTE (skip_ws (_ ++ ?u))] => specialize (Hstep u)
    end.
    destruct (starts_with DQUOTE _) as [r0|]; [|discriminate].
    destruct (parse_string r0) as [[k' r1]|]; [|discriminate].
    destruct (starts_with ":" _) as [r2|]; [|discriminate].
    destruct (parse_value (S f) r2) as [[v' r3]|]; [|discriminate].
    injection Hstep as -> -> ->.
    change (("," ++ ?x) ++ ?y) with (String "," (x ++ y)).
    change (skip_ws (String "," ?x)) with (String "," x). cbv iota.
    change (Ascii.eqb "," ",") with true. cbv iota.
    rewrite IH; [|discriminate|simpl in *; lia].
    simpl. now rewrite <- app_assoc.
Qed.

Lemma quote_no_lf (s : string) : has_lf (quote s) = false.
Proof.
  unfold quote. cbn [has_lf]. change (Ascii.eqb DQUOTE LF) with false.
  now rewrite has_lf_app, quote_body_no_lf.
Qed.

(** The round trip for an object of string and boolean members:
    [JSON.parse] reads what [JSON.stringify] wrote, and the text is a single
    line. *)
Lemma JSON_parse_stringify_flat (m : list (string * value)) :
  Forall (fun kv : string * value =>
            match snd kv with VStr _ | VBool _ => True | _ => False end) m ->
  JSON_parse (JSON_stringify (VObj m)) = Some (VObj m)
  /\ has_lf (JSON_stringify (VObj m)) = false.
Proof.
  intros Hm. rewrite (stringify_flat m Hm). split.
  - destruct m as [|[k w] m]; [reflexivity|].
    assert (H : parse_value (S (2 * List.length ((k, w) :: m)))
                  (String "{"
                     (join "," (map (fun kv => quote (fst kv) ++ ":"
                                               ++ JSON_stringify (snd kv))
                                  ((k, w) :: m)) ++ "}"))
                = Some (VObj ((k, w) :: m), "")).
    { rewrite parse_value_S.
      change (skip_ws (String "{" ?x)) with (String "{" x). cbv iota.
      change (Ascii.eqb "{" "{") with true. cbv iota.
      assert (Hq : exists x,
                 join "," (map (fun kv => quote (fst kv) ++ ":"
                                          ++ JSON_stringify (snd kv))
                             ((k, w) :: m)) ++ "}"
                 = String DQUOTE x).
      { destruct m; unfold quote; simpl; eauto. }
      destruct Hq as (x & Hq). rewrite Hq at 1.
      change (skip_ws (String DQUOTE x)) with (String DQUOTE x).
      change (starts_with "}" (String DQUOTE x)) with (@None string). cbv iota.
      rewrite (parse_members_flat _ Hm); [reflexivity|discriminate|lia]. }
    unfold JSON_parse. now rewrite (JSON_parse_fuel_enough _ _ _ _ H).
  - cbn [has_lf]. change (Ascii.eqb "{" LF) with false. rewrite has_lf_app.
    cbn [orb]. rewrite orb_false_r.
    induction Hm as [|[k w] m Hw Hm IH]; [reflexivity|].
    assert (Hv : has_lf (JSON_stringify w) = false).
    { cbn [snd] in Hw. destruct w as [| |[|]| |s| |]; try contradiction;
        try reflexivity. apply quote_no_lf. }
    destruct m as [|kv m].
    + cbn [map join fst snd]. now rewrite !has_lf_app, quote_no_lf, Hv.
    + change (join "," (map (fun kv0 => quote (fst kv0) ++ ":"
                                        ++ JSON_stringify (snd kv0))
                          ((k, w) :: kv :: m)))
        with ((quote k ++ ":" ++ JSON_stringify w)
              ++ "," ++ join "," (map (fun kv0 => quote (fst kv0) ++ ":"
                                                  ++ JSON_stringify (snd kv0))
                                    (kv :: m))).
      rewrite !has_lf_app, quote_no_lf, Hv, IH. reflexivity.
Qed.

Lemma parse_value_flat_object (m : list (string * value)) (t : string) (g : nat) :
  Forall (fun kv : string * value =>
            match snd kv with VStr _ | VBool _ => True | _ => False end) m ->
  (2 * String.length (JSON_stringify (VObj m)) <= g)%nat ->
  parse_value g (JSON_stringify (VObj m) ++ t) = Some (VObj m, t).
Proof.
  intros Hm Hg.
  assert (H : parse_value (S (2 * List.length m)) (JSON_stringify (VObj m) ++ t)
              = Some (VObj m, t)).
  { rewrite (stringify_flat m Hm).
    change (String "{" ?x ++ t) with (String "{" (x ++ t)).
    rewrite append_assoc. change ("}" ++ t) with (String "}" t).
    rewrite parse_value_S.
    change (skip_ws (String "{" ?x)) with (String "{" x). cbv iota.
    change (Ascii.eqb "{" "{") with true. cbv iota.
    destruct m as [|[k w] m]; [reflexivity|].
    assert (Hq : exists x,
               join "," (map (fun kv => quote (fst kv) ++ ":"
                                        ++ JSON_stringify (snd kv))
                           ((k, w) :: m)) ++ String "}" t
               = String DQUOTE x).
    { destruct m; unfold quote; simpl; eauto. }
    destruct Hq as (x & Hq). rewrite Hq at 1.
    change (skip_ws (String DQUOTE x)) with (String DQUOTE x).
    change (starts_with "}" (String DQUOTE x)) with (@None string). cbv iota.
    rewrite (parse_members_flat _ Hm); [reflexivity|discriminate|lia]. }
  destruct (proj1 (parsers_fuel_free _) _ _ _ H) as [_ G].
  apply G. rewrite len_app. lia.
Qed.

(** An array of such objects is read back element by element. *)
Lemma parse_elements_flat (l : list value) :
  Forall (fun v => exists m,
            v = VObj m
            /\ Forall (fun kv : string * value =>
                         match snd kv with VStr _ | VBool _ => True | _ => False end)
                      m) l ->
  l <> [] ->
  forall (f : nat) (acc : list value) (t : string),
    (2 * String.length (join "," (map JSON_stringify l)) + 1 <= f)%nat ->
    parse_elements f (join "," (map JSON_stringify l) ++ String "]" t) acc
    = Some (VArr (rev acc ++ l)%list, t).
Proof.
  induction 1 as [|v l (m & -> & Hm) Hl IH]; [congruence|]. intros _ f acc t Hf.
  destruct f as [|f]; [lia|]. rewrite parse_elements_S.
  destruct l as [|w l].
  - cbn [map join] in *.
    rewrite (parse_value_flat_object m (String "]" t) f Hm) by lia.
    reflexivity.
  - change (join "," (map JSON_stringify (VObj m :: w :: l)))
      with (JSON_stringify (VObj m)
            ++ "," ++ join "," (map JSON_stringify (w :: l))) in *.
    rewrite !len_app in Hf. cbn [String.length] in Hf.
    rewrite append_assoc.
    rewrite (parse_value_flat_object m _ f Hm) by lia.
    change (("," ++ ?x) ++ ?y) with (String "," (x ++ y)).
    change (skip_ws (String "," ?x)) with (String "," x). cbv iota.
    change (Ascii.eqb "," ",") with true. cbv iota.
    rewrite IH; [|discriminate|lia].
    simpl. now rewrite <- app_assoc.
Qed.

Lemma JSON_parse_stringify_flat_array (l : list value) :
  Forall (fun v => exists m,
            v = VObj m
            /\ Forall (fun kv : string * value =>
                         match snd kv with VStr _ | VBool _ => True | _ => False end)
                      m) l ->
  JSON_parse (JSON_stringify (VArr l)) = Some (VArr l).
Proof.
  intros Hl. destruct l as [|v l]; [reflexivity|].
  assert (H : parse_value
                (S (2 * String.length (join "," (map JSON_stringify (v :: l))) + 1))
                (JSON_stringify (VArr (v :: l)))
              = Some (VArr (v :: l), "")).
  { cbn [JSON_stringify]. fold JSON_stringify.
    change ("[" ++ ?x) with (String "[" x).
    rewrite parse_value_S.
    change (skip_ws (String "[" ?x)) with (String "[" x). cbv iota.
    change (Ascii.eqb "[" "{") with false.
    change (Ascii.eqb "[" "[") with true. cbv iota.
    assert (Hq : exists x,
               join "," (map JSON_stringify (v :: l)) ++ "]" = String "{" x).
    { inversion Hl as [|? ? (m & -> & _) _]. destruct l; simpl; eauto. }
    destruct Hq as (x & Hq). rewrite Hq at 1.
    change (skip_ws (String "{" x)) with (String "{" x).
    change (starts_with "]" (String "{" x)) with (@None string). cbv iota.
    change (join "," (map JSON_stringify (v :: l)) ++ "]")
      with (join "," (map JSON_stringify (v :: l)) ++ String "]" "").
    rewrite (parse_elements_flat _ Hl); [reflexivity|discriminate|lia]. }
  unfold JSON_parse. now rewrite (JSON_parse_fuel_enough _ _ _ _ H).
Qed.

(** ** The legacy page against the server *)

(** The bodies of the two error handlers survive the trip to the page. *)
Lemma error_bodies_are_flat (P : Platform) (e : HttpError) (req : Request) :
  (exists m, content (errorHandler P e req) = Json (VObj m)
             /\ Controls.response_json (VObj m) = Controls.Answered (VObj m)
             /\ get (VObj m) "success" = Some (VBool false)
             /\ get (VObj m) "message" = Some VUndefined)
  /\ (lookup_last "errors" (fields e) = None ->
      exists m, content (globalErrorHandler P e req) = Json (VObj m)
                /\ Controls.response_json (VObj m) = Controls.Answered (VObj m)
                /\ get (VObj m) "success" = Some (VBool false)
                /\ get (VObj m) "message" = Some (VStr (message_or_default e))).
Proof.
  assert (R : forall m,
             Forall (fun kv : string * value =>
                       match snd kv with VStr _ | VBool _ => True | _ => False end) m ->
             Controls.response_json (VObj m) = Controls.Answered (VObj m)).
  { intros m Hm. unfold Controls.response_json.
    now rewrite (proj1 (JSON_parse_stringify_flat m Hm)). }
  split.
  - unfold errorHandler. cbn [content].
    destruct (env_is (NODE_ENV (env P)) "development");
      eexists; (split; [reflexivity|]); (split; [|now split]);
      apply R; repeat constructor.
  - intros Hno. unfold globalErrorHandler. cbn [content]. rewrite Hno.
    destruct (negb (env_is (NODE_ENV (env P)) "production"));
      [destruct (nonempty (stack_of P e))|];
      eexists; (split; [reflexivity|]); (split; [|now split]);
      apply R; repeat constructor.
Qed.

(** X15.  Deleting from the legacy page cannot succeed.  [deleteModel] and
    [deleteSelectedModels] send [DELETE /api/models]; when the front layers
    pass that request on, the application answers 404, and the page, reading
    [success] and [message] of the body it gets, ends in
    [alert('Not Found - /api/models')]: no model is deleted, the list is not
    refreshed, and the server's state is as before. *)
Theorem legacy_delete_always_alerts_not_found
        (P : Platform) (req : Request) (st : State)
        (Hurl : originalUrl req = "/api/models")
        (Hpass : reply (dispatch P (front (env P)) None req st) = Unhandled None) :
  exists r data,
    reply (serve P req st) = Replied r
    /\ statusCode r = 404%Z
    /\ content r = Json data
    /\ Controls.deleteModel true (Controls.response_json data)
       = [Controls.Alert (VStr "Not Found - /api/models")]
    /\ (forall selected, selected <> 0%nat ->
          Controls.deleteSelectedModels selected true (Controls.response_json data)
          = [Controls.Alert (VStr "Not Found - /api/models")])
    /\ final (serve P req st) = st.
Proof.
  destruct (passed_on_is_not_found P req st Hpass) as [Hh Hr].
  rewrite Hurl in Hr.
  destruct (proj2 (error_bodies_are_flat P
                     (createError 404 (Some "Not Found - /api/models") []) req)
              eq_refl) as (m & Hc & Hj & Hs & Hm).
  eexists. exists (VObj m). split; [exact Hr|]. split; [reflexivity|].
  split; [exact Hc|].
  assert (Hst : final (serve P req st) = st).
  { destruct (dispatch_keeps_state P req (app (env P)) None st) as [H|H];
      [exact H|].
    destruct H as (endpoint & _ & _ & _ & _ & Hh' & _).
    fold (serve P req st) in Hh'. congruence. }
  unfold Controls.deleteModel, Controls.deleteSelectedModels.
  rewrite Hj, Hs, Hm. cbn [negb truthy]. split; [reflexivity|].
  split; [|exact Hst]. intros selected Hsel.
  destruct selected; [contradiction|reflexivity].
Qed.

Lemma legacy_delete_always_alerts_not_found_witness :
  originalUrl delete_a_b = "/api/models"
  /\ exists r data,
       reply (serve refusing_b delete_a_b initial_state) = Replied r
       /\ statusCode r = 404%Z
       /\ content r = Json data
       /\ Controls.deleteModel true (Controls.response_json data)
          = [Controls.Alert (VStr "Not Found - /api/models")]
       /\ (forall selected, selected <> 0%nat ->
             Controls.deleteSelectedModels selected true
               (Controls.response_json data)
             = [Controls.Alert (VStr "Not Found - /api/models")])
       /\ final (serve refusing_b delete_a_b initial_state) = initial_state.
Proof.
  split; [reflexivity|].
  exact (legacy_delete_always_alerts_not_found refusing_b delete_a_b
           initial_state eq_refl eq_refl).
Defined.

(** X16.  [setEndpoint] of the legacy page against the endpoint route,
    for a request the front layers let through.  When validation passes and
    the probe succeeds the page shows [Connected successfully!], stores the
    endpoint and reloads both lists.  In every other case the server
    answers 400 through the centralized error handler, whose body carries
    the reason under [error]; the page reads [message], which is not there,
    and shows [Connection failed: ] with nothing after it. *)
Theorem set_endpoint_failure_shows_no_reason
        (P : Platform) (req : Request) (st : State) (endpoint : string)
        (Hroute : method req = POST /\ path req = "/api/set-endpoint")
        (Hthrough : let_through P req)
        (Hbody : get (body req) "endpoint" = Some (VStr endpoint)) :
  exists r data,
    reply (serve P req st) = Replied r
    /\ content r = Json data
    /\ ((validation P SetEndpoint req = []
         /\ probe P (endpoint ++ "/api/tags") = None
         /\ statusCode r = 200%Z
         /\ final (serve P req st) = {| ollamaEndpoint := VStr endpoint |}
         /\ Controls.setEndpoint endpoint (Controls.response_json data)
            = [Controls.EndpointStatusClass "success";
               Controls.EndpointStatusText (Controls.Lit "Connected successfully!");
               Controls.StoreLastEndpoint endpoint;
               Controls.RefreshModels; Controls.FetchRunningModels])
        \/ ((validation P SetEndpoint req <> []
             \/ probe P (endpoint ++ "/api/tags") <> None)
            /\ statusCode r = 400%Z
            /\ final (serve P req st) = st
            /\ Controls.setEndpoint endpoint (Controls.response_json data)
               = [Controls.EndpointStatusClass "error";
                  Controls.EndpointStatusText
                    (Controls.WithMessage "Connection failed: " (Error ""))])).
Proof.
  destruct Hroute as [Hm Hp]. destruct Hthrough as (L & R & K).
  destruct (serve_from_routes P req L R K st) as (_ & H2 & H3).
  rewrite H2, H3. cbn [List.app dispatch matches]. rewrite Hp, Hm.
  cbn [method_matches Method_eqb orb andb].
  change ("/api/set-endpoint" =? "/health") with false.
  change ("/api/set-endpoint" =? "/api/endpoints") with false.
  change ("/api/set-endpoint" =? "/api/set-endpoint") with true.
  cbn [run]. unfold setEndpoint. rewrite Hbody. cbn [ToString].
  assert (Hfail : forall e : HttpError,
             status e = Some 400%Z ->
             exists r data,
               Replied (errorHandler P e req) = Replied r
               /\ content r = Json data
               /\ statusCode r = 400%Z
               /\ Controls.setEndpoint endpoint (Controls.response_json data)
                  = [Controls.EndpointStatusClass "error";
                     Controls.EndpointStatusText
                       (Controls.WithMessage "Connection failed: " (Error ""))]).
  { intros e He.
    destruct (proj1 (error_bodies_are_flat P e req)) as (m & Hc & Hj & Hs & Hmsg).
    exists (errorHandler P e req), (VObj m). split; [reflexivity|].
    split; [exact Hc|]. split.
    - cbn [errorHandler statusCode]. unfold status_or_500. now rewrite He.
    - unfold Controls.setEndpoint. now rewrite Hj, Hs, Hmsg. }
  destruct (validation P SetEndpoint req) as [|err errs] eqn:V.
  - destruct (probe P (endpoint ++ "/api/tags")) as [msg|] eqn:Pr.
    + cbn [visit reply final dispatch run_error answer].
      destruct (Hfail (createError 400
                         (Some ("Failed to connect to endpoint: " ++ msg)) [])
                      eq_refl) as (r & data & Hr & Hc & Hs & He).
      exists r, data. split; [exact Hr|]. split; [exact Hc|]. right.
      split; [right; discriminate|]. now repeat split.
    + cbn [answer reply final]. eexists. eexists.
      split; [reflexivity|]. split; [reflexivity|]. left.
      split; [reflexivity|]. split; [reflexivity|]. split; [reflexivity|].
      split; [reflexivity|].
      unfold Controls.setEndpoint, Controls.response_json.
      cbn [ollamaEndpoint].
      assert (Hflat : Forall (fun kv : string * value =>
                                match snd kv with
                                | VStr _ | VBool _ => True
                                | _ => False
                                end)
                             [("success", VBool true);
                              ("message", VStr "Endpoint set successfully");
                              ("endpoint", VStr endpoint)])
        by (repeat constructor).
      now rewrite (proj1 (JSON_parse_stringify_flat _ Hflat)).
  - cbn [visit reply final dispatch run_error answer].
    destruct (Hfail (createError 400 None [("errors", VArr (err :: errs))])
                    eq_refl) as (r & data & Hr & Hc & Hs & He).
    exists r, data. split; [exact Hr|]. split; [exact Hc|]. right.
    split; [left; discriminate|]. now repeat split.
Qed.

Lemma set_endpoint_failure_shows_no_reason_witness :
  let_through unreachable_daemon switch_endpoint
  /\ exists r data,
       reply (serve unreachable_daemon switch_endpoint initial_state) = Replied r
       /\ content r = Json data
       /\ ((validation unreachable_daemon SetEndpoint switch_endpoint = []
            /\ probe unreachable_daemon ("http://10.0.0.2:11434" ++ "/api/tags")
               = None
            /\ statusCode r = 200%Z
            /\ final (serve unreachable_daemon switch_endpoint initial_state)
               = {| ollamaEndpoint := VStr "http://10.0.0.2:11434" |}
            /\ Controls.setEndpoint "http://10.0.0.2:11434"
                 (Controls.response_json data)
               = [Controls.EndpointStatusClass "success";
                  Controls.EndpointStatusText
                    (Controls.Lit "Connected successfully!");
                  Controls.StoreLastEndpoint "http://10.0.0.2:11434";
                  Controls.RefreshModels; Controls.FetchRunningModels])
           \/ ((validation unreachable_daemon SetEndpoint switch_endpoint <> []
                \/ probe unreachable_daemon
                     ("http://10.0.0.2:11434" ++ "/api/tags") <> None)
               /\ statusCode r = 400%Z
               /\ final (serve unreachable_daemon switch_endpoint initial_state)
                  = initial_state
               /\ Controls.setEndpoint "http://10.0.0.2:11434"
                    (Controls.response_json data)
                  = [Controls.EndpointStatusClass "error";
                     Controls.EndpointStatusText
                       (Controls.WithMessage "Connection failed: " (Error ""))])).
Proof.
  assert (T : let_through unreachable_daemon switch_endpoint).
  { split; [intros id; reflexivity|].
    split; [left; reflexivity|right; reflexivity]. }
  split; [exact T|].
  exact (set_endpoint_failure_shows_no_reason unreachable_daemon switch_endpoint
           initial_state "http://10.0.0.2:11434" (conj eq_refl eq_refl) T
           eq_refl).
Defined.

Lemma endpoint_options_unselected (kept : option string) (first : value)
      (index : nat) (entry : string -> value) (pieces : list string) :
  (forall x, exists m, entry x = VObj m) ->
  (exists s, kept = Some s) \/ (exists m, first = VObj m) ->
  Controls.options_from kept first (S index) (map entry pieces)
  = repeat (Controls.option_html (VObj []) false) (List.length pieces).
Proof.
  intros Hentry H. revert index.
  induction pieces as [|p pieces IH]; intros index; [reflexivity|].
  cbn [map Controls.options_from List.length repeat]. rewrite IH. f_equal.
  destruct (Hentry p) as (m' & ->).
  destruct H as [(s & ->)|(m & ->)]; [reflexivity|destruct kept; reflexivity].
Qed.

(** X24.  The endpoint dropdown of the legacy page never shows an
    address.  The server lists the endpoints as objects [{url, active}],
    [loadEndpoints] puts each entry into the template as it is, and an
    object prints as [[object Object]]: for a [GET /api/endpoints] the front
    layers let through, every option the page builds has [[object Object]]
    as its value and as its text, one option per entry of the list the
    server sent; the first is marked selected unless an endpoint was stored
    before, and [setEndpoint()] is called in either case. *)
Theorem legacy_endpoint_list_shows_objects
        (P : Platform) (req : Request) (st : State) (stored : option string)
        (Hroute : method req = GET /\ path req = "/api/endpoints")
        (Hthrough : let_through P req) :
  exists r n,
    reply (serve P req st) = Replied r
    /\ content r = Json (getEndpoints (env P) st)
    /\ Controls.response_json (getEndpoints (env P) st)
       = Controls.Answered (getEndpoints (env P) st)
    /\ Controls.loadEndpoints stored (Controls.response_json (getEndpoints (env P) st))
       = [Controls.EndpointSelectHTML
            (String.concat EmptyString
               (Controls.option_html (VObj [])
                  (match stored with
                   | Some s => negb (nonempty s)
                   | None => true
                   end)
                :: repeat (Controls.option_html (VObj []) false) n));
          Controls.SetEndpointCalled]
    /\ Controls.option_html (VObj []) false
       = "<option value="
         ++ String DQUOTE
              ("[object Object]"
               ++ String DQUOTE
                    (" >" ++ nl ++ Controls.spaces 24 ++ "[object Object]"
                     ++ nl ++ Controls.spaces 20 ++ "</option>"))
    /\ (exists entries,
          getEndpoints (env P) st = VArr entries
          /\ List.length entries = S n).
Proof.
  destruct Hroute as [Hm Hp]. destruct Hthrough as (L & R & K).
  destruct (serve_from_routes P req L R K st) as (_ & H2 & _).
  assert (Hr : reply (serve P req st)
               = Replied {| statusCode := 200;
                            content := Json (getEndpoints (env P) st) |}).
  { rewrite H2. cbn [List.app dispatch matches]. rewrite Hp, Hm.
    cbn [method_matches Method_eqb orb andb].
    change ("/api/endpoints" =? "/health") with false.
    change ("/api/endpoints" =? "/api/endpoints") with true.
    reflexivity. }
  unfold getEndpoints in *.
  set (configured := match OLLAMA_ENDPOINTS (env P) with
                     | Some s => if nonempty s then s
                                 else "http://localhost:11434"
                     | None => "http://localhost:11434"
                     end) in *.
  destruct (split_on_cons ","%char configured) as (p & pieces & Hs).
  rewrite Hs in *.
  set (entry := fun endpoint =>
                  VObj [("url", VStr (trim endpoint));
                        ("active", VBool (strict_eq (VStr (trim endpoint))
                                                    (ollamaEndpoint st)))]) in *.
  assert (Hj : Controls.response_json (VArr (map entry (p :: pieces)))
               = Controls.Answered (VArr (map entry (p :: pieces)))).
  { unfold Controls.response_json.
    rewrite JSON_parse_stringify_flat_array; [reflexivity|].
    apply Forall_forall. intros v Hv. apply in_map_iff in Hv as (q & <- & _).
    eexists. split; [reflexivity|]. repeat constructor. }
  eexists. exists (List.length pieces). split; [exact Hr|].
  split; [reflexivity|]. split; [exact Hj|].
  split; [|split; [reflexivity|]].
  2: { exists (map entry (p :: pieces)). split; [reflexivity|].
       now rewrite length_map. }
  assert (Hentry : forall x, exists m, entry x = VObj m)
    by (intros x; eexists; reflexivity).
  rewrite Hj. unfold Controls.loadEndpoints. cbn [map].
  destruct (Hentry p) as (m0 & E0). rewrite E0.
  destruct stored as [s|]; [destruct (nonempty s) eqn:N|]; cbn [negb];
    cbn [Controls.options_from];
    (rewrite (endpoint_options_unselected _ _ 0 entry pieces Hentry);
     [|eauto]);
    cbn [Controls.is_last strict_eq Nat.eqb truthy]; try rewrite N; reflexivity.
Qed.

Lemma legacy_endpoint_list_shows_objects_witness :
  let_through (quiet_platform plain_env []) get_endpoints
  /\ exists r n,
       reply (serve (quiet_platform plain_env []) get_endpoints initial_state)
       = Replied r
       /\ content r
          = Json (getEndpoints (env (quiet_platform plain_env [])) initial_state)
       /\ Controls.loadEndpoints None
            (Controls.response_json
               (getEndpoints (env (quiet_platform plain_env [])) initial_state))
          = [Controls.EndpointSelectHTML
               (String.concat EmptyString
                  (Controls.option_html (VObj []) true
                   :: repeat (Controls.option_html (VObj []) false) n));
             Controls.SetEndpointCalled].
Proof.
  assert (T : let_through (quiet_platform plain_env []) get_endpoints).
  { split; [intros id; reflexivity|].
    split; [left; reflexivity|right; reflexivity]. }
  split; [exact T|].
  destruct (legacy_endpoint_list_shows_objects (quiet_platform plain_env [])
              get_endpoints initial_state None (conj eq_refl eq_refl) T)
    as (r & n & H1 & H2 & _ & H4 & _ & _).
  exists r, n. now repeat split.
Defined.

(** ** [app.js] against the server *)

Section FrontDoor.
Variable P : Platform.
Variable req : Request.
Hypothesis library_passes : forall id, library P id req = Next.
Hypothesis redirect_passes :
  redirect_layers (env P) = [] \/ env_is (x_forwarded_proto req) "https" = true.


End FrontDoor.


(** A request that gets past the front layers and is for none of the three
    routes served there is answered 404 by the global error handler. *)
Lemma unserved_route_is_not_found (P : Platform) (req : Request) (st : State) :
  let_through P req ->
  served_route req = false ->
  reply (serve P req st)
  = Replied (globalErrorHandler P
               (createError 404 (Some ("Not Found - " ++ originalUrl req)) [])
               req)
  /\ final (serve P req st) = st.
Proof.
  intros (L & R & K) Hroute.
  destruct (serve_from_routes P req L R K st) as (_ & H2 & H3).
  rewrite H2, H3. unfold served_route in Hroute.
  apply orb_false_elim in Hroute as [Hroute H3'].
  apply orb_false_elim in Hroute as [H1' H2'].
  cbn [List.app dispatch matches]. rewrite H1', H2', H3'.
  rewrite dispatch_back. now split.
Qed.

(** What [apiRequest] makes of the two error bodies: the 404 of the global
    error handler gives its message, the body of the centralized handler,
    which has no [message], gives [Request failed]. *)
Lemma apiRequest_on_error_bodies (P : Platform) (req : Request)
      (endpoint : string) :
  (exists v,
     content (globalErrorHandler P
                (createError 404 (Some ("Not Found - " ++ originalUrl req)) [])
                req) = Json v
     /\ AppApi.apiRequest endpoint
          (inr (AppApi.fetch_of
                  (globalErrorHandler P
                     (createError 404 (Some ("Not Found - " ++ originalUrl req)) [])
                     req) v))
        = ([AppApi.ConsoleError ("API request to " ++ endpoint ++ " failed:")
              (Error ("Not Found - " ++ originalUrl req))],
           Throw (Error ("Not Found - " ++ originalUrl req))))
  /\ (exists v,
        content (errorHandler P (createError 401 (Some "Invalid API key") []) req)
        = Json v
        /\ AppApi.apiRequest endpoint
             (inr (AppApi.fetch_of
                     (errorHandler P
                        (createError 401 (Some "Invalid API key") []) req) v))
           = ([AppApi.ConsoleError ("API request to " ++ endpoint ++ " failed:")
                 (Error "Request failed")],
              Throw (Error "Request failed"))).
Proof.
  split.
  - destruct (proj2 (error_bodies_are_flat P
                       (createError 404 (Some ("Not Found - " ++ originalUrl req)) [])
                       req) eq_refl) as (m & Hc & Hj & Hs & Hm).
    exists (VObj m). split; [exact Hc|].
    unfold AppApi.apiRequest, AppApi.fetch_of. cbn [AppApi.ok AppApi.json].
    unfold Controls.response_json in Hj.
    destruct (JSON_parse (JSON_stringify (VObj m))) as [d|]; [|discriminate].
    injection Hj as ->. rewrite Hm. reflexivity.
  - destruct (proj1 (error_bodies_are_flat P
                       (createError 401 (Some "Invalid API key") []) req))
      as (m & Hc & Hj & Hs & Hmsg).
    exists (VObj m). split; [exact Hc|].
    unfold AppApi.apiRequest, AppApi.fetch_of. cbn [AppApi.ok AppApi.json].
    unfold Controls.response_json in Hj.
    destruct (JSON_parse (JSON_stringify (VObj m))) as [d|]; [|discriminate].
    injection Hj as ->. rewrite Hmsg. reflexivity.
Qed.

(** X17.  Every request of [app.js] for a route the server does not serve
    fails in [apiRequest].  For a request the front layers let through that
    is for none of [GET /health], [GET /api/endpoints] and
    [POST /api/set-endpoint] (so for [/api/health], [/api/version],
    [/api/models], [/api/ps], [/api/run], [/api/stop] and
    [/api/delete/<name>], which [app.js] asks for): the server answers 404 and [apiRequest] logs and
    throws [new Error('Not Found - <originalUrl>')]; the state of the server
    is as before. *)
Theorem app_request_to_unserved_route_fails
        (P : Platform) (req : Request) (st : State) (endpoint : string)
        (Hthrough : let_through P req)
        (Hroute : served_route req = false) :
  exists r v,
    reply (serve P req st) = Replied r
    /\ content r = Json v
    /\ statusCode r = 404%Z
    /\ AppApi.apiRequest endpoint (inr (AppApi.fetch_of r v))
       = ([AppApi.ConsoleError ("API request to " ++ endpoint ++ " failed:")
             (Error ("Not Found - " ++ originalUrl req))],
          Throw (Error ("Not Found - " ++ originalUrl req)))
    /\ final (serve P req st) = st.
Proof.
  destruct (unserved_route_is_not_found P req st Hthrough Hroute) as [Hr Hst].
  destruct (proj1 (apiRequest_on_error_bodies P req endpoint)) as (v & Hc & Ha).
  eexists. exists v. split; [exact Hr|]. split; [exact Hc|].
  split; [reflexivity|]. split; [exact Ha|exact Hst].
Qed.

Lemma app_request_to_unserved_route_fails_witness :
  let_through (quiet_platform plain_env []) list_models
  /\ served_route list_models = false
  /\ exists r v,
       reply (serve (quiet_platform plain_env []) list_models initial_state)
       = Replied r
       /\ content r = Json v
       /\ statusCode r = 404%Z
       /\ AppApi.apiRequest "/api/models" (inr (AppApi.fetch_of r v))
          = ([AppApi.ConsoleError ("API request to " ++ "/api/models" ++ " failed:")
                (Error ("Not Found - " ++ originalUrl list_models))],
             Throw (Error ("Not Found - " ++ originalUrl list_models)))
       /\ final (serve (quiet_platform plain_env []) list_models initial_state)
          = initial_state.
Proof.
  assert (T : let_through (quiet_platform plain_env []) list_models).
  { split; [intros id; reflexivity|].
    split; [left; reflexivity|right; reflexivity]. }
  split; [exact T|]. split; [reflexivity|].
  exact (app_request_to_unserved_route_fails (quiet_platform plain_env [])
           list_models initial_state "/api/models" T eq_refl).
Defined.



(** ** Updating and pulling, against the server *)

Lemma refusal_on_not_found (P : Platform) (req : Request) (lit : string)
      (lenient : bool) :
  exists v,
    content (globalErrorHandler P
               (createError 404 (Some ("Not Found - " ++ originalUrl req)) [])
               req) = Json v
    /\ AppApi.ok (AppApi.fetch_of
                    (globalErrorHandler P
                       (createError 404 (Some ("Not Found - " ++ originalUrl req)) [])
                       req) v) = false
    /\ Operations.refusal
         (AppApi.fetch_of
            (globalErrorHandler P
               (createError 404 (Some ("Not Found - " ++ originalUrl req)) [])
               req) v) lit lenient
       = Error ("Not Found - " ++ originalUrl req).
Proof.
  destruct (proj2 (error_bodies_are_flat P
                     (createError 404 (Some ("Not Found - " ++ originalUrl req)) [])
                     req) eq_refl) as (m & Hc & Hj & Hs & Hm).
  exists (VObj m). split; [exact Hc|]. split; [reflexivity|].
  unfold Operations.refusal, AppApi.fetch_of. cbn [AppApi.json].
  unfold Controls.response_json in Hj.
  destruct (JSON_parse (JSON_stringify (VObj m))) as [d|]; [|discriminate].
  injection Hj as ->. rewrite Hm. reflexivity.
Qed.

(** X23.  Neither page can start an update or a pull.  The requests they
    send, [POST /api/update-model] and [POST /api/pull], are for routes the
    server does not serve; when the front layers let such a request through
    the answer is 404, the response is not [ok], and each function throws
    [new Error('Not Found - <originalUrl>')] before it reads any stream:
    [updateModel] and [pullModel] of the legacy page show
    [Error: Not Found - ...], [pullModel] of [app.js] shows the toast
    [Pull failed: Not Found - ...]. *)
Theorem model_operations_never_start
        (P : Platform) (req : Request) (st : State)
        (dom : App.Dom) (modelName : string) (chunks : list string)
        (Hthrough : let_through P req)
        (Hroute : served_route req = false) :
  exists r v,
    reply (serve P req st) = Replied r
    /\ content r = Json v
    /\ statusCode r = 404%Z
    /\ Operations.updateModel (inr (AppApi.fetch_of r v)) chunks
       = [Page.StatusText (VStr "Starting update...");
          Page.ConsoleError "Update error:"
            (Error ("Not Found - " ++ originalUrl req));
          Page.StatusError (Error ("Not Found - " ++ originalUrl req));
          Page.SetTimeout Page.ClearStatus 5000]
    /\ Operations.pullModel (inr (AppApi.fetch_of r v)) chunks
       = [Page.StatusClass ""; Page.StatusText (VStr "Starting pull...");
          Page.ProgressDisplay "none";
          Page.ConsoleError "Pull error:"
            (Error ("Not Found - " ++ originalUrl req));
          Page.ProgressDisplay "none";
          Page.StatusError (Error ("Not Found - " ++ originalUrl req));
          Page.StatusClass "error";
          Page.SetTimeout Page.ClearStatus 5000]
    /\ Operations.app_pullModel App.full_dom modelName
         (inr (AppApi.fetch_of r v)) chunks
       = [App.StatusDisplay "block";
          App.ProgressText (App.Lit "Initializing...");
          App.BarWidth (Zero false);
          App.ConsoleError "Pull failed:"
            (Error ("Not Found - " ++ originalUrl req));
          App.ShowToast (App.WithMessage "Pull failed: "
                           (Error ("Not Found - " ++ originalUrl req))) "error";
          App.ProgressText (App.WithMessage "Error: "
                              (Error ("Not Found - " ++ originalUrl req)));
          App.ProgressClass "text-danger"].
Proof.
  destruct (unserved_route_is_not_found P req st Hthrough Hroute) as [Hr _].
  destruct (refusal_on_not_found P req "Failed to start update" false)
    as (v & Hc & Hok & Hu).
  destruct (refusal_on_not_found P req "Failed to start pull" false)
    as (v1 & Hc1 & _ & Hp).
  destruct (refusal_on_not_found P req "Failed to start pull" true)
    as (v2 & Hc2 & _ & Ha).
  rewrite Hc in Hc1, Hc2. injection Hc1 as <-. injection Hc2 as <-.
  eexists. exists v. split; [exact Hr|]. split; [exact Hc|].
  split; [reflexivity|].
  unfold Operations.updateModel, Operations.pullModel, Operations.app_pullModel.
  rewrite Hok, Hu, Hp, Ha. now repeat split.
Qed.

Lemma model_operations_never_start_witness :
  let_through (quiet_platform plain_env []) post_update_model
  /\ served_route post_update_model = false
  /\ exists r v,
       reply (serve (quiet_platform plain_env []) post_update_model initial_state)
       = Replied r
       /\ content r = Json v
       /\ statusCode r = 404%Z
       /\ Operations.updateModel (inr (AppApi.fetch_of r v)) []
          = [Page.StatusText (VStr "Starting update...");
             Page.ConsoleError "Update error:"
               (Error ("Not Found - " ++ originalUrl post_update_model));
             Page.StatusError
               (Error ("Not Found - " ++ originalUrl post_update_model));
             Page.SetTimeout Page.ClearStatus 5000].
Proof.
  assert (T : let_through (quiet_platform plain_env []) post_update_model).
  { split; [intros id; reflexivity|].
    split; [left; reflexivity|right; reflexivity]. }
  split; [exact T|]. split; [reflexivity|].
  destruct (model_operations_never_start (quiet_platform plain_env [])
              post_update_model initial_state App.full_dom "llama3" []
              T eq_refl) as (r & v & H1 & H2 & H3 & H4 & _).
  exists r, v. now repeat split.
Defined.

(** ** Selection and sort order of the model list *)

Import Listing.

Lemma has_In (s : list string) (x : string) : has s x = true <-> In x s.
Proof.
  unfold has. rewrite existsb_exists. split.
  - intros (y & Hy & E). apply String.eqb_eq in E. now subst.
  - intros H. exists x. split; [exact H|apply String.eqb_refl].
Qed.

Lemma add_In (s : list string) (x y : string) :
  In y (add s x) <-> y = x \/ In y s.
Proof.
  unfold add. destruct (has s x) eqn:H.
  - apply has_In in H. split; [now right|]. intros [->|Hy]; assumption.
  - rewrite in_app_iff. simpl. split; [intros [?|[?|[]]]|intros [?|?]]; auto.
Qed.

Lemma delete_In (s : list string) (x y : string) :
  In y (delete s x) <-> y <> x /\ In y s.
Proof.
  unfold delete. rewrite filter_In, negb_true_iff, String.eqb_neq. tauto.
Qed.

Lemma add_NoDup (s : list string) (x : string) : NoDup s -> NoDup (add s x).
Proof.
  intros H. unfold add. destruct (has s x) eqn:E; [exact H|].
  apply NoDup_app; [exact H|repeat constructor; intros []|].
  intros y Hy [<-|[]]. apply has_In in Hy. congruence.
Qed.

Lemma delete_NoDup (s : list string) (x : string) : NoDup s -> NoDup (delete s x).
Proof. apply NoDup_filter. Qed.




Lemma toggle_each_spec (isChecked : bool) (rendered : string -> bool)
      (models selected : list string) :
  NoDup selected ->
  NoDup (fst (toggle_each isChecked rendered models selected))
  /\ forall y,
       has (fst (toggle_each isChecked rendered models selected)) y
       = if existsb (String.eqb y) models && rendered y then isChecked
         else has selected y.
Proof.
  revert selected. induction models as [|name models IH]; intros selected Hnd.
  - split; [exact Hnd|reflexivity].
  - cbn [toggle_each existsb]. destruct (rendered name) eqn:R.
    + set (next := if isChecked then add selected name else delete selected name).
      assert (Hnext : NoDup next)
        by (subst next; destruct isChecked;
            [now apply add_NoDup|now apply delete_NoDup]).
      destruct (IH next Hnext) as [I1 I2].
      destruct (toggle_each isChecked rendered models next) as [sel es].
      cbn [fst] in *. split; [exact I1|]. intros y. rewrite I2.
      destruct (String.eqb_spec y name) as [->|Hne].
      * rewrite R. cbn [orb andb]. rewrite andb_true_r.
        destruct (existsb (String.eqb name) models); [reflexivity|].
        subst next. destruct isChecked.
        -- apply has_In, add_In. now left.
        -- apply not_true_is_false. intros H. apply has_In, delete_In in H. tauto.
      * cbn [orb]. destruct (existsb (String.eqb y) models && rendered y);
          [reflexivity|].
        apply eq_true_iff_eq. subst next. rewrite !has_In.
        destruct isChecked; [rewrite add_In|rewrite delete_In]; tauto.
    + destruct (IH selected Hnd) as [I1 I2]. split; [exact I1|].
      intros y. rewrite I2. destruct (String.eqb_spec y name) as [->|Hne].
      * rewrite R, !andb_false_r. reflexivity.
      * reflexivity.
Qed.

(** X20.  [toggleAllModels] of the legacy page: afterwards every listed
    model that has a checkbox on the page is selected exactly when the
    select-all box is checked, the membership of every other name is as
    before, and the list itself is untouched.  When every listed model has
    its checkbox, all of them are selected after checking the box and none
    after clearing it. *)
Theorem toggle_all_follows_the_rendered_rows
        (dom : Dom) (isChecked : bool) (rendered : string -> bool) (st : State)
        (Hselected : NoDup (selectedModels st)) :
  let st' := fst (toggleAllModels dom isChecked rendered st) in
  NoDup (selectedModels st')
  /\ currentModels st' = currentModels st
  /\ (forall name, In name (currentModels st) -> rendered name = true ->
                   has (selectedModels st') name = isChecked)
  /\ (forall name, ~ In name (currentModels st) \/ rendered name = false ->
                   has (selectedModels st') name = has (selectedModels st) name)
  /\ ((forall name, In name (currentModels st) -> rendered name = true) ->
      forallb (has (selectedModels st')) (currentModels st)
      = isChecked || match currentModels st with [] => true | _ => false end).
Proof.
  intros st'. subst st'. unfold toggleAllModels.
  destruct (toggle_each_spec isChecked rendered (currentModels st)
              (selectedModels st) Hselected) as [H1 H2].
  destruct (toggle_each isChecked rendered (currentModels st) (selectedModels st))
    as [selected es].
  cbn [fst selectedModels currentModels] in *.
  assert (Hyes : forall name, In name (currentModels st) -> rendered name = true ->
                              has selected name = isChecked).
  { intros name Hin Hr. rewrite H2, Hr.
    assert (E : existsb (String.eqb name) (currentModels st) = true)
      by (apply existsb_exists; exists name; split;
          [exact Hin|apply String.eqb_refl]).
    now rewrite E. }
  split; [exact H1|]. split; [reflexivity|]. split; [exact Hyes|]. split.
  - intros name [Hn|Hr]; rewrite H2.
    + assert (E : existsb (String.eqb name) (currentModels st) = false).
      { apply not_true_is_false. intros E. apply existsb_exists in E as (y & Hy & E).
        apply String.eqb_eq in E. subst. contradiction. }
      now rewrite E.
    + now rewrite Hr, andb_false_r.
  - intros Hall. destruct (currentModels st) as [|m ms] eqn:C.
    + now rewrite orb_true_r.
    + rewrite orb_false_r. destruct isChecked.
      * apply forallb_forall. intros y Hy. now apply Hyes; [|apply Hall].
      * apply not_true_is_false. intros F. rewrite forallb_forall in F.
        assert (Hm : In m (m :: ms)) by now left.
        pose proof (F m Hm) as Hf. rewrite (Hyes m Hm (Hall m Hm)) in Hf.
        discriminate.
Qed.

Lemma toggle_all_follows_the_rendered_rows_witness :
  NoDup (selectedModels one_of_two_selected)
  /\ currentModels
       (fst (toggleAllModels {| selectAllCheckbox := true;
                                updateSelectedBtn := true |}
               true (fun _ => true) one_of_two_selected))
     = currentModels one_of_two_selected.
Proof.
  assert (H1 : NoDup (selectedModels one_of_two_selected)).
  { repeat constructor; simpl; intuition discriminate. }
  split; [exact H1|].
  exact (proj1 (proj2
           (toggle_all_follows_the_rendered_rows
              {| selectAllCheckbox := true; updateSelectedBtn := true |}
              true (fun _ => true) one_of_two_selected H1))).
Defined.



(** X22.  [sortModels] in both pages: the clicked column becomes the sort
    field; a column other than the current one starts ascending; clicking
    the current column flips between ascending and descending, so two clicks
    restore the order; whatever the clicks, the direction is one of [asc]
    and [desc].  The legacy page marks the clicked header, if there is one,
    with the class of the new direction and redraws the list; [app.js]
    redraws, and [getSortIcon] then gives an arrow for the clicked column
    and the neutral icon for every other. *)
Theorem sort_clicks_alternate (clicked : string) (s : Sort) :
  fst (app_sortModels clicked s) = fst (sortModels true clicked s)
  /\ fst (sortModels false clicked s) = fst (sortModels true clicked s)
  /\ field (fst (sortModels true clicked s)) = clicked
  /\ (field s <> clicked -> direction (fst (sortModels true clicked s)) = "asc")
  /\ (direction (fst (sortModels true clicked s)) = "asc"
      \/ direction (fst (sortModels true clicked s)) = "desc")
  /\ (field s = clicked ->
      (direction s = "asc" ->
       direction (fst (sortModels true clicked s)) = "desc")
      /\ (direction s <> "asc" ->
          direction (fst (sortModels true clicked s)) = "asc")
      /\ (direction s = "asc" \/ direction s = "desc" ->
          fst (sortModels true clicked (fst (sortModels true clicked s))) = s))
  /\ snd (sortModels true clicked s)
     = [SortClassesCleared;
        SortClassAdded clicked
          ("sort-" ++ direction (fst (sortModels true clicked s)));
        DisplayModels]
  /\ getSortIcon clicked (fst (app_sortModels clicked s)) <> UpDown
  /\ (forall other, other <> clicked ->
        getSortIcon other (fst (app_sortModels clicked s)) = UpDown)
  /\ forall clicks,
       let final :=
         fold_left (fun s' f => fst (sortModels true f s')) clicks initial_sort in
       direction final = "asc" \/ direction final = "desc".
Proof.
  unfold app_sortModels, sortModels. cbn [fst snd].
  assert (Hdir : forall f s', direction (next_sort f s') = "asc"
                              \/ direction (next_sort f s') = "desc").
  { intros f s'. unfold next_sort. destruct (String.eqb (field s') f);
      [destruct (String.eqb (direction s') "asc")|]; simpl; auto. }
  assert (Hfield : field (next_sort clicked s) = clicked).
  { unfold next_sort. destruct (String.eqb_spec (field s) clicked);
      simpl; congruence. }
  split; [reflexivity|]. split; [reflexivity|]. split; [exact Hfield|].
  split; [|split; [apply Hdir|split; [|split; [reflexivity|split; [|split]]]]].
  - intros Hne. unfold next_sort.
    destruct (String.eqb_spec (field s) clicked); [contradiction|reflexivity].
  - intros Hf. unfold next_sort at 1 2. rewrite Hf, String.eqb_refl.
    cbn [direction]. split; [|split].
    + intros ->. reflexivity.
    + intros Hne. apply String.eqb_neq in Hne. now rewrite Hne.
    + intros Hd. unfold next_sort. rewrite Hf, String.eqb_refl.
      cbn [field direction]. rewrite String.eqb_refl.
      destruct s as [f d]. cbn [field direction] in *. subst f.
      destruct Hd as [-> | ->]; reflexivity.
  - unfold getSortIcon. rewrite Hfield, String.eqb_refl. cbn [negb].
    destruct (String.eqb (direction (next_sort clicked s)) "asc"); discriminate.
  - intros other Hne. unfold getSortIcon. rewrite Hfield.
    apply not_eq_sym in Hne. apply String.eqb_neq in Hne. now rewrite Hne.
  - intros clicks. cbv zeta.
    assert (G : forall s0, direction s0 = "asc" \/ direction s0 = "desc" ->
                direction (fold_left (fun s' f => next_sort f s') clicks s0) = "asc"
                \/ direction (fold_left (fun s' f => next_sort f s') clicks s0)
                   = "desc").
    { induction clicks as [|f clicks IH]; intros s0 H0; [exact H0|].
      simpl. apply IH, Hdir. }
    apply G. now left.
Qed.
